(** * ProxyForge: rotation controller and gateway client pipeline

    A shallow embedding of the extension's background service worker
    ([background.js]: class [ProxyManager]) and of the gateway module
    ([apiGateway.js]: classes [APIGateway], [RateLimiter], [CacheManager],
    [APIGatewayFactory]), followed by the properties of the design document
    that concern them.

    Conventions of the embedding.
    - A JavaScript number that the code only ever uses as an integer is a
      [Z]; the counters stay far below 2^53, where doubles are exact.  The
      proxy index is the one number that can leave the integers (the
      remainder by a zero length is NaN), so it is a [jsnum].
    - A JavaScript string is a [string]; [includes] and [startsWith] are
      written out.
    - A plain object used as a dictionary (HTTP headers) is a [gmap]; a
      [Map] whose iteration order matters (the cache) is an association
      list in insertion order; a [Map] used as a directory is a [gmap].
    - Objects with identity (gateway clients) live in a store and are
      named by their location.
    - [throw] / [try]-[catch] are a [completion]: [Normal v] or [Throw e].
    - The platform ([URL], [btoa], [Math.random], [Date.now], [fetch]) is
      not part of the repository: it enters as a type class, an oracle
      argument or an explicit draw.  Calls into [chrome.*] never feed back
      into the fields modelled here and are left out. *)

From Stdlib Require Import ZArith List String Ascii Bool Lia.
From stdpp Require Import base gmap strings list fin_maps.
From Equations Require Import Equations.
Import ListNotations.

Local Open Scope string_scope.
Local Open Scope Z_scope.

(* ===================================================================== *)
(** * JavaScript values                                                   *)
(* ===================================================================== *)

(** Numbers that may be NaN. *)
Inductive jsnum : Type :=
| JNum (z : Z)
| JNaN.

Definition js_add (a b : jsnum) : jsnum :=
  match a, b with
  | JNum x, JNum y => JNum (x + y)
  | _, _ => JNaN
  end.

(** [a % b]: the sign follows the dividend; a zero divisor gives NaN. *)
Definition js_rem (a b : jsnum) : jsnum :=
  match a, b with
  | JNum x, JNum y => if y =? 0 then JNaN else JNum (Z.rem x y)
  | _, _ => JNaN
  end.

(** [a >= b] and [a < b]: every comparison with NaN is false. *)
Definition js_ge (a b : jsnum) : bool :=
  match a, b with
  | JNum x, JNum y => y <=? x
  | _, _ => false
  end.

Definition js_lt (a b : jsnum) : bool :=
  match a, b with
  | JNum x, JNum y => x <? y
  | _, _ => false
  end.

(** [Math.floor(Math.random() * n)] for a draw [rnd / 2^53] of
    [Math.random()], which lies in [0, 1).  The product is taken exactly
    here; JavaScript rounds it to the nearest double before the floor,
    which for a draw just below a multiple of [1 / n] gives the next
    integer.  Both results lie in [0, n), and that is all the statements
    below use of a draw: none of them says which target a draw picks. *)
Definition random_resolution : Z := 2 ^ 53.

Definition floor_random_times (rnd n : Z) : jsnum :=
  JNum ((rnd mod random_resolution) * n / random_resolution).

(** [x || d] on an optional number: [undefined] and [0] are falsy. *)
Definition num_or (x : option Z) (d : Z) : Z :=
  match x with
  | Some v => if v =? 0 then d else v
  | None => d
  end.

(** [s.startsWith(p)] *)
Fixpoint startsWith (s p : string) {struct p} : bool :=
  match p, s with
  | EmptyString, _ => true
  | String c p', String d s' => Ascii.eqb c d && startsWith s' p'
  | String _ _, EmptyString => false
  end.

(** [s.includes(t)] *)
Fixpoint includes (s t : string) : bool :=
  startsWith s t ||
  match s with
  | EmptyString => false
  | String _ s' => includes s' t
  end.

(** Values a response body or a cache entry can hold. *)
Inductive jsval : Type :=
| VUndefined
| VNull
| VBool (b : bool)
| VNumber (z : Z)
| VString (s : string)
| VObject (props : list (string * string)).

(** The test of [if (v)]. *)
Definition truthy (v : jsval) : bool :=
  match v with
  | VUndefined | VNull => false
  | VBool b => b
  | VNumber z => negb (z =? 0)
  | VString s => negb (String.eqb s "")
  | VObject _ => true
  end.

(* ===================================================================== *)
(** * The platform's URL                                                  *)
(* ===================================================================== *)

(** The components of a parsed [URL] that the code reads. *)
Record URL : Type := mkURL {
  protocol : string;
  hostname : string;
  url_port : string;
  pathname : string;
  search : string;
  hash : string;
  origin : string;
  href : string
}.

(** [new URL(s)] either yields a URL or throws a [TypeError];
    [url.searchParams.append(k, v)] extends the query. *)
Class URLApi : Type := {
  new_URL : string -> option URL;
  searchParams_append : URL -> string -> string -> URL
}.

(** [btoa] *)
Class Base64 : Type := { btoa : string -> string }.

(** ** A reference implementation

    The general statements below hold for every implementation of [URLApi].
    The worked examples need one that computes; [reference_URL] parses
    absolute URLs of the shape
    [scheme:[//][userinfo@]host[:port][/path][?query][#fragment]] the way
    the URL standard does for them: the scheme and the host of a special
    scheme are lower-cased, a default port is dropped, an empty path of a
    special scheme is [/], and only special schemes have an origin other
    than ["null"].  Percent-encoding, dot segments, IPv6 literals and
    numeric hosts are outside its domain, and so are the inputs on which
    the platform is stricter or more lenient than this shape: a port
    above 65535 and a space or another forbidden character in the host,
    which the platform refuses, and spaces or control characters around
    the URL, which it strips.  The worked examples stay inside the
    domain. *)

Definition is_upper (c : ascii) : bool :=
  let n := nat_of_ascii c in (65 <=? n)%nat && (n <=? 90)%nat.

Definition is_alpha (c : ascii) : bool :=
  let n := nat_of_ascii c in
  is_upper c || ((97 <=? n)%nat && (n <=? 122)%nat).

Definition is_digit (c : ascii) : bool :=
  let n := nat_of_ascii c in (48 <=? n)%nat && (n <=? 57)%nat.

Definition is_scheme_char (c : ascii) : bool :=
  is_alpha c || is_digit c
  || Ascii.eqb c "+" || Ascii.eqb c "-" || Ascii.eqb c ".".

Definition to_lower (c : ascii) : ascii :=
  if is_upper c then ascii_of_nat (nat_of_ascii c + 32) else c.

Fixpoint lower (s : string) : string :=
  match s with
  | EmptyString => EmptyString
  | String c s' => String (to_lower c) (lower s')
  end.

Fixpoint string_forallb (p : ascii -> bool) (s : string) : bool :=
  match s with
  | EmptyString => true
  | String c s' => p c && string_forallb p s'
  end.

(** The part of [s] before the first character satisfying [stop], and the
    rest from that character on. *)
Fixpoint split_at (stop : ascii -> bool) (s : string) : string * string :=
  match s with
  | EmptyString => (EmptyString, EmptyString)
  | String c s' =>
      if stop c then (EmptyString, s)
      else let (a, b) := split_at stop s' in (String c a, b)
  end.

(** The part of [s] after the last occurrence of [c], if [c] occurs. *)
Fixpoint after_last (c : ascii) (s : string) : option string :=
  match s with
  | EmptyString => None
  | String d s' =>
      match after_last c s' with
      | Some t => Some t
      | None => if Ascii.eqb c d then Some s' else None
      end
  end.

(** The part of [s] before the last occurrence of [c], if [c] occurs. *)
Fixpoint before_last (c : ascii) (s : string) : option string :=
  match s with
  | EmptyString => None
  | String d s' =>
      match before_last c s' with
      | Some t => Some (String d t)
      | None => if Ascii.eqb c d then Some EmptyString else None
      end
  end.

Fixpoint drop_while (p : ascii -> bool) (s : string) : string :=
  match s with
  | EmptyString => EmptyString
  | String c s' => if p c then drop_while p s' else s
  end.

Definition is_slash (c : ascii) : bool := Ascii.eqb c "/" || Ascii.eqb c "\".

Definition ends_authority (c : ascii) : bool :=
  is_slash c || Ascii.eqb c "?" || Ascii.eqb c "#".

Definition ends_path (c : ascii) : bool := Ascii.eqb c "?" || Ascii.eqb c "#".

Definition is_special (scheme : string) : bool :=
  existsb (String.eqb scheme) ["http"; "https"; "ws"; "wss"; "ftp"].

Definition default_port (scheme : string) : string :=
  if String.eqb scheme "http" || String.eqb scheme "ws" then "80"
  else if String.eqb scheme "https" || String.eqb scheme "wss" then "443"
  else if String.eqb scheme "ftp" then "21"
  else "".

(** A port with its leading zeros removed, dropped when it is the default. *)
Definition normal_port (scheme digits : string) : string :=
  let d := drop_while (Ascii.eqb "0") digits in
  let d := if String.eqb d "" then (if String.eqb digits "" then "" else "0") else d in
  if String.eqb d (default_port scheme) then "" else d.

Definition with_port (h p : string) : string :=
  if String.eqb p "" then h else h ++ ":" ++ p.

Definition serialize (special authority : bool)
    (scheme h p path query fragment : string) : URL :=
  let hostport := with_port h p in
  {| protocol := scheme ++ ":";
     hostname := h;
     url_port := p;
     pathname := path;
     search := if String.eqb query "?" then "" else query;
     hash := if String.eqb fragment "#" then "" else fragment;
     origin := if special then scheme ++ "://" ++ hostport else "null";
     href := scheme ++ ":" ++ (if authority then "//" ++ hostport else "")
             ++ path ++ query ++ fragment |}.

(** Host and port of an authority whose user information is removed. *)
Definition split_host_port (authority : string) : option (string * string) :=
  let hostport :=
    match after_last "@" authority with
    | Some t => t
    | None => authority
    end in
  match before_last ":" hostport, after_last ":" hostport with
  | Some h, Some p => if string_forallb is_digit p then Some (h, p) else None
  | _, _ => Some (hostport, EmptyString)
  end.

Definition reference_new_URL (s : string) : option URL :=
  let (scheme0, rest) := split_at (Ascii.eqb ":") s in
  match scheme0, rest with
  | String c _, String _ after =>
      if is_alpha c && string_forallb is_scheme_char scheme0 then
        let scheme := lower scheme0 in
        let special := is_special scheme in
        let slashes := special || startsWith after "//" in
        if slashes then
          let after :=
            if special then drop_while is_slash after
            else substring 2 (String.length after) after in
          let (authority, tail) := split_at
                (if special then ends_authority else
                   fun c => Ascii.eqb c "/" || ends_path c) after in
          let (path, tail) := split_at ends_path tail in
          let (query, fragment) := split_at (Ascii.eqb "#") tail in
          match split_host_port authority with
          | Some (h, p) =>
              if special && String.eqb h "" then None
              else
                Some (serialize special true scheme
                        (if special then lower h else h)
                        (normal_port scheme p)
                        (if special && String.eqb path "" then "/" else path)
                        query fragment)
          | None => None
          end
        else
          let (path, tail) := split_at ends_path after in
          let (query, fragment) := split_at (Ascii.eqb "#") tail in
          Some (serialize false false scheme "" "" path query fragment)
      else None
  | _, _ => None
  end.

(** Appending a pair whose key and value need no encoding. *)
Definition reference_append (u : URL) (k v : string) : URL :=
  let query :=
    (if String.eqb (search u) "" then "?" else search u ++ "&")
    ++ k ++ "=" ++ v in
  {| protocol := protocol u;
     hostname := hostname u;
     url_port := url_port u;
     pathname := pathname u;
     search := query;
     hash := hash u;
     origin := origin u;
     href := protocol u
             ++ (if String.eqb (hostname u) "" then ""
                 else "//" ++ with_port (hostname u) (url_port u))
             ++ pathname u ++ query ++ hash u |}.

Definition reference_URL : URLApi :=
  {| new_URL := reference_new_URL;
     searchParams_append := reference_append |}.

(** [btoa] on strings of bytes: standard base64 with padding. *)
Definition base64_alphabet : string :=
  "ABCDEFGHIJKLMNOPQRSTUVWXYZabcdefghijklmnopqrstuvwxyz0123456789+/".

Definition base64_char (n : nat) : ascii :=
  match String.get n base64_alphabet with
  | Some c => c
  | None => "="%char
  end.

Fixpoint base64_bytes (l : list nat) : string :=
  match l with
  | [] => EmptyString
  | [a] =>
      String (base64_char (a / 4))
        (String (base64_char (a mod 4 * 16)) "==")
  | [a; b] =>
      String (base64_char (a / 4))
        (String (base64_char (a mod 4 * 16 + b / 16))
           (String (base64_char (b mod 16 * 4)) "="))
  | a :: b :: c :: rest =>
      String (base64_char (a / 4))
        (String (base64_char (a mod 4 * 16 + b / 16))
           (String (base64_char (b mod 16 * 4 + c / 64))
              (String (base64_char (c mod 64)) (base64_bytes rest))))
  end%nat.

Definition reference_Base64 : Base64 :=
  {| btoa := fun s => base64_bytes (map nat_of_ascii (list_ascii_of_string s)) |}.

(* ===================================================================== *)
(** * Data model                                                          *)
(* ===================================================================== *)

(** An egress target as stored in [proxyEndpoints]. *)
Record ProxyEndpoint : Type := mkProxy {
  host : string;
  port : Z;
  type : string;
  name : option string
}.

(** The object [getCurrentProxy] builds: the spread of the target (nothing
    when the slot is [undefined]), the gateway when gateways are configured,
    and the index. *)
Record CurrentProxy : Type := mkCurrentProxy {
  cp_proxy : option ProxyEndpoint;
  cp_gateway : option (option string);
  cp_index : jsnum
}.

(** The request body: [undefined] for GET, [JSON.stringify(data)] otherwise. *)
Inductive Body : Type :=
| BodyUndefined
| JSON_stringify (data : list (string * string))
| BodyRaw (s : string).

(** The request object of [buildRequest]. *)
Record Request : Type := mkRequest {
  url : string;
  method : string;
  headers : gmap string string;
  body : Body;
  cacheKey : string;
  proxyUrl : option (option CurrentProxy)
}.

(** The per-call options: every key may be absent.  The keys listed are the
    ones [buildRequest] reads or that its final spread copies over a field
    of the request. *)
Record Options : Type := mkOptions {
  opt_headers : option (gmap string string);
  opt_url : option string;
  opt_method : option string;
  opt_body : option Body;
  opt_cacheKey : option string
}.

Definition no_options : Options := mkOptions None None None None None.

(** What [executeRequest] returns. *)
Record Response : Type := mkResponse {
  ok : bool;
  status : Z;
  statusText : string;
  resp_headers : gmap string string;
  data : jsval;
  latency : Z;
  timestamp : Z
}.

(** Thrown values. *)
Inductive exn : Type :=
| TypeError (msg : string)
| Error (msg : string)
| RequestFailure (error : string) (err_latency err_timestamp : Z)
                 (err_request : Request)
| ThrownUndefined.

Inductive completion (A : Type) : Type :=
| Normal (a : A)
| Throw (e : exn).
Arguments Normal {A} a.
Arguments Throw {A} e.

(** Interceptors are closures.  The two that [createAPIGatewayForURL]
    installs close over the controller and are kept by name; any other is a
    function of the object it is handed. *)
Inductive RequestInterceptor : Type :=
| ProxyRoutingInterceptor
| UserRequestInterceptor (f : Request -> completion Request).

Inductive ResponseInterceptor : Type :=
| StatsInterceptor
| UserResponseInterceptor (f : Response -> completion Response).

Record Interceptors : Type := mkInterceptors {
  request : list RequestInterceptor;
  response : list ResponseInterceptor
}.

Record RateLimitConfig : Type := mkRateLimitConfig {
  rl_maxRequests : option Z;
  rl_windowMs : option Z
}.

Record CacheConfig : Type := mkCacheConfig {
  cc_ttl : option Z;
  cc_maxSize : option Z
}.

Record Authentication : Type := mkAuth {
  auth_type : string;
  auth_token : string;
  auth_location : string;
  auth_key : option string;
  auth_value : string;
  auth_username : string;
  auth_password : string;
  auth_accessToken : string
}.

(** A configuration object as a caller or a template writes it: every key
    optional.  ([transformers] is stored and never read; it is left out.) *)
Record Config : Type := mkConfig {
  cfg_timeout : option Z;
  cfg_retries : option Z;
  cfg_headers : option (gmap string string);
  cfg_rateLimit : option RateLimitConfig;
  cfg_caching : option CacheConfig;
  cfg_authentication : option Authentication;
  cfg_interceptors : option Interceptors
}.

Definition empty_config : Config :=
  mkConfig None None None None None None None.

(** [this.config] of a gateway client, after the constructor's defaults. *)
Record GatewayConfig : Type := mkGatewayConfig {
  timeout : Z;
  retries : Z;
  config_headers : gmap string string;
  rateLimit : option RateLimitConfig;
  caching : option CacheConfig;
  authentication : option Authentication;
  interceptors : Interceptors
}.

Record Metrics : Type := mkMetrics {
  requests : Z;
  errors : Z;
  latencies : list Z;
  lastRequest : option Z
}.

Record RateLimiter : Type := mkRateLimiter {
  maxRequests : Z;
  windowMs : Z
}.

Record CacheEntry : Type := mkCacheEntry {
  entry_data : jsval;
  entry_timestamp : Z
}.

(** [CacheManager]: [cache] is a [Map]; its keys iterate in the order of
    their first insertion. *)
Record CacheManager : Type := mkCacheManager {
  ttl : Z;
  maxSize : Z;
  cache : list (string * CacheEntry)
}.

Record Endpoint : Type := mkEndpoint {
  ep_path : string;
  ep_methods : list string;
  ep_created : Z
}.

Record APIGateway : Type := mkAPIGateway {
  baseUrl : string;
  config : GatewayConfig;
  endpoints : list (string * Endpoint);
  metrics : Metrics;
  rateLimiter : option RateLimiter;
  gw_cache : option CacheManager
}.

(** Gateway clients are objects: the store maps a location to the client
    that lives there, [next] is the first location never handed out. *)
Record Store : Type := mkStore {
  objs : gmap nat APIGateway;
  next : nat
}.

Record APIGatewayFactory : Type := mkFactory {
  gateways : gmap string nat;
  templates : gmap string Config
}.

Record Stats : Type := mkStats {
  totalRequests : Z;
  rotations : Z;
  startTime : Z
}.

Record ProxyManager : Type := mkProxyManager {
  proxyEndpoints : list ProxyEndpoint;
  currentProxyIndex : jsnum;
  isEnabled : bool;
  rotationMode : string;
  requestCount : Z;
  rotateEveryNRequests : Z;
  apiGateways : list string;
  gatewayFactory : APIGatewayFactory;
  activeGateways : gmap string nat;
  autoRotateMode : bool;
  autoRotateWhitelist : list string;
  autoRotateBlacklist : list string;
  tabProxyMap : gmap Z string;
  autoCreateGateways : bool;
  stats : Stats
}.

(* ===================================================================== *)
(** * Field updates                                                       *)
(* ===================================================================== *)

(** [this.f = v] on the controller, one definition per field that is
    assigned or that a statement below varies. *)
Definition set_proxyEndpoints (v : list ProxyEndpoint) (pm : ProxyManager) : ProxyManager :=
  mkProxyManager
    v (currentProxyIndex pm) (isEnabled pm) (rotationMode pm)
    (requestCount pm) (rotateEveryNRequests pm) (apiGateways pm)
    (gatewayFactory pm) (activeGateways pm) (autoRotateMode pm)
    (autoRotateWhitelist pm) (autoRotateBlacklist pm) (tabProxyMap pm)
    (autoCreateGateways pm) (stats pm).

Definition set_currentProxyIndex (v : jsnum) (pm : ProxyManager) : ProxyManager :=
  mkProxyManager
    (proxyEndpoints pm) v (isEnabled pm) (rotationMode pm) (requestCount
    pm) (rotateEveryNRequests pm) (apiGateways pm) (gatewayFactory pm)
    (activeGateways pm) (autoRotateMode pm) (autoRotateWhitelist pm)
    (autoRotateBlacklist pm) (tabProxyMap pm) (autoCreateGateways pm)
    (stats pm).

Definition set_isEnabled (v : bool) (pm : ProxyManager) : ProxyManager :=
  mkProxyManager
    (proxyEndpoints pm) (currentProxyIndex pm) v (rotationMode pm)
    (requestCount pm) (rotateEveryNRequests pm) (apiGateways pm)
    (gatewayFactory pm) (activeGateways pm) (autoRotateMode pm)
    (autoRotateWhitelist pm) (autoRotateBlacklist pm) (tabProxyMap pm)
    (autoCreateGateways pm) (stats pm).

Definition set_rotationMode (v : string) (pm : ProxyManager) : ProxyManager :=
  mkProxyManager
    (proxyEndpoints pm) (currentProxyIndex pm) (isEnabled pm) v
    (requestCount pm) (rotateEveryNRequests pm) (apiGateways pm)
    (gatewayFactory pm) (activeGateways pm) (autoRotateMode pm)
    (autoRotateWhitelist pm) (autoRotateBlacklist pm) (tabProxyMap pm)
    (autoCreateGateways pm) (stats pm).

Definition set_requestCount (v : Z) (pm : ProxyManager) : ProxyManager :=
  mkProxyManager
    (proxyEndpoints pm) (currentProxyIndex pm) (isEnabled pm)
    (rotationMode pm) v (rotateEveryNRequests pm) (apiGateways pm)
    (gatewayFactory pm) (activeGateways pm) (autoRotateMode pm)
    (autoRotateWhitelist pm) (autoRotateBlacklist pm) (tabProxyMap pm)
    (autoCreateGateways pm) (stats pm).

Definition set_rotateEveryNRequests (v : Z) (pm : ProxyManager) : ProxyManager :=
  mkProxyManager
    (proxyEndpoints pm) (currentProxyIndex pm) (isEnabled pm)
    (rotationMode pm) (requestCount pm) v (apiGateways pm)
    (gatewayFactory pm) (activeGateways pm) (autoRotateMode pm)
    (autoRotateWhitelist pm) (autoRotateBlacklist pm) (tabProxyMap pm)
    (autoCreateGateways pm) (stats pm).

Definition set_gatewayFactory (v : APIGatewayFactory) (pm : ProxyManager) : ProxyManager :=
  mkProxyManager
    (proxyEndpoints pm) (currentProxyIndex pm) (isEnabled pm)
    (rotationMode pm) (requestCount pm) (rotateEveryNRequests pm)
    (apiGateways pm) v (activeGateways pm) (autoRotateMode pm)
    (autoRotateWhitelist pm) (autoRotateBlacklist pm) (tabProxyMap pm)
    (autoCreateGateways pm) (stats pm).

Definition set_activeGateways (v : gmap string nat) (pm : ProxyManager) : ProxyManager :=
  mkProxyManager
    (proxyEndpoints pm) (currentProxyIndex pm) (isEnabled pm)
    (rotationMode pm) (requestCount pm) (rotateEveryNRequests pm)
    (apiGateways pm) (gatewayFactory pm) v (autoRotateMode pm)
    (autoRotateWhitelist pm) (autoRotateBlacklist pm) (tabProxyMap pm)
    (autoCreateGateways pm) (stats pm).

Definition set_autoRotateMode (v : bool) (pm : ProxyManager) : ProxyManager :=
  mkProxyManager
    (proxyEndpoints pm) (currentProxyIndex pm) (isEnabled pm)
    (rotationMode pm) (requestCount pm) (rotateEveryNRequests pm)
    (apiGateways pm) (gatewayFactory pm) (activeGateways pm) v
    (autoRotateWhitelist pm) (autoRotateBlacklist pm) (tabProxyMap pm)
    (autoCreateGateways pm) (stats pm).

Definition set_autoRotateWhitelist (v : list string) (pm : ProxyManager) : ProxyManager :=
  mkProxyManager
    (proxyEndpoints pm) (currentProxyIndex pm) (isEnabled pm)
    (rotationMode pm) (requestCount pm) (rotateEveryNRequests pm)
    (apiGateways pm) (gatewayFactory pm) (activeGateways pm)
    (autoRotateMode pm) v (autoRotateBlacklist pm) (tabProxyMap pm)
    (autoCreateGateways pm) (stats pm).

Definition set_autoRotateBlacklist (v : list string) (pm : ProxyManager) : ProxyManager :=
  mkProxyManager
    (proxyEndpoints pm) (currentProxyIndex pm) (isEnabled pm)
    (rotationMode pm) (requestCount pm) (rotateEveryNRequests pm)
    (apiGateways pm) (gatewayFactory pm) (activeGateways pm)
    (autoRotateMode pm) (autoRotateWhitelist pm) v (tabProxyMap pm)
    (autoCreateGateways pm) (stats pm).

Definition set_tabProxyMap (v : gmap Z string) (pm : ProxyManager) : ProxyManager :=
  mkProxyManager
    (proxyEndpoints pm) (currentProxyIndex pm) (isEnabled pm)
    (rotationMode pm) (requestCount pm) (rotateEveryNRequests pm)
    (apiGateways pm) (gatewayFactory pm) (activeGateways pm)
    (autoRotateMode pm) (autoRotateWhitelist pm) (autoRotateBlacklist
    pm) v (autoCreateGateways pm) (stats pm).

Definition set_stats (v : Stats) (pm : ProxyManager) : ProxyManager :=
  mkProxyManager
    (proxyEndpoints pm) (currentProxyIndex pm) (isEnabled pm)
    (rotationMode pm) (requestCount pm) (rotateEveryNRequests pm)
    (apiGateways pm) (gatewayFactory pm) (activeGateways pm)
    (autoRotateMode pm) (autoRotateWhitelist pm) (autoRotateBlacklist
    pm) (tabProxyMap pm) (autoCreateGateways pm) v.

(* ===================================================================== *)
(** * Rotation controller: [ProxyManager]                                 *)
(* ===================================================================== *)

(** [arr[i]]: [undefined] outside the array and at NaN. *)
Definition array_get {A : Type} (arr : list A) (i : jsnum) : option A :=
  match i with
  | JNum z => if z <? 0 then None else arr !! Z.to_nat z
  | JNaN => None
  end.

Definition array_length {A : Type} (arr : list A) : jsnum :=
  JNum (Z.of_nat (length arr)).

(** The factory's constructor registers the three built-in templates. *)
Definition registerTemplate (name : string) (c : Config)
    (f : APIGatewayFactory) : APIGatewayFactory :=
  mkFactory (gateways f) (<[name := c]> (templates f)).

Definition APIGatewayFactory_new : APIGatewayFactory :=
  registerTemplate "websocket"
    (mkConfig (Some 10000) (Some 5) None None None None None)
    (registerTemplate "graphql"
       (mkConfig (Some 60000) (Some 2)
          (Some {[ "Content-Type" := "application/json" ]}) None None None None)
       (registerTemplate "rest"
          (mkConfig (Some 30000) (Some 3)
             (Some {[ "Accept" := "application/json" ]}) None
             (Some (mkCacheConfig (Some 300000) (Some 50))) None None)
          (mkFactory ∅ ∅))).

(** [new ProxyManager()]; [now] is the [Date.now()] of the constructor. *)
Definition ProxyManager_new (now : Z) : ProxyManager :=
  {| proxyEndpoints := [];
     currentProxyIndex := JNum 0;
     isEnabled := false;
     rotationMode := "sequential";
     requestCount := 0;
     rotateEveryNRequests := 1;
     apiGateways := [];
     gatewayFactory := APIGatewayFactory_new;
     activeGateways := ∅;
     autoRotateMode := false;
     autoRotateWhitelist := [];
     autoRotateBlacklist :=
       ["localhost"; "127.0.0.1"; "chrome://"; "chrome-extension://"];
     tabProxyMap := ∅;
     autoCreateGateways := false;
     stats := {| totalRequests := 0; rotations := 0; startTime := now |} |}.

Definition stats_rotations_incr (s : Stats) : Stats :=
  mkStats (totalRequests s) (rotations s + 1) (startTime s).

Definition stats_totalRequests_incr (s : Stats) : Stats :=
  mkStats (totalRequests s + 1) (rotations s) (startTime s).

(** [rotateProxy()]; [rnd] is the draw of [Math.random()] (read only under
    the random policy). *)
Definition rotateProxy (rnd : Z) (pm : ProxyManager) : ProxyManager :=
  let pm1 :=
    if String.eqb (rotationMode pm) "sequential" then
      set_currentProxyIndex
        (js_rem (js_add (currentProxyIndex pm) (JNum 1))
                (array_length (proxyEndpoints pm))) pm
    else if String.eqb (rotationMode pm) "random" then
      set_currentProxyIndex
        (floor_random_times rnd (Z.of_nat (length (proxyEndpoints pm)))) pm
    else pm in
  set_stats (stats_rotations_incr (stats pm1)) pm1.

(** [getCurrentProxy()]: [None] is [null]. *)
Definition getCurrentProxy (pm : ProxyManager) : option CurrentProxy :=
  if (length (proxyEndpoints pm) =? 0)%nat then None
  else
    let proxy := array_get (proxyEndpoints pm) (currentProxyIndex pm) in
    if (0 <? length (apiGateways pm))%nat then
      let gateway :=
        array_get (apiGateways pm)
          (js_rem (currentProxyIndex pm) (array_length (apiGateways pm))) in
      Some (mkCurrentProxy proxy (Some gateway) (currentProxyIndex pm))
    else
      Some (mkCurrentProxy proxy None (currentProxyIndex pm)).

Definition enable (pm : ProxyManager) : ProxyManager := set_isEnabled true pm.
Definition disable (pm : ProxyManager) : ProxyManager := set_isEnabled false pm.

(** [handleRequest()] *)
Definition handleRequest (rnd : Z) (pm : ProxyManager) : ProxyManager :=
  if negb (isEnabled pm) then pm
  else
    let pm1 := set_requestCount (requestCount pm + 1) pm in
    let pm2 := set_stats (stats_totalRequests_incr (stats pm1)) pm1 in
    if requestCount pm2 >=? rotateEveryNRequests pm2 then
      set_requestCount 0 (rotateProxy rnd pm2)
    else pm2.

(** A run of observed requests, one draw of [Math.random()] for each. *)
Definition handleRequests (draws : list Z) (pm : ProxyManager) : ProxyManager :=
  fold_left (fun st rnd => handleRequest rnd st) draws pm.

(** [updateProxyEndpoints(endpoints)] *)
Definition updateProxyEndpoints (endpoints : list ProxyEndpoint)
    (pm : ProxyManager) : ProxyManager :=
  let pm1 := set_proxyEndpoints endpoints pm in
  if js_ge (currentProxyIndex pm1) (array_length endpoints) then
    set_currentProxyIndex (JNum 0) pm1
  else pm1.

(** The handlers of the [updateRotationMode] and [updateRotationFrequency]
    messages assign the fields directly. *)
Definition updateRotationMode (mode : string) (pm : ProxyManager) :=
  set_rotationMode mode pm.

Definition updateRotationFrequency (frequency : Z) (pm : ProxyManager) :=
  set_rotateEveryNRequests frequency pm.

(** The invariant of the design document: a non-empty target list has the
    current index below its length. *)
Definition index_in_range (pm : ProxyManager) : bool :=
  match proxyEndpoints pm with
  | [] => true
  | _ :: _ => js_lt (currentProxyIndex pm) (array_length (proxyEndpoints pm))
  end.

(* ===================================================================== *)
(** * Auto-rotation eligibility                                           *)
(* ===================================================================== *)

(** The body of the [try] in [shouldAutoRotate(url)]. *)
Definition shouldAutoRotate_try `{URLApi} (pm : ProxyManager) (url : string)
    : completion bool :=
  match new_URL url with
  | None => Throw (TypeError "Invalid URL")
  | Some parsedUrl =>
      let domain := hostname parsedUrl in
      let protocol := protocol parsedUrl in
      if negb (startsWith protocol "http") then Normal false
      else if existsb (fun blacklisted =>
                         includes domain blacklisted || includes url blacklisted)
                      (autoRotateBlacklist pm)
      then Normal false
      else if (length (autoRotateWhitelist pm) =? 0)%nat then Normal true
      else if existsb (fun whitelisted => includes domain whitelisted)
                      (autoRotateWhitelist pm)
      then Normal true
      else Normal false
  end.

(** [shouldAutoRotate(url)]: the [catch] turns every exception into
    [false]. *)
Definition shouldAutoRotate `{URLApi} (pm : ProxyManager) (url : string) : bool :=
  match shouldAutoRotate_try pm url with
  | Normal b => b
  | Throw _ => false
  end.

(** [addToWhitelist(domain)] *)
Definition addToWhitelist (domain : string) (pm : ProxyManager) : ProxyManager :=
  if existsb (String.eqb domain) (autoRotateWhitelist pm) then pm
  else set_autoRotateWhitelist (autoRotateWhitelist pm ++ [domain]) pm.

(* ===================================================================== *)
(** * Insertion-ordered maps                                              *)
(* ===================================================================== *)

(** A JavaScript [Map] as the list of its entries in iteration order, which
    is the order in which the keys were first inserted. *)
Module OMap.
Section Ops.
Context {V : Type}.

(** No key occurs twice. *)
Definition wf (m : list (string * V)) : Prop := NoDup (map fst m).

Fixpoint get (k : string) (m : list (string * V)) : option V :=
  match m with
  | [] => None
  | (k', v) :: m' => if String.eqb k k' then Some v else get k m'
  end.

Definition has (k : string) (m : list (string * V)) : bool :=
  match get k m with Some _ => true | None => false end.

(** [m.set(k, v)]: a present key keeps its place, a new one goes last. *)
Fixpoint set (k : string) (v : V) (m : list (string * V))
    : list (string * V) :=
  match m with
  | [] => [(k, v)]
  | (k', v') :: m' =>
      if String.eqb k k' then (k, v) :: m' else (k', v') :: set k v m'
  end.

Fixpoint delete (k : string) (m : list (string * V))
    : list (string * V) :=
  match m with
  | [] => []
  | (k', v') :: m' =>
      if String.eqb k k' then m' else (k', v') :: delete k m'
  end.

Definition size (m : list (string * V)) : Z := Z.of_nat (length m).

(** [m.keys().next().value]: [undefined] on an empty map. *)
Definition first_key (m : list (string * V)) : option string :=
  match m with
  | [] => None
  | (k, _) :: _ => Some k
  end.
End Ops.
End OMap.

(* ===================================================================== *)
(** * [CacheManager] and [RateLimiter]                                    *)
(* ===================================================================== *)

Definition CacheManager_new (c : CacheConfig) : CacheManager :=
  {| ttl := num_or (cc_ttl c) 300000;
     maxSize := num_or (cc_maxSize c) 100;
     cache := [] |}.

Definition set_cache (entries : list (string * CacheEntry))
    (cm : CacheManager) : CacheManager :=
  mkCacheManager (ttl cm) (maxSize cm) entries.

(** [get(key)] at time [now]; the result [VNull] is [null]. *)
Definition CacheManager_get (now : Z) (key : string) (cm : CacheManager)
    : jsval * CacheManager :=
  match OMap.get key (cache cm) with
  | None => (VNull, cm)
  | Some entry =>
      if now - entry_timestamp entry >? ttl cm then
        (VNull, set_cache (OMap.delete key (cache cm)) cm)
      else (entry_data entry, cm)
  end.

(** [set(key, data)] at time [now].  Deleting the [undefined] first key of
    an empty map deletes nothing. *)
Definition CacheManager_set (now : Z) (key : string) (v : jsval)
    (cm : CacheManager) : CacheManager :=
  let entries :=
    if OMap.size (cache cm) >=? maxSize cm then
      match OMap.first_key (cache cm) with
      | Some firstKey => OMap.delete firstKey (cache cm)
      | None => cache cm
      end
    else cache cm in
  set_cache (OMap.set key (mkCacheEntry v now) entries) cm.

Definition CacheManager_clear (cm : CacheManager) : CacheManager :=
  set_cache [] cm.

Definition RateLimiter_new (c : RateLimitConfig) : RateLimiter :=
  {| maxRequests := num_or (rl_maxRequests c) 10;
     windowMs := num_or (rl_windowMs c) 1000 |}.

(* ===================================================================== *)
(** * Gateway client: [APIGateway]                                        *)
(* ===================================================================== *)

(** [s.replace(/\/$/, '')] *)
Fixpoint strip_trailing_slash (s : string) : string :=
  match s with
  | EmptyString => EmptyString
  | String c EmptyString => if Ascii.eqb c "/" then EmptyString else s
  | String c s' => String c (strip_trailing_slash s')
  end.

(** [normalizeUrl(url)] *)
Definition normalizeUrl `{URLApi} (u : string) : string :=
  match new_URL u with
  | Some parsed => origin parsed ++ strip_trailing_slash (pathname parsed)
  | None => if startsWith u "/" then u else "/" ++ u
  end.

(** [normalizePath(path)] *)
Definition normalizePath (path : string) : string :=
  let path := if negb (startsWith path "/") then "/" ++ path else path in
  let stripped := strip_trailing_slash path in
  if String.eqb stripped "" then "/" else stripped.

(** [new APIGateway(baseUrl, config)].  The constructor keeps the headers
    and interceptors objects of [config] by reference.  Nothing ever writes
    to a headers object of a configuration.  The two interceptor lists are
    written to, by [addRequestInterceptor] and [addResponseInterceptor]:
    clients built from one interceptors object (that of a caller's
    configuration used twice, or of a template) share the two lists, so a
    push on one of them shows in the others.  The store below holds each
    client's lists by value, as they are when the client is built and as
    its own pushes extend them; what a push does to the lists of another
    client is not in the model.  Where a theorem below speaks of the other
    clients of the store after a push, it does so up to their interceptor
    lists ([forget_interceptors]). *)
Definition APIGateway_new `{URLApi} (base : string) (c : Config) : APIGateway :=
  {| baseUrl := normalizeUrl base;
     config :=
       {| timeout := num_or (cfg_timeout c) 30000;
          retries := num_or (cfg_retries c) 3;
          config_headers := default ∅ (cfg_headers c);
          rateLimit := cfg_rateLimit c;
          caching := cfg_caching c;
          authentication := cfg_authentication c;
          interceptors := default (mkInterceptors [] []) (cfg_interceptors c) |};
     endpoints := [];
     metrics := {| requests := 0; errors := 0; latencies := []; lastRequest := None |};
     rateLimiter := RateLimiter_new <$> cfg_rateLimit c;
     gw_cache := CacheManager_new <$> cfg_caching c |}.

Definition set_config (c : GatewayConfig) (g : APIGateway) : APIGateway :=
  mkAPIGateway (baseUrl g) c (endpoints g) (metrics g) (rateLimiter g) (gw_cache g).

Definition set_metrics (m : Metrics) (g : APIGateway) : APIGateway :=
  mkAPIGateway (baseUrl g) (config g) (endpoints g) m (rateLimiter g) (gw_cache g).

Definition set_gw_cache (c : option CacheManager) (g : APIGateway) : APIGateway :=
  mkAPIGateway (baseUrl g) (config g) (endpoints g) (metrics g) (rateLimiter g) c.

Definition set_interceptors (i : Interceptors) (c : GatewayConfig) : GatewayConfig :=
  mkGatewayConfig (timeout c) (retries c) (config_headers c) (rateLimit c)
    (caching c) (authentication c) i.

(** [addRequestInterceptor] and [addResponseInterceptor] push onto the
    lists of [this.config.interceptors]. *)
Definition addRequestInterceptor (i : RequestInterceptor) (g : APIGateway)
    : APIGateway :=
  let ics := interceptors (config g) in
  set_config (set_interceptors (mkInterceptors (request ics ++ [i]) (response ics))
                (config g)) g.

Definition addResponseInterceptor (i : ResponseInterceptor) (g : APIGateway)
    : APIGateway :=
  let ics := interceptors (config g) in
  set_config (set_interceptors (mkInterceptors (request ics) (response ics ++ [i]))
                (config g)) g.

(** [applyAuthentication(headers)] for [this.config.authentication = auth] *)
Definition applyAuthentication `{Base64} (auth : Authentication)
    (h : gmap string string) : gmap string string :=
  if String.eqb (auth_type auth) "bearer" then
    <["Authorization" := "Bearer " ++ auth_token auth]> h
  else if String.eqb (auth_type auth) "apiKey" then
    if String.eqb (auth_location auth) "header" then
      <[default "X-API-Key" (auth_key auth) := auth_value auth]> h
    else h
  else if String.eqb (auth_type auth) "basic" then
    <["Authorization" :=
        "Basic " ++ btoa (auth_username auth ++ ":" ++ auth_password auth)]> h
  else if String.eqb (auth_type auth) "oauth2" then
    <["Authorization" := "Bearer " ++ auth_accessToken auth]> h
  else h.

(** The trailing [...options] of the request literal: a key of [options]
    replaces the field of the same name. *)
Definition spread_options (o : Options) (r : Request) : Request :=
  {| url := default (url r) (opt_url o);
     method := default (method r) (opt_method o);
     headers := default (headers r) (opt_headers o);
     body := default (body r) (opt_body o);
     cacheKey := default (cacheKey r) (opt_cacheKey o);
     proxyUrl := proxyUrl r |}.

(** [buildRequest(method, path, data, options)]; [data] and [options] are
    objects, as [createHandler] guarantees by its defaults. *)
Definition buildRequest `{URLApi} `{Base64} (g : APIGateway)
    (meth path : string) (payload : list (string * string)) (o : Options)
    : completion Request :=
  match new_URL (baseUrl g ++ normalizePath path) with
  | None => Throw (TypeError "Invalid URL")
  | Some u0 =>
      let u :=
        if String.eqb meth "GET" then
          fold_left (fun u kv => searchParams_append u (fst kv) (snd kv))
                    payload u0
        else u0 in
      let h : gmap string string :=
        <["Content-Type" := "application/json"]>
          (default ∅ (opt_headers o) ∪ config_headers (config g)) in
      let h :=
        match authentication (config g) with
        | Some auth => applyAuthentication auth h
        | None => h
        end in
      Normal (spread_options o
                {| url := href u;
                   method := meth;
                   headers := h;
                   body := if String.eqb meth "GET" then BodyUndefined
                           else JSON_stringify payload;
                   cacheKey := meth ++ ":" ++ href u;
                   proxyUrl := None |})
  end.

(** [updateMetrics(response)] *)
Definition updateMetrics (r : Response) (g : APIGateway) : APIGateway :=
  let m := metrics g in
  let l := (latencies m ++ [latency r])%list in
  set_metrics
    {| requests := requests m + 1;
       errors := errors m;
       latencies := if (100 <? length l)%nat then tail l else l;
       lastRequest := Some (timestamp r) |} g.

(** ** The request handler

    What a handler does to the outside is recorded as a trace: admission by
    the rate limiter, each call of [executeRequest] with the number of the
    attempt that made it, and each [delay]. *)
Inductive Event : Type :=
| Acquire
| Execute (attempt : Z) (r : Request)
| Delay (ms : Z).

(** The objects a handler can change, and its trace so far. *)
Record Run : Type := mkRun {
  gw : APIGateway;
  ctl : ProxyManager;
  trace : list Event
}.

Definition log (e : Event) (st : Run) : Run :=
  mkRun (gw st) (ctl st) (trace st ++ [e])%list.

(** [executeRequest] is the network: [net attempt request] is what the call
    made by the given attempt returns or throws. *)
Definition Network : Type := Z -> Request -> completion Response.

(** [for (const interceptor of this.config.interceptors.request)
       await interceptor(request)] *)
Fixpoint runRequestInterceptors (l : list RequestInterceptor)
    (pm : ProxyManager) (r : Request) : completion Request :=
  match l with
  | [] => Normal r
  | ProxyRoutingInterceptor :: l' =>
      let r' :=
        if isEnabled pm && (0 <? length (proxyEndpoints pm))%nat then
          mkRequest (url r) (method r) (headers r) (body r) (cacheKey r)
                    (Some (getCurrentProxy pm))
        else r in
      runRequestInterceptors l' pm r'
  | UserRequestInterceptor f :: l' =>
      match f r with
      | Normal r' => runRequestInterceptors l' pm r'
      | Throw e => Throw e
      end
  end.

(** [for (const interceptor of this.config.interceptors.response)
       await interceptor(response)]; what an interceptor did to the
    controller stays done when a later one throws. *)
Fixpoint runResponseInterceptors (l : list ResponseInterceptor)
    (pm : ProxyManager) (r : Response) : completion Response * ProxyManager :=
  match l with
  | [] => (Normal r, pm)
  | StatsInterceptor :: l' =>
      runResponseInterceptors l'
        (set_stats (stats_totalRequests_incr (stats pm)) pm) r
  | UserResponseInterceptor f :: l' =>
      match f r with
      | Normal r' => runResponseInterceptors l' pm r'
      | Throw e => (Throw e, pm)
      end
  end.

Definition errors_incr (g : APIGateway) : APIGateway :=
  let m := metrics g in
  set_metrics (mkMetrics (requests m) (errors m + 1) (latencies m) (lastRequest m)) g.

Definition requests_incr (g : APIGateway) : APIGateway :=
  let m := metrics g in
  set_metrics (mkMetrics (requests m + 1) (errors m) (latencies m) (lastRequest m)) g.

(** The body of the [try] of one attempt: [inr] is its [return], [inl] the
    exception its [catch] receives.  [now] is the [Date.now()] of
    [cache.set]. *)
Definition attempt_try (net : Network) (now : Z) (meth : string)
    (rq : Request) (attempt : Z) (st : Run) : (exn * Run) + (jsval * Run) :=
  let st := log (Execute attempt rq) st in
  match net attempt rq with
  | Throw e => inl (e, st)
  | Normal resp =>
      match runResponseInterceptors
              (response (interceptors (config (gw st)))) (ctl st) resp with
      | (Throw e, pm) => inl (e, mkRun (gw st) pm (trace st))
      | (Normal resp, pm) =>
          let g := gw st in
          let g :=
            match gw_cache g with
            | Some cm =>
                if String.eqb meth "GET" && ok resp then
                  set_gw_cache
                    (Some (CacheManager_set now (cacheKey rq) (data resp) cm)) g
                else g
            | None => g
            end in
          inr (data resp, mkRun (updateMetrics resp g) pm (trace st))
      end
  end.

(** [for (let attempt = 0; attempt <= this.config.retries; attempt++)],
    entered at [attempt] with [lastError]; [m] is [this.config.retries],
    which nothing in the loop assigns.  After the loop: [errors++] and
    [throw lastError]. *)
Equations? retryLoop (net : Network) (now : Z) (meth : string) (rq : Request)
    (m : Z) (attempt : Z) (lastError : exn) (st : Run)
    : completion jsval * Run
    by wf (Z.to_nat (m + 1 - attempt)) lt :=
  retryLoop net now meth rq m attempt lastError st
    with Z_le_gt_dec attempt m => {
    | right _ :=
        (Throw lastError, mkRun (errors_incr (gw st)) (ctl st) (trace st));
    | left _ with attempt_try net now meth rq attempt st => {
      | inr (v, st') := (Normal v, st');
      | inl (e, st') :=
          retryLoop net now meth rq m (attempt + 1) e
            (if attempt <? m then log (Delay (2 ^ attempt * 1000)) st'
             else st') } }.
Proof. lia. Qed.

(** [if (this.cache && method === 'GET') cached = await
    this.cache.get(request.cacheKey)]: the value found ([VNull] when
    nothing is looked up) and the client after the lookup. *)
Definition lookup_cached (tget : Z) (meth : string) (rq : Request)
    (g : APIGateway) : jsval * APIGateway :=
  match gw_cache g with
  | Some cm =>
      if String.eqb meth "GET" then
        let '(v, cm') := CacheManager_get tget (cacheKey rq) cm in
        (v, set_gw_cache (Some cm') g)
      else (VNull, g)
  | None => (VNull, g)
  end.

(** [if (this.rateLimiter) await this.rateLimiter.acquire()], for a call
    of [acquire] that returns.  Whether it does is a matter of the limiter,
    modelled further down: it returns at once when [maxRequests] is at
    least 1, and never when it is negative.  [createHandler] is the handler
    of a client whose limiter, if it has one, admits ([limiter_admits]);
    the statements about handlers carry that hypothesis where they say
    that the handler returns or throws. *)
Definition admission (g : APIGateway) : list Event :=
  match rateLimiter g with
  | Some _ => [Acquire]
  | None => []
  end.

(** The handler [createHandler(method, path)] returns, applied to [data]
    and [options].  [tget] and [tset] are the [Date.now()] of the cache
    lookup and of the cache store. *)
Definition createHandler `{URLApi} `{Base64} (net : Network) (tget tset : Z)
    (meth path : string) (payload : list (string * string)) (o : Options)
    (g : APIGateway) (pm : ProxyManager) : completion jsval * Run :=
  match buildRequest g meth path payload o with
  | Throw e => (Throw e, mkRun g pm [])
  | Normal rq =>
      match runRequestInterceptors (request (interceptors (config g))) pm rq with
      | Throw e => (Throw e, mkRun g pm [])
      | Normal rq =>
          let tr := admission g in
          let '(cached, g) := lookup_cached tget meth rq g in
          if truthy cached then (Normal cached, mkRun (requests_incr g) pm tr)
          else
            retryLoop net tset meth rq (retries (config g)) 0 ThrownUndefined
              (mkRun g pm tr)
      end
  end.

(** ** Reading a trace *)

(** The attempts that called [executeRequest], and the waits, in order. *)
Definition attempts (tr : list Event) : list Z :=
  omap (fun e => match e with Execute i _ => Some i | _ => None end) tr.

Definition delays (tr : list Event) : list Z :=
  omap (fun e => match e with Delay ms => Some ms | _ => None end) tr.

(** Attempts [0] to [m], with a wait of [2^i * 1000] ms after each attempt
    [i] but the last. *)
Definition backoff_trace (rq : Request) (m : Z) : list Event :=
  (flat_map (fun i => [Execute i rq; Delay (2 ^ i * 1000)]) (seqZ 0 m)
   ++ [Execute m rq])%list.

(* ===================================================================== *)
(** * Gateway registry: [APIGatewayFactory]                               *)
(* ===================================================================== *)

Definition set_gateways (m : gmap string nat) (f : APIGatewayFactory)
    : APIGatewayFactory :=
  mkFactory m (templates f).

(** Allocation of a new client. *)
Definition alloc (g : APIGateway) (s : Store) : nat * Store :=
  (next s, mkStore (<[next s := g]> (objs s)) (S (next s))).

(** [create(url, config)]: the location of the client it returns, and the
    registry and the store it leaves. *)
Definition create `{URLApi} (u : string) (c : Config)
    (f : APIGatewayFactory) (s : Store)
    : completion (nat * APIGatewayFactory * Store) :=
  match new_URL u with
  | None => Throw (TypeError "Invalid URL")
  | Some parsed =>
      let normalizedUrl := origin parsed in
      match gateways f !! normalizedUrl with
      | Some l => Normal (l, f, s)
      | None =>
          let '(l, s') := alloc (APIGateway_new normalizedUrl c) s in
          Normal (l, set_gateways (<[normalizedUrl := l]> (gateways f)) f, s')
      end
  end.

(** One key of [{...template, ...overrides}]. *)
Definition override {A : Type} (over base : option A) : option A :=
  match over with
  | Some v => Some v
  | None => base
  end.

Definition merge_config (template overrides : Config) : Config :=
  {| cfg_timeout := override (cfg_timeout overrides) (cfg_timeout template);
     cfg_retries := override (cfg_retries overrides) (cfg_retries template);
     cfg_headers := override (cfg_headers overrides) (cfg_headers template);
     cfg_rateLimit := override (cfg_rateLimit overrides) (cfg_rateLimit template);
     cfg_caching := override (cfg_caching overrides) (cfg_caching template);
     cfg_authentication :=
       override (cfg_authentication overrides) (cfg_authentication template);
     cfg_interceptors :=
       override (cfg_interceptors overrides) (cfg_interceptors template) |}.

(** [createFromTemplate(url, templateName, overrides)] *)
Definition createFromTemplate `{URLApi} (u templateName : string)
    (overrides : Config) (f : APIGatewayFactory) (s : Store)
    : completion (nat * APIGatewayFactory * Store) :=
  match templates f !! templateName with
  | None => Throw (Error ("Template '" ++ templateName ++ "' not found"))
  | Some template => create u (merge_config template overrides) f s
  end.

(** [remove(url)]: whether an entry existed, and the registry left. *)
Definition remove `{URLApi} (u : string) (f : APIGatewayFactory)
    : completion (bool * APIGatewayFactory) :=
  match new_URL u with
  | None => Throw (TypeError "Invalid URL")
  | Some parsed =>
      Normal (bool_decide (is_Some (gateways f !! origin parsed)),
              set_gateways (delete (origin parsed) (gateways f)) f)
  end.

Definition clearAll (f : APIGatewayFactory) : APIGatewayFactory :=
  set_gateways ∅ f.

(** The registry names only clients that were allocated, and names no
    client under two origins. *)
Definition registry_ok (f : APIGatewayFactory) (s : Store) : Prop :=
  (forall o l, gateways f !! o = Some l -> (l < next s)%nat)
  /\ (forall o1 o2 l,
         gateways f !! o1 = Some l -> gateways f !! o2 = Some l -> o1 = o2).

(* ===================================================================== *)
(** * Gateway lifecycle in the controller                                 *)
(* ===================================================================== *)

(** [chrome.runtime.id] and [chrome.runtime.getURL] *)
Class ChromeRuntime : Type := {
  runtime_id : string;
  runtime_getURL : string -> string
}.

(** The object literals the gateway commands answer with. *)
Record CommandResult : Type := mkResult {
  success : bool;
  gateway : option nat;
  message : option string;
  error : option string
}.

(** The answer for an origin that the controller's directory holds. *)
Definition already_exists (l : nat) : CommandResult :=
  mkResult true (Some l) (Some "Gateway already exists for this origin") None.

Definition exn_message (e : exn) : option string :=
  match e with
  | TypeError msg | Error msg => Some msg
  | RequestFailure _ _ _ _ | ThrownUndefined => None
  end.

(** [createAPIGatewayForURL(url, config)] *)
Definition createAPIGatewayForURL `{URLApi} `{ChromeRuntime}
    (u : string) (c : Config) (pm : ProxyManager) (s : Store)
    : CommandResult * ProxyManager * Store :=
  match new_URL u with
  | None => (mkResult false None None (Some "Invalid URL"), pm, s)
  | Some parsedUrl =>
      let origin := origin parsedUrl in
      match activeGateways pm !! origin with
      | Some l =>
          (already_exists l, pm, s)
      | None =>
          let gatewayConfig :=
            {| cfg_timeout := Some (num_or (cfg_timeout c) 30000);
               cfg_retries := Some (num_or (cfg_retries c) 3);
               cfg_headers :=
                 Some (default ∅ (cfg_headers c)
                       ∪ {[ "Origin" := runtime_getURL "";
                            "X-Extension-Id" := runtime_id ]});
               cfg_rateLimit := cfg_rateLimit c;
               cfg_caching :=
                 Some (default (mkCacheConfig (Some 300000) (Some 50))
                               (cfg_caching c));
               cfg_authentication := cfg_authentication c;
               cfg_interceptors := cfg_interceptors c |} in
          let templateName :=
            if includes u "graphql" then "graphql"
            else if includes u "ws://" || includes u "wss://" then "websocket"
            else "rest" in
          match createFromTemplate origin templateName gatewayConfig
                  (gatewayFactory pm) s with
          | Throw e => (mkResult false None None (exn_message e), pm, s)
          | Normal (l, f, s') =>
              let s'' :=
                mkStore
                  (alter (fun g => addResponseInterceptor StatsInterceptor
                                     (addRequestInterceptor
                                        ProxyRoutingInterceptor g))
                         l (objs s'))
                  (next s') in
              (mkResult true (Some l) (Some ("Gateway created for " ++ origin))
                 None,
               set_activeGateways (<[origin := l]> (activeGateways pm))
                 (set_gatewayFactory f pm),
               s'')
          end
      end
  end.

(** [removeGateway(url)] *)
Definition removeGateway `{URLApi} (u : string) (pm : ProxyManager)
    : CommandResult * ProxyManager :=
  match new_URL u with
  | None => (mkResult false None None (Some "Invalid URL"), pm)
  | Some parsedUrl =>
      let origin := origin parsedUrl in
      match activeGateways pm !! origin with
      | Some _ =>
          (mkResult true None (Some ("Gateway removed for " ++ origin)) None,
           set_activeGateways (delete origin (activeGateways pm)) pm)
      | None => (mkResult false None None (Some "Gateway not found"), pm)
      end
  end.

(** [handleTabUrlChange(tabId, url)] *)
Definition handleTabUrlChange `{URLApi} `{ChromeRuntime} (rnd : Z)
    (tabId : Z) (u : string) (pm : ProxyManager) (s : Store)
    : ProxyManager * Store :=
  if negb (shouldAutoRotate pm u) then (pm, s)
  else
    match new_URL u with
    | None => (pm, s)
    | Some parsedUrl =>
        let domain := hostname parsedUrl in
        if bool_decide (tabProxyMap pm !! tabId = Some domain) then (pm, s)
        else
          let pm := rotateProxy rnd pm in
          let pm := set_tabProxyMap (<[tabId := domain]> (tabProxyMap pm)) pm in
          if autoCreateGateways pm then
            let '(_, pm, s) := createAPIGatewayForURL u empty_config pm s in
            (pm, s)
          else (pm, s)
    end.

(* ===================================================================== *)
(** * Worked inputs                                                       *)
(* ===================================================================== *)

Definition target (h : string) : ProxyEndpoint := mkProxy h 8080 "http" None.

(** A controller with one target, threshold 2, rotation enabled. *)
Definition two_per_rotation : ProxyManager :=
  enable
    (updateRotationFrequency 2
       (updateProxyEndpoints [target "10.0.0.1"] (ProxyManager_new 0))).

(** The controller once its target list has been emptied. *)
Definition no_targets : ProxyManager :=
  updateProxyEndpoints [] (ProxyManager_new 0).

(** An empty whitelist and the single blacklist entry [localhost]. *)
Definition shop_policy : ProxyManager :=
  set_autoRotateBlacklist ["localhost"] (ProxyManager_new 0).

(** A cache of at most two entries after [k1] and [k2] were stored at times
    1 and 2. *)
Definition cache_of_two : CacheManager :=
  CacheManager_set 2 "k2" (VString "v2")
    (CacheManager_set 1 "k1" (VString "v1")
       (CacheManager_new (mkCacheConfig (Some 1000) (Some 2)))).

(** A client of the reference platform with [retries = 2], and a network on
    which every call fails, each attempt with an error of its own. *)
Definition retry_twice_client : APIGateway :=
  @APIGateway_new reference_URL "https://api.example.com"
    (mkConfig None (Some 2) None None None None None).

Definition attempt_error (i : Z) : exn :=
  Error (if i =? 2 then "third attempt failed" else "an earlier attempt failed").

Definition always_failing : Network := fun i _ => Throw (attempt_error i).

(** A client with the default configuration, and per-call options whose
    headers ask for plain text. *)
Definition example_client : APIGateway :=
  @APIGateway_new reference_URL "https://api.example.com" empty_config.

Definition text_plain_options : Options :=
  mkOptions (Some {[ "Content-Type" := "text/plain" ]}) None None None None.

(** An extension identity. *)
Definition example_runtime : ChromeRuntime :=
  {| runtime_id := "abcdefghijklmnop";
     runtime_getURL := fun path => "chrome-extension://abcdefghijklmnop/" ++ path |}.

Definition empty_store : Store := mkStore ∅ 0.

(** A controller that already holds the client at location 0 for the
    origin [https://api.example.com], and a registry that does. *)
Definition controller_with_client : ProxyManager :=
  set_activeGateways {[ "https://api.example.com" := 0%nat ]} (ProxyManager_new 0).

Definition registry_with_client : APIGatewayFactory :=
  set_gateways {[ "https://api.example.com" := 0%nat ]} APIGatewayFactory_new.

Definition store_with_client : Store :=
  snd (alloc example_client empty_store).

Definition nine_retries : Config :=
  mkConfig (Some 1000) (Some 9) None None None None None.

(* ===================================================================== *)
(** * Further operations of the controller                                *)
(* ===================================================================== *)

Definition set_apiGateways (v : list string) (pm : ProxyManager) : ProxyManager :=
  mkProxyManager
    (proxyEndpoints pm) (currentProxyIndex pm) (isEnabled pm)
    (rotationMode pm) (requestCount pm) (rotateEveryNRequests pm)
    v (gatewayFactory pm) (activeGateways pm)
    (autoRotateMode pm) (autoRotateWhitelist pm) (autoRotateBlacklist pm)
    (tabProxyMap pm) (autoCreateGateways pm) (stats pm).

(** [arr.includes(x)] on an array of strings. *)
Definition array_includes (x : string) (arr : list string) : bool :=
  existsb (String.eqb x) arr.


(** [addAPIGateway(gatewayUrl)] *)
Definition addAPIGateway (gatewayUrl : string) (pm : ProxyManager) : ProxyManager :=
  if negb (array_includes gatewayUrl (apiGateways pm)) then
    set_apiGateways (apiGateways pm ++ [gatewayUrl]) pm
  else pm.



(** A run of [rotateProxy()] calls, one draw of [Math.random()] for each. *)
Definition rotateProxies (draws : list Z) (pm : ProxyManager) : ProxyManager :=
  fold_left (fun st rnd => rotateProxy rnd st) draws pm.

(** The template [createAPIGatewayForURL] picks for a URL. *)
Definition template_for (u : string) : string :=
  if includes u "graphql" then "graphql"
  else if includes u "ws://" || includes u "wss://" then "websocket"
  else "rest".

(** The two interceptors [createAPIGatewayForURL] installs. *)
Definition install_interceptors (g : APIGateway) : APIGateway :=
  addResponseInterceptor StatsInterceptor
    (addRequestInterceptor ProxyRoutingInterceptor g).

(** ** Further worked inputs *)

(** Three targets, sequential policy, index 0. *)
Definition three_targets : ProxyManager :=
  updateProxyEndpoints [target "A"; target "B"; target "C"] (ProxyManager_new 0).

(** Three targets and two gateway URLs, rotated twice: index 2. *)
Definition three_targets_two_gateways : ProxyManager :=
  rotateProxies [0; 0]
    (addAPIGateway "https://g2.example.com"
       (addAPIGateway "https://g1.example.com" three_targets)).

(** Rotation enabled with the threshold set to zero. *)
Definition zero_threshold : ProxyManager :=
  enable (updateRotationFrequency 0 three_targets).

(** Auto-rotation restricted to [example.com]. *)
Definition example_only : ProxyManager :=
  addToWhitelist "example.com" (ProxyManager_new 0).

(** The [gatewayConfig] that [createAPIGatewayForURL] builds from the
    caller's [config]. *)
Definition gatewayConfig_for `{ChromeRuntime} (c : Config) : Config :=
  {| cfg_timeout := Some (num_or (cfg_timeout c) 30000);
     cfg_retries := Some (num_or (cfg_retries c) 3);
     cfg_headers :=
       Some (default ∅ (cfg_headers c)
             ∪ {[ "Origin" := runtime_getURL "";
                  "X-Extension-Id" := runtime_id ]});
     cfg_rateLimit := cfg_rateLimit c;
     cfg_caching :=
       Some (default (mkCacheConfig (Some 300000) (Some 50)) (cfg_caching c));
     cfg_authentication := cfg_authentication c;
     cfg_interceptors := cfg_interceptors c |}.

Definition gateway_created (l : nat) (o : string) : CommandResult :=
  mkResult true (Some l) (Some ("Gateway created for " ++ o)) None.

(** A GraphQL URL, and the controller and store after a gateway was created
    for it and removed again. *)
Definition graphql_url : string := "https://api.example.com/graphql".

Definition after_create : CommandResult * ProxyManager * Store :=
  @createAPIGatewayForURL reference_URL example_runtime graphql_url
    empty_config (ProxyManager_new 0) empty_store.

Definition after_create_and_remove : ProxyManager :=
  snd (@removeGateway reference_URL graphql_url (snd (fst after_create))).

(** Overrides that set the retries to zero and bring headers of their own. *)
Definition zero_retries_own_headers : Config :=
  mkConfig None (Some 0) (Some {[ "X-Trace" := "1" ]}) None None None None.

Definition five_retries_template : Config :=
  mkConfig (Some 5000) (Some 5) (Some {[ "Accept" := "text/html" ]})
    None None None None.

(* ===================================================================== *)
(** * Runs of cache operations and of metric updates                      *)
(* ===================================================================== *)

(** The calls a client makes on its cache, each with the [Date.now()] it
    reads. *)
Inductive CacheOp : Type :=
| OpSet (now : Z) (key : string) (v : jsval)
| OpGet (now : Z) (key : string)
| OpClear.

Definition cache_step (cm : CacheManager) (op : CacheOp) : CacheManager :=
  match op with
  | OpSet now key v => CacheManager_set now key v cm
  | OpGet now key => snd (CacheManager_get now key cm)
  | OpClear => CacheManager_clear cm
  end.

Definition cache_run (ops : list CacheOp) (cm : CacheManager) : CacheManager :=
  fold_left cache_step ops cm.

(** [updateMetrics] for each response of a list, in order. *)
Definition record_responses (rs : list Response) (g : APIGateway) : APIGateway :=
  fold_left (fun g r => updateMetrics r g) rs g.

(** A response with the given latency and time stamp. *)
Definition timed_response (l t : Z) : Response :=
  mkResponse true 200 "OK" ∅ (VString "body") l t.

(* ===================================================================== *)
(** * Reading the handler                                                 *)
(* ===================================================================== *)

(** [if (this.cache && method === 'GET' && response.ok)
       await this.cache.set(request.cacheKey, response.data)] *)
Definition cache_response (now : Z) (meth : string) (rq : Request)
    (resp : Response) (g : APIGateway) : APIGateway :=
  match gw_cache g with
  | Some cm =>
      if String.eqb meth "GET" && ok resp then
        set_gw_cache
          (Some (CacheManager_set now (cacheKey rq) (data resp) cm)) g
      else g
  | None => g
  end.

(** The fields of the controller that the request interceptors read. *)
Definition same_routing (pm pm' : ProxyManager) : Prop :=
  isEnabled pm' = isEnabled pm
  /\ proxyEndpoints pm' = proxyEndpoints pm
  /\ currentProxyIndex pm' = currentProxyIndex pm
  /\ apiGateways pm' = apiGateways pm.

(** A caching client of the reference platform, and a network that answers
    the first call with a body, or fails once and then answers. *)
Definition caching_client : APIGateway :=
  @APIGateway_new reference_URL "https://api.example.com"
    (mkConfig None (Some 2) None
       (Some (mkRateLimitConfig (Some 2) (Some 1000)))
       (Some (mkCacheConfig (Some 1000) (Some 2))) None None).

Definition answers_at_once : Network :=
  fun _ _ => Normal (timed_response 5 1).

Definition answers_second_time : Network :=
  fun i _ => if i =? 0 then Throw (attempt_error 0)
             else Normal (timed_response 5 1).

(* ===================================================================== *)
(** * [RateLimiter]: the queue                                            *)
(* ===================================================================== *)

(** A limiter at run time: its two limits, the queue of [resolve]
    functions (each named by the caller it wakes), the [processing] flag,
    and whether [process] is suspended at its [await] on the [windowMs]
    timer.  The handler above takes [acquire] to return; the properties of
    this section say when it does. *)
Record Limiter : Type := mkLimiter {
  limits : RateLimiter;
  queue : list nat;
  processing : bool;
  sleeping : bool
}.

(** What a limiter does to the outside: it resolves the promise of a
    caller, or sets a timer. *)
Inductive LimiterEvent : Type :=
| Resolved (caller : nat)
| SetTimeout (ms : Z).

(** [new RateLimiter(config)] *)
Definition Limiter_new (c : RateLimitConfig) : Limiter :=
  mkLimiter (RateLimiter_new c) [] false false.

(** [queue.splice(0, n)]: the elements removed and the elements left; a
    negative count removes nothing. *)
Definition splice0 {A : Type} (n : Z) (q : list A) : list A * list A :=
  (take (Z.to_nat n) q, drop (Z.to_nat n) q).

(** The [while] loop of [process], from its head to its next [await] or to
    the [this.processing = false] after it. *)
Definition process_loop (l : Limiter) : Limiter * list LimiterEvent :=
  match queue l with
  | [] => (mkLimiter (limits l) [] false false, [])
  | _ :: _ =>
      let '(batch, rest) := splice0 (maxRequests (limits l)) (queue l) in
      match rest with
      | [] => (mkLimiter (limits l) [] false false, Resolved <$> batch)
      | _ :: _ =>
          (mkLimiter (limits l) rest true true,
           (Resolved <$> batch) ++ [SetTimeout (windowMs (limits l))])%list
      end
  end.

(** [process()], up to its first [await]. *)
Definition process (l : Limiter) : Limiter * list LimiterEvent :=
  if processing l then (l, [])
  else process_loop (mkLimiter (limits l) (queue l) true (sleeping l)).

(** [acquire()] by [caller]: the executor of the promise pushes [resolve]
    and calls [process]. *)
Definition acquire (caller : nat) (l : Limiter) : Limiter * list LimiterEvent :=
  process (mkLimiter (limits l) (queue l ++ [caller])%list (processing l)
             (sleeping l)).

(** The timer of a suspended [process] fires: the loop goes on from its
    head. *)
Definition timer_fires (l : Limiter) : Limiter * list LimiterEvent :=
  if sleeping l then
    process_loop (mkLimiter (limits l) (queue l) (processing l) false)
  else (l, []).

(** What happens to a limiter: a caller acquires, or the timer fires. *)
Inductive LimiterInput : Type :=
| Call (caller : nat)
| TimerFires.

Definition limiter_step (i : LimiterInput) (l : Limiter)
    : Limiter * list LimiterEvent :=
  match i with
  | Call caller => acquire caller l
  | TimerFires => timer_fires l
  end.

(** A run: the limiter at the end and, for each input, what it caused
    before control went back to the event loop. *)
Fixpoint limiter_run (inputs : list LimiterInput) (l : Limiter)
    : Limiter * list (list LimiterEvent) :=
  match inputs with
  | [] => (l, [])
  | i :: rest =>
      let '(l1, out) := limiter_step i l in
      let '(l2, outs) := limiter_run rest l1 in
      (l2, out :: outs)
  end.

(** The answer a caller gets at once. *)
Definition admitted_at_once (i : LimiterInput) : list LimiterEvent :=
  match i with
  | Call caller => [Resolved caller]
  | TimerFires => []
  end.

Definition callers (inputs : list LimiterInput) : list nat :=
  omap (fun i => match i with Call c => Some c | TimerFires => None end) inputs.

Definition is_Resolved (e : LimiterEvent) : bool :=
  match e with Resolved _ => true | SetTimeout _ => false end.

Definition five_callers : list LimiterInput :=
  [Call 1; Call 2; Call 3; TimerFires; Call 4; Call 5].

(** The limiter of the client, if it has one, has room for a caller: the
    condition under which the [acquire] of the handler returns. *)
Definition limiter_admits (g : APIGateway) : Prop :=
  match rateLimiter g with
  | Some limiter => 1 <= maxRequests limiter
  | None => True
  end.

(* ===================================================================== *)
(** * Endpoints of a gateway client                                       *)
(* ===================================================================== *)

Definition set_endpoints (e : list (string * Endpoint)) (g : APIGateway)
    : APIGateway :=
  mkAPIGateway (baseUrl g) (config g) e (metrics g) (rateLimiter g) (gw_cache g).

(** The [methods] argument of [createEndpoint]: left out, one method name,
    or an array of them. *)
Inductive MethodsArg : Type :=
| NoMethods
| OneMethod (m : string)
| MethodArray (ms : list string).

(** [Array.isArray(methods) ? methods : [methods]], after the default of
    the parameter. *)
Definition methodArray (methods : MethodsArg) : list string :=
  match methods with
  | NoMethods => ["GET"; "POST"; "PUT"; "DELETE"; "PATCH"]
  | OneMethod m => [m]
  | MethodArray ms => ms
  end.

(** [createEndpoint(path, methods)] at time [now]: the endpoint object (its
    handlers are the closures [createHandler(method, path)], one for each
    method of [ep_methods]; its middleware list is empty) and the client
    with the endpoint stored under the path as given. *)
Definition createEndpoint (now : Z) (path : string) (methods : MethodsArg)
    (g : APIGateway) : Endpoint * APIGateway :=
  let endpoint :=
    {| ep_path := normalizePath path;
       ep_methods := methodArray methods;
       ep_created := now |} in
  (endpoint, set_endpoints (OMap.set path endpoint (endpoints g)) g).

(** [createRESTEndpoints(resource)]: the five [createEndpoint] calls of the
    object literal, in its order; [clock i] is the [Date.now()] of call
    [i].  The convenience methods returned are closures over the client. *)
Definition createRESTEndpoints (clock : nat -> Z) (resource : string)
    (g : APIGateway) : APIGateway :=
  let resourcePath := normalizePath resource in
  let g := snd (createEndpoint (clock 0%nat) resourcePath (OneMethod "GET") g) in
  let g := snd (createEndpoint (clock 1%nat) (resourcePath ++ "/:id")
                  (OneMethod "GET") g) in
  let g := snd (createEndpoint (clock 2%nat) resourcePath (OneMethod "POST") g) in
  let g := snd (createEndpoint (clock 3%nat) (resourcePath ++ "/:id")
                  (MethodArray ["PUT"; "PATCH"]) g) in
  snd (createEndpoint (clock 4%nat) (resourcePath ++ "/:id")
         (OneMethod "DELETE") g).

(* ===================================================================== *)
(** * The local proxy service: [LocalProxyConnector]                      *)
(* ===================================================================== *)

Record LocalProxyConnector : Type := mkConnector {
  localProxyHost : string;
  localProxyPort : Z;
  managementPort : Z;
  isConnected : bool;
  lp_activeGateways : list jsval;
  connectionRetries : Z;
  maxRetries : Z
}.

(** [new LocalProxyConnector()] *)
Definition LocalProxyConnector_new : LocalProxyConnector :=
  {| localProxyHost := "127.0.0.1";
     localProxyPort := 8888;
     managementPort := 8889;
     isConnected := false;
     lp_activeGateways := [];
     connectionRetries := 0;
     maxRetries := 5 |}.

(** What a [fetch] on the management port and the reading of its body come
    to: an exception ([fetch] rejects, or the body is not JSON, or it is
    the JSON [null], whose [gateways] cannot be read), a response that is
    not [ok], or an [ok] response whose body has the [gateways] given
    ([None]: none, or a falsy one). *)
Inductive ServiceAnswer : Type :=
| NoAnswer
| AnswerNotOk
| AnswerOk (gateways : option (list jsval)).

(** The value [checkConnection] resolves to: one of its two result
    objects, or [undefined]. *)
Inductive ConnectionReport : Type :=
| ReportConnected (gateways : list jsval)
| ReportNotRunning
| ReportUndefined.

(** [checkConnection()] for the answer [a] of the service: the report, the
    connector afterwards, and whether a retry was scheduled with
    [setTimeout(() => this.checkConnection(), 2000)]. *)
Definition checkConnection (a : ServiceAnswer) (c : LocalProxyConnector)
    : ConnectionReport * LocalProxyConnector * bool :=
  match a with
  | AnswerOk gateways =>
      let gs := default [] gateways in
      (ReportConnected gs,
       mkConnector (localProxyHost c) (localProxyPort c) (managementPort c)
         true gs 0 (maxRetries c),
       false)
  | AnswerNotOk => (ReportUndefined, c, false)
  | NoAnswer =>
      let c' :=
        mkConnector (localProxyHost c) (localProxyPort c) (managementPort c)
          false (lp_activeGateways c) (connectionRetries c + 1) (maxRetries c) in
      (ReportNotRunning, c', connectionRetries c' <? maxRetries c')
  end.

(** [inspect x] keeps the equation with [x] in a pattern match. *)
Definition inspect {A : Type} (x : A) : {y : A | x = y} := exist _ x eq_refl.

(** A call of [checkConnection] and the retries it schedules, when nothing
    else calls [checkConnection] meanwhile: [answers k] is the answer to
    the [k]-th check since the start.  The result is the connector when no
    retry is pending any more, and the checks made. *)
Equations? checkConnection_chain (answers : Z -> ServiceAnswer) (k : Z)
    (c : LocalProxyConnector) : LocalProxyConnector * list Z
    by wf (Z.to_nat (maxRetries c - connectionRetries c)) lt :=
  checkConnection_chain answers k c
    with inspect (checkConnection (answers k) c) => {
    | exist _ (_, c', true) E :=
        let '(c'', ks) := checkConnection_chain answers (k + 1) c' in
        (c'', k :: ks);
    | exist _ (_, c', false) _ := (c', [k]) }.
Proof.
  destruct (answers k); cbn in E; inversion E as [[Hr Hc Hlt]]; subst.
  cbn in *. apply Z.ltb_lt in Hlt. lia.
Qed.

(** [listGateways()] for the answer [a]: whether it reports success, and
    the connector afterwards. *)
Definition listGateways (a : ServiceAnswer) (c : LocalProxyConnector)
    : bool * LocalProxyConnector :=
  match a with
  | AnswerOk gateways =>
      (true,
       mkConnector (localProxyHost c) (localProxyPort c) (managementPort c)
         (isConnected c) (default [] gateways) (connectionRetries c)
         (maxRetries c))
  | AnswerNotOk | NoAnswer => (false, c)
  end.

(** [connectToLocalProxy()] of the controller: [result.connected] is read
    from whatever [checkConnection] resolved to. *)
Definition connectToLocalProxy (status listing : ServiceAnswer)
    (c : LocalProxyConnector)
    : completion ConnectionReport * LocalProxyConnector * bool :=
  let '(result, c1, retry) := checkConnection status c in
  match result with
  | ReportUndefined =>
      (Throw (TypeError
                "Cannot read properties of undefined (reading 'connected')"),
       c1, retry)
  | ReportConnected _ =>
      (Normal result, snd (listGateways listing c1), retry)
  | ReportNotRunning => (Normal result, c1, retry)
  end.

(** The value Chrome's proxy setting is given.  A PAC script is the fixed
    text of [generatePACScript] around one computed part, the directive it
    returns for a host that is not local; [PacScript] carries that
    directive. *)
Inductive ProxyConfig : Type :=
| Direct
| FixedServers (scheme host : string) (server_port : Z)
               (bypassList : list string)
| PacScript (directive : string).

(** [getProxyConfig()] of the connector. *)
Definition getProxyConfig (c : LocalProxyConnector) : ProxyConfig :=
  if negb (isConnected c) then Direct
  else
    FixedServers "http" (localProxyHost c) (localProxyPort c)
      ["localhost"; "127.0.0.1"; "*.local"; "<local>"].

(** The service is down, then answers: worked inputs. *)
Definition service_down (_ : Z) : ServiceAnswer := NoAnswer.

Definition service_up_at (n : Z) (gateways : list jsval) (k : Z)
    : ServiceAnswer :=
  if k <? n then NoAnswer else AnswerOk (Some gateways).

(* ===================================================================== *)
(** * The proxy configuration given to Chrome                             *)
(* ===================================================================== *)

Fixpoint string_drop (n : nat) (s : string) : string :=
  match n, s with
  | O, _ => s
  | S n', String _ s' => string_drop n' s'
  | S _, EmptyString => EmptyString
  end.

(** [s.replace(pat, rep)] for a string pattern: the first occurrence. *)
Fixpoint replace_first (s pat rep : string) : string :=
  if startsWith s pat then rep ++ string_drop (String.length pat) s
  else
    match s with
    | EmptyString => EmptyString
    | String c s' => String c (replace_first s' pat rep)
    end.

(** The computed part of [generatePACScript(gatewayUrl)]. *)
Definition generatePACScript (gatewayUrl : string) : string :=
  "PROXY "
  ++ replace_first (replace_first gatewayUrl "https://" "") "http://" ""
  ++ ":443".

(** [generateProxyConfig()].  [useLocalProxy] and [localProxy] are the two
    fields of the controller that only this function reads.  Reading a
    property of [undefined] throws a [TypeError]. *)
Definition generateProxyConfig (useLocalProxy : bool)
    (localProxy : LocalProxyConnector) (pm : ProxyManager)
    : completion ProxyConfig :=
  if useLocalProxy && isConnected localProxy then
    Normal (getProxyConfig localProxy)
  else if (length (proxyEndpoints pm) =? 0)%nat then Normal Direct
  else
    match array_get (proxyEndpoints pm) (currentProxyIndex pm) with
    | None =>
        Throw (TypeError "Cannot read properties of undefined (reading 'type')")
    | Some proxy =>
        let config :=
          FixedServers (type proxy) (host proxy) (port proxy)
            ["localhost"; "127.0.0.1"; "*.local"] in
        if (0 <? length (apiGateways pm))%nat then
          match array_get (apiGateways pm)
                  (js_rem (currentProxyIndex pm)
                          (array_length (apiGateways pm))) with
          | None =>
              Throw (TypeError
                       "Cannot read properties of undefined (reading 'replace')")
          | Some gateway => Normal (PacScript (generatePACScript gateway))
          end
        else Normal config
    end.

(** A connector that has reached the service. *)
Definition connected_service : LocalProxyConnector :=
  snd (fst (checkConnection (AnswerOk None) LocalProxyConnector_new)).

Definition is_Throw {A : Type} (r : completion A) : bool :=
  match r with Throw _ => true | Normal _ => false end.

(* ===================================================================== *)
(** * Inputs at the edge of the configuration                             *)
(* ===================================================================== *)

(** A client configured with no retry at all. *)
Definition zero_retries_client : APIGateway :=
  @APIGateway_new reference_URL "https://api.example.com"
    (mkConfig None (Some 0) None None None None None).

(** A client whose limiter is configured with a negative [maxRequests]. *)
Definition blocked_client : APIGateway :=
  @APIGateway_new reference_URL "https://api.example.com"
    (mkConfig None (Some 2) None
       (Some (mkRateLimitConfig (Some (-1)) (Some 1000))) None None None).

(** An endpoint that answers every attempt with the status 500. *)
Definition answers_500 : Network :=
  fun _ _ =>
    Normal (mkResponse false 500 "Internal Server Error" ∅
              (VString "failed") 5 1).

(** The limiter of a client, as it is when the client is built. *)
Definition limiter_of (g : APIGateway) : option Limiter :=
  (fun limiter => mkLimiter limiter [] false false) <$> rateLimiter g.

(** A client without its interceptor lists: what a push on the lists of
    another client cannot reach. *)
Definition forget_interceptors (g : APIGateway) : APIGateway :=
  set_config (set_interceptors (mkInterceptors [] []) (config g)) g.

(* ===================================================================== *)
(** * Properties of the rotation controller                               *)
(* ===================================================================== *)

Section Rotation.

Implicit Types (pm : ProxyManager) (rnd : Z) (draws : list Z).

Lemma rotateProxy_rotations rnd pm :
  rotations (stats (rotateProxy rnd pm)) = rotations (stats pm) + 1.
Proof.
  unfold rotateProxy.
  destruct (String.eqb (rotationMode pm) "sequential"); [reflexivity|].
  destruct (String.eqb (rotationMode pm) "random"); reflexivity.
Qed.

(** Rotation touches the index and the rotation count, nothing else. *)
Lemma rotateProxy_frame rnd pm :
  let pm' := rotateProxy rnd pm in
  proxyEndpoints pm' = proxyEndpoints pm
  /\ isEnabled pm' = isEnabled pm
  /\ rotationMode pm' = rotationMode pm
  /\ requestCount pm' = requestCount pm
  /\ rotateEveryNRequests pm' = rotateEveryNRequests pm
  /\ totalRequests (stats pm') = totalRequests (stats pm).
Proof.
  unfold rotateProxy.
  destruct (String.eqb (rotationMode pm) "sequential"); [cbn; tauto|].
  destruct (String.eqb (rotationMode pm) "random"); cbn; tauto.
Qed.

(** One observed request, rotation enabled. *)
Lemma handleRequest_enabled rnd pm :
  isEnabled pm = true ->
  let pm' := handleRequest rnd pm in
  isEnabled pm' = true
  /\ rotateEveryNRequests pm' = rotateEveryNRequests pm
  /\ totalRequests (stats pm') = totalRequests (stats pm) + 1
  /\ (if requestCount pm + 1 >=? rotateEveryNRequests pm
      then requestCount pm' = 0
           /\ rotations (stats pm') = rotations (stats pm) + 1
      else requestCount pm' = requestCount pm + 1
           /\ rotations (stats pm') = rotations (stats pm)).
Proof.
  intros Hen. unfold handleRequest. rewrite Hen. cbn [negb]. cbv zeta.
  set (pm2 := set_stats _ _).
  change (requestCount pm2) with (requestCount pm + 1).
  change (rotateEveryNRequests pm2) with (rotateEveryNRequests pm).
  destruct (requestCount pm + 1 >=? rotateEveryNRequests pm).
  - pose proof (rotateProxy_frame rnd pm2) as (_ & He & _ & _ & Ht & Hq).
    pose proof (rotateProxy_rotations rnd pm2) as Hr.
    unfold set_requestCount; cbn [isEnabled rotateEveryNRequests stats requestCount].
    rewrite He, Ht, Hq, Hr. subst pm2. cbn. tauto.
  - subst pm2. cbn. tauto.
Qed.

(** A disabled controller ignores the signal. *)
Lemma handleRequest_disabled rnd pm :
  isEnabled pm = false -> handleRequest rnd pm = pm.
Proof. intros H. unfold handleRequest. now rewrite H. Qed.

(** The counters after any run of requests, from any counter value below
    the threshold. *)
Lemma handleRequests_counters draws :
  forall pm,
    isEnabled pm = true ->
    0 <= requestCount pm < rotateEveryNRequests pm ->
    let n := Z.of_nat (length draws) in
    let t := rotateEveryNRequests pm in
    let pm' := handleRequests draws pm in
    rotations (stats pm') = rotations (stats pm) + (requestCount pm + n) / t
    /\ requestCount pm' = (requestCount pm + n) mod t
    /\ totalRequests (stats pm') = totalRequests (stats pm) + n
    /\ isEnabled pm' = true
    /\ rotateEveryNRequests pm' = t.
Proof.
  induction draws as [|rnd draws IH]; intros pm Hen Hc; cbv zeta.
  - cbn. rewrite Z.add_0_r, Z.div_small, Z.mod_small by lia. repeat split; lia || auto.
  - change (handleRequests (rnd :: draws) pm)
      with (handleRequests draws (handleRequest rnd pm)).
    pose proof (handleRequest_enabled rnd pm Hen) as (Hen' & Ht & Hq & Hstep).
    cbv zeta in *.
    set (pm1 := handleRequest rnd pm) in *.
    set (t := rotateEveryNRequests pm) in *.
    cbn [length]. rewrite Nat2Z.inj_succ.
    set (n := Z.of_nat (length draws)) in *.
    destruct (requestCount pm + 1 >=? t) eqn:Hge; destruct Hstep as [Hc1 Hr1].
    + assert (Heq : requestCount pm + 1 = t) by lia.
      destruct (IH pm1 Hen' ltac:(rewrite Hc1, Ht; lia))
        as (Ha & Hb & Hd & He & Hf).
      rewrite Ht, Hc1, Hr1, Hq in *.
      rewrite Ha, Hb, Hd, He, Hf.
      replace (requestCount pm + Z.succ n) with (1 * t + (0 + n)) by lia.
      rewrite Z.div_add_l, (Z.add_comm (1 * t)), Z.mod_add by lia.
      repeat split; lia.
    + destruct (IH pm1 Hen' ltac:(rewrite Hc1, Ht; lia))
        as (Ha & Hb & Hd & He & Hf).
      rewrite Ht, Hc1, Hr1, Hq in *.
      rewrite Ha, Hb, Hd, He, Hf.
      replace (requestCount pm + 1 + n) with (requestCount pm + Z.succ n) by lia.
      repeat split; lia.
Qed.

(** C1.  With rotation enabled, every observed request adds one to the
    total request count and to the requests-since-rotation counter; when
    that counter reaches the threshold a rotation is performed and the
    counter is reset to zero.  Hence, for a threshold of at least 1 and a
    counter starting at zero, after exactly [k * threshold] observed
    requests the rotation count has grown by exactly [k] (it is [k] on a
    controller that had not rotated before), the counter is zero again and
    the total request count has grown by [k * threshold].  The number of
    targets and the policy play no part. *)
Theorem threshold_rotation_count draws pm k :
  isEnabled pm = true ->
  1 <= rotateEveryNRequests pm ->
  requestCount pm = 0 ->
  0 <= k ->
  Z.of_nat (length draws) = k * rotateEveryNRequests pm ->
  (forall rnd pm0,
      isEnabled pm0 = true ->
      totalRequests (stats (handleRequest rnd pm0))
        = totalRequests (stats pm0) + 1
      /\ (if requestCount pm0 + 1 >=? rotateEveryNRequests pm0
          then requestCount (handleRequest rnd pm0) = 0
               /\ rotations (stats (handleRequest rnd pm0))
                  = rotations (stats pm0) + 1
          else requestCount (handleRequest rnd pm0) = requestCount pm0 + 1
               /\ rotations (stats (handleRequest rnd pm0))
                  = rotations (stats pm0)))
  /\ rotations (stats (handleRequests draws pm)) = rotations (stats pm) + k
  /\ (rotations (stats pm) = 0 ->
      rotations (stats (handleRequests draws pm)) = k)
  /\ requestCount (handleRequests draws pm) = 0
  /\ totalRequests (stats (handleRequests draws pm))
     = totalRequests (stats pm) + k * rotateEveryNRequests pm.
Proof.
  intros Hen Ht Hc Hk Hlen.
  split.
  { intros rnd pm0 Hen0.
    pose proof (handleRequest_enabled rnd pm0 Hen0) as (_ & _ & Hq & Hstep).
    split; assumption. }
  pose proof (handleRequests_counters draws pm Hen ltac:(lia))
    as (Hr & Hc' & Hq & _ & _).
  cbv zeta in *.
  rewrite Hc, Hlen, Z.add_0_l in *.
  rewrite Z.div_mul in Hr by lia.
  rewrite Z.mod_mul in Hc' by lia.
  repeat split; try assumption.
  intros H0. rewrite Hr, H0. lia.
Qed.

Lemma threshold_rotation_count_witness :
  rotations (stats (handleRequests [7; 7; 7; 7] two_per_rotation)) = 2.
Proof.
  refine (proj1 (proj2 (proj2
    (threshold_rotation_count [7; 7; 7; 7] two_per_rotation 2 _ _ _ _ _))) _);
    try reflexivity; vm_compute; discriminate.
Defined.

(** Under the sequential policy a rotation over a non-empty list moves a
    non-negative index to its successor modulo the length. *)
Lemma rotateProxy_sequential rnd pm i :
  rotationMode pm = "sequential" ->
  proxyEndpoints pm <> [] ->
  currentProxyIndex pm = JNum i ->
  0 <= i ->
  currentProxyIndex (rotateProxy rnd pm)
  = JNum ((i + 1) mod Z.of_nat (length (proxyEndpoints pm))).
Proof.
  intros Hm Hne Hi Hpos. unfold rotateProxy. rewrite Hm, Hi. cbn.
  destruct (proxyEndpoints pm) as [|e l]; [congruence|].
  destruct (Z.eqb_spec (Z.of_nat (length (e :: l))) 0) as [E|E];
      [cbn [length] in E; lia|].
  rewrite Z.rem_mod_nonneg by (cbn [length]; lia). reflexivity.
Qed.

(** Under the random policy a rotation over a non-empty list picks an index
    inside the list. *)
Lemma rotateProxy_random rnd pm :
  rotationMode pm = "random" ->
  proxyEndpoints pm <> [] ->
  exists j, currentProxyIndex (rotateProxy rnd pm) = JNum j
            /\ 0 <= j < Z.of_nat (length (proxyEndpoints pm)).
Proof.
  intros Hm Hne. unfold rotateProxy. rewrite Hm. cbn.
  eexists; split; [reflexivity|].
  assert (Hn : 0 < Z.of_nat (length (proxyEndpoints pm))).
  { destruct (proxyEndpoints pm); [congruence|cbn [length]; lia]. }
  set (n := Z.of_nat (length (proxyEndpoints pm))) in *.
  assert (Hres : 0 < random_resolution) by reflexivity.
  pose proof (Z.mod_pos_bound rnd random_resolution Hres) as Hb.
  split.
  - apply Z.div_pos; nia.
  - apply Z.div_lt_upper_bound; nia.
Qed.

(** Any other policy string leaves the index alone. *)
Lemma rotateProxy_other_mode rnd pm :
  rotationMode pm <> "sequential" ->
  rotationMode pm <> "random" ->
  currentProxyIndex (rotateProxy rnd pm) = currentProxyIndex pm.
Proof.
  intros H1 H2. unfold rotateProxy.
  destruct (String.eqb_spec (rotationMode pm) "sequential"); [congruence|].
  destruct (String.eqb_spec (rotationMode pm) "random"); [congruence|].
  reflexivity.
Qed.

(** Sequential rotation over three targets from index 0 visits 1, 2, 0, 1. *)
Example rotateProxy_three_targets :
  let pm0 := updateProxyEndpoints [target "A"; target "B"; target "C"]
               (ProxyManager_new 0) in
  let pm1 := rotateProxy 0 pm0 in
  let pm2 := rotateProxy 0 pm1 in
  let pm3 := rotateProxy 0 pm2 in
  let pm4 := rotateProxy 0 pm3 in
  map currentProxyIndex [pm0; pm1; pm2; pm3; pm4]
  = [JNum 0; JNum 1; JNum 2; JNum 0; JNum 1]
  /\ map (fun pm => rotations (stats pm)) [pm0; pm1; pm2; pm3; pm4]
     = [0; 1; 2; 3; 4].
Proof. split; reflexivity. Qed.

(** C2.  Over an empty target list a sequential rotation is counted but is
    not a no-op on the index: the remainder by the zero length turns the
    index 0 into NaN, whatever the draw. *)
Theorem rotateProxy_empty_list_NaN :
  forall rnd,
    proxyEndpoints no_targets = []
    /\ rotationMode no_targets = "sequential"
    /\ currentProxyIndex no_targets = JNum 0
    /\ currentProxyIndex (rotateProxy rnd no_targets) = JNaN
    /\ currentProxyIndex (rotateProxy rnd no_targets)
       <> currentProxyIndex no_targets
    /\ rotations (stats (rotateProxy rnd no_targets))
       = rotations (stats no_targets) + 1.
Proof. intros rnd. repeat split; try reflexivity. discriminate. Qed.

(** Rotation keeps the index in range: over a non-empty list every policy
    leaves an index below the length, and over an empty list the invariant
    asks nothing. *)
Lemma rotateProxy_index_in_range rnd pm :
  index_in_range pm = true -> index_in_range (rotateProxy rnd pm) = true.
Proof.
  unfold index_in_range.
  pose proof (rotateProxy_frame rnd pm) as (Hp & _). cbv zeta in Hp. rewrite Hp.
  destruct (proxyEndpoints pm) as [|e l] eqn:El; [reflexivity|].
  intros Hin.
  destruct (String.eqb_spec (rotationMode pm) "sequential") as [Hs|Hs].
  - unfold rotateProxy. rewrite Hs, El. cbn -[Z.of_nat length].
    destruct (currentProxyIndex pm) as [i|]; [|discriminate].
    cbn -[Z.of_nat length] in *.
    destruct (Z.eqb_spec (Z.of_nat (length (e :: l))) 0) as [E|E];
      [cbn [length] in E; lia|].
    cbn -[Z.of_nat length]. apply Z.ltb_lt.
    assert (Hn : 0 < Z.of_nat (length (e :: l))) by (cbn [length]; lia).
    destruct (Z_lt_le_dec (i + 1) 0) as [Hneg|Hnn].
    + pose proof (Z.rem_nonpos (i + 1) (Z.of_nat (length (e :: l)))
                    ltac:(lia) ltac:(lia)). lia.
    + pose proof (Z.rem_bound_pos (i + 1) (Z.of_nat (length (e :: l)))
                    Hnn Hn). lia.
  - destruct (String.eqb_spec (rotationMode pm) "random") as [Hr|Hr].
    + destruct (rotateProxy_random rnd pm Hr ltac:(rewrite El; discriminate))
        as (j & -> & Hj).
      rewrite El in Hj. cbn -[Z.of_nat length]. apply Z.ltb_lt. lia.
    + rewrite (rotateProxy_other_mode rnd pm Hs Hr). exact Hin.
Qed.

(** Replacing the target list resets an index that is a number at or past
    the new length, so an index that is a number always ends in range. *)
Lemma updateProxyEndpoints_numeric_index endpoints pm i :
  currentProxyIndex pm = JNum i ->
  index_in_range (updateProxyEndpoints endpoints pm) = true.
Proof.
  intros Hi. unfold updateProxyEndpoints, index_in_range. cbn -[Z.of_nat length].
  rewrite Hi. cbn -[Z.of_nat length].
  destruct (Z.leb_spec (Z.of_nat (length endpoints)) i);
    cbn -[Z.of_nat length]; destruct endpoints as [|e l]; try reflexivity;
    rewrite ?Hi; cbn -[Z.of_nat length]; apply Z.ltb_lt; cbn [length] in *; lia.
Qed.

(** C3.  The index invariant is not preserved by replacing the target
    list.  After a sequential rotation over an empty list the index is
    NaN; the invariant holds there, since the list is empty.  Replacing
    the list by a single target then keeps the NaN, because the reset
    compares it with the new length, and NaN is not below length 1. *)
Theorem updateProxyEndpoints_keeps_NaN :
  forall rnd,
    let pm := rotateProxy rnd no_targets in
    let pm' := updateProxyEndpoints [target "A"] pm in
    index_in_range pm = true
    /\ proxyEndpoints pm' = [target "A"]
    /\ currentProxyIndex pm' = JNaN
    /\ index_in_range pm' = false.
Proof. intros rnd. repeat split; reflexivity. Qed.

End Rotation.

(* ===================================================================== *)
(** * Properties of the string primitives                                 *)
(* ===================================================================== *)

Lemma startsWith_spec s p :
  startsWith s p = true <-> exists post, s = (p ++ post)%string.
Proof.
  revert s. induction p as [|c p IH]; intros s; cbn.
  - split; [intros _; now exists s|reflexivity].
  - destruct s as [|d s].
    + split; [discriminate|intros [post H]; discriminate].
    + rewrite andb_true_iff, IH. split.
      * intros [Hc [post ->]]. apply Ascii.eqb_eq in Hc as ->. now exists post.
      * intros [post H]. injection H as -> ->. split; [apply Ascii.eqb_refl|].
        now exists post.
Qed.

(** [includes] is substring containment. *)
Lemma includes_spec s t :
  includes s t = true <-> exists pre post, s = (pre ++ t ++ post)%string.
Proof.
  induction s as [|c s IH]; cbn [includes]; rewrite orb_true_iff, startsWith_spec.
  - split.
    + intros [[post H]|H]; [|discriminate]. now exists ""%string, post.
    + intros ([|d pre] & post & H); [left; now exists post|discriminate].
  - rewrite IH. split.
    + intros [[post H]|(pre & post & H)].
      * now exists ""%string, post.
      * exists (String c pre), post. cbn. now rewrite H.
    + intros ([|d pre] & post & H).
      * left. now exists post.
      * right. cbn in H. injection H as -> ->. now exists pre, post.
Qed.

Lemma append_empty_r s : (s ++ "")%string = s.
Proof.
  induction s as [|c s IH]; [reflexivity|].
  change (String c s ++ "")%string with (String c (s ++ "")). now rewrite IH.
Qed.

Lemma includes_refl s : includes s s = true.
Proof.
  apply includes_spec. exists ""%string, ""%string.
  change ("" ++ s ++ "")%string with (s ++ "")%string.
  now rewrite append_empty_r.
Qed.

(** The reference platform on the inputs used below. *)
Example reference_new_URL_examples :
  origin <$> reference_new_URL "HTTPS://API.Example.com:443/a/b?x=1#top"
    = Some "https://api.example.com"
  /\ hostname <$> reference_new_URL "http://localhost:3000/x" = Some "localhost"
  /\ protocol <$> reference_new_URL "ftp://x.com" = Some "ftp:"
  /\ origin <$> reference_new_URL "chrome://extensions" = Some "null"
  /\ reference_new_URL "not a url" = None
  /\ reference_new_URL "/relative/path" = None.
Proof. repeat split; reflexivity. Qed.

Example reference_btoa_example :
  @btoa reference_Base64 "user:pass" = "dXNlcjpwYXNz".
Proof. reflexivity. Qed.

(* ===================================================================== *)
(** * Properties of auto-rotation eligibility                             *)
(* ===================================================================== *)

Section AutoRotate.

Context `{URLApi}.
Implicit Types (pm : ProxyManager) (u : string).

(** No exception leaves the check: it is a total function to [bool], and a
    URL the platform cannot parse is not eligible. *)
Lemma shouldAutoRotate_unparseable pm u :
  new_URL u = None -> shouldAutoRotate pm u = false.
Proof. intros Hp. unfold shouldAutoRotate, shouldAutoRotate_try. now rewrite Hp. Qed.

(** A URL whose protocol does not begin with [http] is not eligible. *)
Lemma shouldAutoRotate_protocol pm u parsed :
  new_URL u = Some parsed ->
  startsWith (protocol parsed) "http" = false ->
  shouldAutoRotate pm u = false.
Proof.
  intros Hp Hs. unfold shouldAutoRotate, shouldAutoRotate_try. now rewrite Hp, Hs.
Qed.

(** With an empty whitelist every parseable URL whose protocol begins with
    [http] and that no blacklist entry matches is eligible. *)
Lemma shouldAutoRotate_empty_whitelist pm u parsed :
  new_URL u = Some parsed ->
  startsWith (protocol parsed) "http" = true ->
  autoRotateWhitelist pm = [] ->
  existsb (fun b => includes (hostname parsed) b || includes u b)
          (autoRotateBlacklist pm) = false ->
  shouldAutoRotate pm u = true.
Proof.
  intros Hp Hs Hw Hb. unfold shouldAutoRotate, shouldAutoRotate_try.
  now rewrite Hp, Hs, Hb, Hw.
Qed.

(** A blacklist entry contained in the URL or in the host name decides the
    check before the whitelist is read. *)
Lemma shouldAutoRotate_blacklisted pm u blacklisted :
  In blacklisted (autoRotateBlacklist pm) ->
  (includes u blacklisted = true
   \/ exists parsed, new_URL u = Some parsed
                     /\ includes (hostname parsed) blacklisted = true) ->
  shouldAutoRotate pm u = false.
Proof.
  intros Hin Hmatch. unfold shouldAutoRotate, shouldAutoRotate_try.
  destruct (new_URL u) as [parsed|] eqn:Hp; [|reflexivity].
  destruct (startsWith (protocol parsed) "http"); [|reflexivity].
  cbn [negb].
  assert (Hex : existsb (fun b => includes (hostname parsed) b || includes u b)
                        (autoRotateBlacklist pm) = true).
  { apply existsb_exists. exists blacklisted. split; [exact Hin|].
    apply orb_true_iff.
    destruct Hmatch as [Hu|(parsed' & Hp' & Hd)]; [now right|].
    left. congruence. }
  now rewrite Hex.
Qed.

(** C6.  A URL that a blacklist entry matches, by containment in the
    full URL or in the host name of the parsed URL, is never eligible for
    auto-rotation, whatever the whitelist holds; in particular a domain
    that is on the blacklist is not eligible when it is on the whitelist
    too. *)
Theorem blacklist_vetoes pm u blacklisted whitelist :
  In blacklisted (autoRotateBlacklist pm) ->
  (includes u blacklisted = true
   \/ exists parsed, new_URL u = Some parsed
                     /\ includes (hostname parsed) blacklisted = true) ->
  shouldAutoRotate (set_autoRotateWhitelist whitelist pm) u = false
  /\ (forall parsed,
         new_URL u = Some parsed ->
         hostname parsed = blacklisted ->
         shouldAutoRotate
           (set_autoRotateWhitelist (blacklisted :: whitelist) pm) u = false).
Proof.
  intros Hin Hmatch. split.
  - now apply (shouldAutoRotate_blacklisted _ u blacklisted).
  - intros parsed Hp Hd.
    now apply (shouldAutoRotate_blacklisted _ u blacklisted).
Qed.

(** A domain on both lists is not eligible. *)
Corollary blacklisted_and_whitelisted pm u parsed :
  new_URL u = Some parsed ->
  In (hostname parsed) (autoRotateBlacklist pm) ->
  In (hostname parsed) (autoRotateWhitelist pm) ->
  shouldAutoRotate pm u = false.
Proof.
  intros Hp Hb _.
  apply (shouldAutoRotate_blacklisted pm u (hostname parsed)); [exact Hb|].
  right. exists parsed. split; [exact Hp|apply includes_refl].
Qed.

End AutoRotate.

Lemma blacklist_vetoes_witness :
  @shouldAutoRotate reference_URL
    (set_autoRotateWhitelist ["localhost"] (ProxyManager_new 0))
    "http://localhost:3000/x" = false.
Proof.
  apply (@blacklist_vetoes reference_URL (ProxyManager_new 0)
           "http://localhost:3000/x" "localhost" ["localhost"]).
  - cbn. left. reflexivity.
  - right. eexists. split; reflexivity.
Defined.

(** The two examples of the design document, on the reference URL
    implementation: an [ftp] URL is not eligible, an [https] URL that the
    blacklist does not match is. *)
Example shouldAutoRotate_examples :
  @shouldAutoRotate reference_URL shop_policy "ftp://x.com" = false
  /\ @shouldAutoRotate reference_URL shop_policy "https://shop.com" = true
  /\ @shouldAutoRotate reference_URL shop_policy "not a url" = false.
Proof. repeat split; reflexivity. Qed.

(** C7.  The scheme test is a prefix test.  [httpx://shop.com] parses, its
    protocol [httpx:] is neither [http:] nor [https:], and yet the URL is
    eligible under an empty whitelist and the blacklist [localhost]: the
    check does not return false for every scheme other than HTTP(S). *)
Theorem shouldAutoRotate_http_prefixed_scheme :
  protocol <$> reference_new_URL "httpx://shop.com" = Some "httpx:"
  /\ autoRotateWhitelist shop_policy = []
  /\ autoRotateBlacklist shop_policy = ["localhost"]
  /\ @shouldAutoRotate reference_URL shop_policy "httpx://shop.com" = true.
Proof. repeat split; reflexivity. Qed.

(* ===================================================================== *)
(** * Properties of the insertion-ordered map                             *)
(* ===================================================================== *)

Section OMapFacts.

Context {V : Type}.
Implicit Types (m : list (string * V)) (k : string) (v : V).

Lemma OMap_get_None_notin k m :
  OMap.get k m = None <-> ~ In k (map fst m).
Proof.
  induction m as [|[k' v'] m IH]; cbn; [tauto|].
  destruct (String.eqb_spec k k') as [->|Hne].
  - split; [discriminate|intros Hn; exfalso; apply Hn; now left].
  - rewrite IH. split; [intros Hn [Heq|Hin]; [congruence|tauto]|tauto].
Qed.

Lemma OMap_get_set_eq k v m : OMap.get k (OMap.set k v m) = Some v.
Proof.
  induction m as [|[k' v'] m IH]; cbn.
  - now rewrite String.eqb_refl.
  - destruct (String.eqb_spec k k') as [->|Hne]; cbn.
    + now rewrite String.eqb_refl.
    + destruct (String.eqb_spec k k'); [congruence|exact IH].
Qed.

Lemma OMap_get_set_ne k k' v m :
  k <> k' -> OMap.get k' (OMap.set k v m) = OMap.get k' m.
Proof.
  intros Hne. induction m as [|[k0 v0] m IH]; cbn.
  - destruct (String.eqb_spec k' k); [congruence|reflexivity].
  - destruct (String.eqb_spec k k0) as [->|Hne0]; cbn.
    + destruct (String.eqb_spec k' k0); [congruence|reflexivity].
    + destruct (String.eqb_spec k' k0); [reflexivity|exact IH].
Qed.

Lemma OMap_keys_set k v m :
  map fst (OMap.set k v m)
  = if OMap.has k m then map fst m else (map fst m ++ [k])%list.
Proof.
  unfold OMap.has. induction m as [|[k' v'] m IH]; cbn; [reflexivity|].
  destruct (String.eqb_spec k k') as [->|Hne]; cbn; [reflexivity|].
  rewrite IH. now destruct (OMap.get k m).
Qed.

Lemma OMap_wf_set k v m : OMap.wf m -> OMap.wf (OMap.set k v m).
Proof.
  unfold OMap.wf. intros Hwf. rewrite OMap_keys_set. unfold OMap.has.
  destruct (OMap.get k m) eqn:Hg; [exact Hwf|].
  apply OMap_get_None_notin in Hg.
  apply NoDup_app. repeat split.
  - exact Hwf.
  - intros x Hx Hk. apply list_elem_of_In in Hx.
    apply list_elem_of_In in Hk. cbn in Hk. destruct Hk as [<-|[]]. tauto.
  - apply NoDup_singleton.
Qed.

Lemma OMap_wf_tail k v m : OMap.wf ((k, v) :: m) -> OMap.wf m /\ OMap.get k m = None.
Proof.
  unfold OMap.wf. cbn. intros Hwf. inversion Hwf as [|? ? Hnotin Hnd]; subst.
  split; [exact Hnd|]. apply OMap_get_None_notin.
  intros Hin. apply Hnotin. now apply list_elem_of_In.
Qed.

Lemma OMap_keys_delete k m x :
  In x (map fst (OMap.delete k m)) -> In x (map fst m).
Proof.
  induction m as [|[k' v'] m IH]; cbn; [tauto|].
  destruct (String.eqb k k'); cbn; tauto.
Qed.

Lemma OMap_wf_delete k m : OMap.wf m -> OMap.wf (OMap.delete k m).
Proof.
  unfold OMap.wf. induction m as [|[k' v'] m IH]; cbn; [tauto|].
  intros Hwf. inversion Hwf as [|? ? Hnotin Hnd]; subst.
  destruct (String.eqb k k'); [exact Hnd|]. cbn.
  constructor; [|now apply IH].
  intros Hin. apply Hnotin. apply list_elem_of_In.
  apply list_elem_of_In in Hin. eapply OMap_keys_delete, Hin.
Qed.

End OMapFacts.

(* ===================================================================== *)
(** * Properties of the response cache                                    *)
(* ===================================================================== *)

Section Cache.

Implicit Types (cm : CacheManager) (key : string) (v : jsval) (now : Z).

(** The constructor never yields a zero bound, and yields a positive one
    from any configured size that is not negative. *)
Lemma CacheManager_new_maxSize c :
  (forall n, cc_maxSize c = Some n -> 0 <= n) -> 0 < maxSize (CacheManager_new c).
Proof.
  intros Hc. cbn. unfold num_or. destruct (cc_maxSize c) as [n|]; [|lia].
  specialize (Hc n eq_refl). destruct (Z.eqb_spec n 0); lia.
Qed.

(** Every cache that the operations can reach is a well-formed map. *)
Lemma CacheManager_new_wf c : OMap.wf (cache (CacheManager_new c)).
Proof. cbn. constructor. Qed.

Lemma CacheManager_set_wf now key v cm :
  OMap.wf (cache cm) -> OMap.wf (cache (CacheManager_set now key v cm)).
Proof.
  intros Hwf. unfold CacheManager_set. cbn.
  apply OMap_wf_set.
  destruct (OMap.size (cache cm) >=? maxSize cm); [|exact Hwf].
  destruct (OMap.first_key (cache cm)); [now apply OMap_wf_delete|exact Hwf].
Qed.

Lemma CacheManager_get_wf now key cm :
  OMap.wf (cache cm) -> OMap.wf (cache (snd (CacheManager_get now key cm))).
Proof.
  intros Hwf. unfold CacheManager_get.
  destruct (OMap.get key (cache cm)) as [e|]; [|exact Hwf].
  destruct (now - entry_timestamp e >? ttl cm); [|exact Hwf].
  cbn. now apply OMap_wf_delete.
Qed.

(** Reading a live entry returns its data and leaves the cache, and so the
    order of its entries, as it was. *)
Lemma CacheManager_get_live now key cm e :
  OMap.get key (cache cm) = Some e ->
  now - entry_timestamp e <= ttl cm ->
  CacheManager_get now key cm = (entry_data e, cm).
Proof.
  intros Hg Hlive. unfold CacheManager_get. rewrite Hg.
  destruct (Z.gtb_spec (now - entry_timestamp e) (ttl cm)); [lia|reflexivity].
Qed.

(** C4.  When the cache holds at least [maxSize] entries before an
    insertion ([maxSize] positive, as the constructor makes it), [set]
    removes exactly the entry at the head of the insertion order, the
    earliest inserted of those present, and then stores the new entry in
    what remains: every other key keeps its entry, the evicted key is
    gone unless it is the key being stored, and the new entry is present.
    Reading does not change the order, so eviction follows insertion and
    not access.  With [maxSize = 2], storing [k1], [k2], [k3] in this order
    leaves [k2] and [k3] and no [k1], also when [k1] was read in between. *)
Theorem set_evicts_first_inserted now key v cm :
  OMap.wf (cache cm) ->
  0 < maxSize cm ->
  maxSize cm <= OMap.size (cache cm) ->
  (exists k0 e0 rest,
      let cm' := CacheManager_set now key v cm in
      cache cm = (k0, e0) :: rest
      /\ cache cm' = OMap.set key (mkCacheEntry v now) rest
      /\ OMap.get key (cache cm') = Some (mkCacheEntry v now)
      /\ (key <> k0 -> OMap.get k0 (cache cm') = None)
      /\ (forall k, k <> k0 -> k <> key ->
                    OMap.get k (cache cm') = OMap.get k (cache cm))
      /\ OMap.wf (cache cm'))
  /\ (let c3 := CacheManager_set 3 "k3" (VString "v3") cache_of_two in
      map fst (cache cache_of_two) = ["k1"; "k2"]
      /\ map fst (cache c3) = ["k2"; "k3"]
      /\ fst (CacheManager_get 4 "k1" c3) = VNull
      /\ fst (CacheManager_get 4 "k2" c3) = VString "v2"
      /\ fst (CacheManager_get 4 "k3" c3) = VString "v3")
  /\ (let '(r, c) := CacheManager_get 3 "k1" cache_of_two in
      r = VString "v1"
      /\ map fst (cache (CacheManager_set 4 "k3" (VString "v3") c))
         = ["k2"; "k3"]).
Proof.
  intros Hwf Hpos Hfull. split; [|split; [repeat split; reflexivity|split; reflexivity]].
  destruct (cache cm) as [|[k0 e0] rest] eqn:Hc.
  { unfold OMap.size in Hfull. cbn in Hfull. lia. }
  exists k0, e0, rest. cbv zeta.
  destruct (OMap_wf_tail k0 e0 rest Hwf) as [Hwf' Hk0].
  assert (Hcache : cache (CacheManager_set now key v cm)
                   = OMap.set key (mkCacheEntry v now) rest).
  { unfold CacheManager_set. rewrite Hc. cbn [cache set_cache].
    destruct (Z.geb_spec (OMap.size ((k0, e0) :: rest)) (maxSize cm)); [|lia].
    cbn [OMap.first_key OMap.delete]. now rewrite String.eqb_refl. }
  rewrite Hcache.
  split; [reflexivity|]. split; [reflexivity|].
  split; [apply OMap_get_set_eq|].
  split; [intros Hne; now rewrite OMap_get_set_ne|].
  split; [|now apply OMap_wf_set].
  intros k Hk0' Hkey. rewrite OMap_get_set_ne by congruence.
  cbn [OMap.get]. destruct (String.eqb_spec k k0); [congruence|reflexivity].
Qed.

Lemma set_evicts_first_inserted_witness :
  exists k0 e0 rest,
    cache cache_of_two = (k0, e0) :: rest
    /\ cache (CacheManager_set 3 "k3" (VString "v3") cache_of_two)
       = OMap.set "k3" (mkCacheEntry (VString "v3") 3) rest.
Proof.
  destruct (proj1 (set_evicts_first_inserted 3 "k3" (VString "v3") cache_of_two
                     ltac:(apply CacheManager_set_wf, CacheManager_set_wf,
                             CacheManager_new_wf)
                     ltac:(reflexivity)
                     ltac:(vm_compute; discriminate)))
    as (k0 & e0 & rest & H1 & H2 & _).
  exists k0, e0, rest. split; assumption.
Defined.

End Cache.

(* ===================================================================== *)
(** * Properties of the request handler                                   *)
(* ===================================================================== *)

Section Handler.

Variables (net : Network) (now : Z) (meth : string) (rq : Request) (m : Z).
Variable failure : Z -> exn.

(** Every attempt of the loop fails: attempt [i] with [failure i]. *)
Hypothesis always_fails : forall i, 0 <= i <= m -> net i rq = Throw (failure i).

Lemma attempt_try_fails i st :
  0 <= i <= m ->
  attempt_try net now meth rq i st = inl (failure i, log (Execute i rq) st).
Proof. intros Hi. unfold attempt_try. now rewrite always_fails. Qed.

Lemma retryLoop_past_end a e st :
  m < a ->
  retryLoop net now meth rq m a e st
  = (Throw e, mkRun (errors_incr (gw st)) (ctl st) (trace st)).
Proof.
  intros Ha. rewrite retryLoop_equation_1.
  destruct (Z_le_gt_dec a m); [lia|reflexivity].
Qed.

Lemma retryLoop_failed_attempt a e st :
  0 <= a <= m ->
  retryLoop net now meth rq m a e st
  = retryLoop net now meth rq m (a + 1) (failure a)
      (if a <? m then log (Delay (2 ^ a * 1000)) (log (Execute a rq) st)
       else log (Execute a rq) st).
Proof.
  intros Ha. rewrite retryLoop_equation_1.
  destruct (Z_le_gt_dec a m); [|lia].
  cbn. rewrite attempt_try_fails by lia. reflexivity.
Qed.

(** The loop entered at attempt [a]: it runs the attempts [a] to [m], waits
    after each but the last, counts one error and throws what attempt [m]
    threw. *)
Lemma retryLoop_always_fails (k : nat) :
  forall a e st,
    0 <= a <= m ->
    Z.to_nat (m - a) = k ->
    retryLoop net now meth rq m a e st
    = (Throw (failure m),
       mkRun (errors_incr (gw st)) (ctl st)
         (trace st
          ++ flat_map (fun i => [Execute i rq; Delay (2 ^ i * 1000)])
                      (seqZ a (m - a))
          ++ [Execute m rq])%list).
Proof.
  induction k as [|k IH]; intros a e st Ha Hk.
  - assert (a = m) as -> by lia.
    rewrite retryLoop_failed_attempt by lia.
    rewrite Z.ltb_irrefl, retryLoop_past_end by lia.
    rewrite Z.sub_diag. reflexivity.
  - rewrite retryLoop_failed_attempt by lia.
    destruct (Z.ltb_spec a m); [|lia].
    rewrite (IH (a + 1)) by lia.
    rewrite (seqZ_cons a (m - a)) by lia.
    replace (Z.pred (m - a)) with (m - (a + 1)) by lia.
    replace (Z.succ a) with (a + 1) by lia.
    cbn. rewrite <- !app_assoc. reflexivity.
Qed.

End Handler.

Section Traces.

Variable rq : Request.

Lemma attempts_app tr1 tr2 :
  attempts (tr1 ++ tr2) = (attempts tr1 ++ attempts tr2)%list.
Proof. apply omap_app. Qed.

Lemma delays_app tr1 tr2 :
  delays (tr1 ++ tr2) = (delays tr1 ++ delays tr2)%list.
Proof. apply omap_app. Qed.

Lemma attempts_rounds (l : list Z) :
  attempts (flat_map (fun i => [Execute i rq; Delay (2 ^ i * 1000)]) l) = l.
Proof.
  unfold attempts. induction l as [|i l IH]; [reflexivity|].
  cbn. now rewrite IH.
Qed.

Lemma delays_rounds (l : list Z) :
  delays (flat_map (fun i => [Execute i rq; Delay (2 ^ i * 1000)]) l)
  = (fun i => 2 ^ i * 1000) <$> l.
Proof.
  unfold delays. induction l as [|i l IH]; [reflexivity|].
  cbn. now rewrite IH.
Qed.

(** A back-off trace holds the attempts 0 to [m], that is [m + 1] of them,
    and the waits [2^0 * 1000], ..., [2^(m-1) * 1000]. *)
Lemma backoff_trace_attempts m :
  0 <= m -> attempts (backoff_trace rq m) = seqZ 0 (m + 1).
Proof.
  intros Hm. unfold backoff_trace. rewrite attempts_app, attempts_rounds.
  rewrite (seqZ_app 0 m 1) by lia. reflexivity.
Qed.

Lemma backoff_trace_delays m :
  delays (backoff_trace rq m) = (fun i => 2 ^ i * 1000) <$> seqZ 0 m.
Proof.
  unfold backoff_trace. rewrite delays_app, delays_rounds. cbn.
  now rewrite app_nil_r.
Qed.

End Traces.

Lemma attempts_admission g : attempts (admission g) = [].
Proof. unfold admission. now destruct (rateLimiter g). Qed.

Lemma delays_admission g : delays (admission g) = [].
Proof. unfold admission. now destruct (rateLimiter g). Qed.

(** The cache lookup leaves the configuration and the metrics alone. *)
Lemma lookup_cached_frame tget meth rq g :
  config (snd (lookup_cached tget meth rq g)) = config g
  /\ metrics (snd (lookup_cached tget meth rq g)) = metrics g.
Proof.
  unfold lookup_cached. destruct (gw_cache g) as [cm|]; [|now split].
  destruct (String.eqb meth "GET"); [|now split].
  destruct (CacheManager_get tget (cacheKey rq) cm). now split.
Qed.

(** The constructor stores the configured number of retries, except that
    [config.retries || 3] stores 3 for a configured 0 as it does for none. *)
Lemma APIGateway_new_retries `{URLApi} base c :
  retries (config (APIGateway_new base c)) = num_or (cfg_retries c) 3.
Proof. reflexivity. Qed.

(** A cache hit answers before the network is tried: the request counter
    grows and no attempt is made. *)
Lemma createHandler_cache_hit `{URLApi} `{Base64}
    net tget tset meth path payload o g pm rq0 rq :
  buildRequest g meth path payload o = Normal rq0 ->
  runRequestInterceptors (request (interceptors (config g))) pm rq0 = Normal rq ->
  truthy (fst (lookup_cached tget meth rq g)) = true ->
  let out := createHandler net tget tset meth path payload o g pm in
  fst out = Normal (fst (lookup_cached tget meth rq g))
  /\ attempts (trace (snd out)) = [].
Proof.
  intros Hbuild Hint Hhit. cbv zeta. unfold createHandler.
  rewrite Hbuild, Hint.
  destruct (lookup_cached tget meth rq g) as [cached g1].
  cbn [fst] in *. rewrite Hhit. cbn [fst snd trace].
  split; [reflexivity|apply attempts_admission].
Qed.

(** C5, amended.  A client whose limiter, if it has one, admits and whose
    configuration holds [retries = m], which is what the constructor
    stores for a client configured with a retry count [m] other than 0
    (last conjunct), executing a request that reaches the network (the
    request is built, the request interceptors pass and the cache lookup
    finds nothing) against an endpoint whose every attempt fails: the
    handler makes the attempts 0 to [m], [m + 1] in all, waits
    [2^i * 1000] ms after attempt [i] for every [i] but the last, adds
    exactly one to the error counter and none to the request counter, and
    throws to its caller what attempt [m] threw and nothing of the earlier
    failures. *)
Theorem handler_exhausts_retries `{URLApi} `{Base64}
    (net : Network) (tget tset : Z) (meth path : string)
    (payload : list (string * string)) (o : Options)
    (g : APIGateway) (pm : ProxyManager)
    (rq0 rq : Request) (failure : Z -> exn) (m : Z) :
  limiter_admits g ->
  retries (config g) = m ->
  0 <= m ->
  buildRequest g meth path payload o = Normal rq0 ->
  runRequestInterceptors (request (interceptors (config g))) pm rq0 = Normal rq ->
  truthy (fst (lookup_cached tget meth rq g)) = false ->
  (forall i, 0 <= i <= m -> net i rq = Throw (failure i)) ->
  let out := createHandler net tget tset meth path payload o g pm in
  fst out = Throw (failure m)
  /\ trace (snd out) = (admission g ++ backoff_trace rq m)%list
  /\ attempts (trace (snd out)) = seqZ 0 (m + 1)
  /\ Z.of_nat (length (attempts (trace (snd out)))) = m + 1
  /\ delays (trace (snd out)) = (fun i => 2 ^ i * 1000) <$> seqZ 0 m
  /\ errors (metrics (gw (snd out))) = errors (metrics g) + 1
  /\ requests (metrics (gw (snd out))) = requests (metrics g)
  /\ ctl (snd out) = pm
  /\ (forall base c,
        cfg_retries c = Some m -> m <> 0 ->
        retries (config (APIGateway_new base c)) = m).
Proof.
  intros _ Hm Hpos Hbuild Hint Hmiss Hfail out.
  assert (Hout : out
    = (Throw (failure m),
       mkRun (errors_incr (snd (lookup_cached tget meth rq g))) pm
             (admission g ++ backoff_trace rq m)%list)).
  { subst out. unfold createHandler. rewrite Hbuild, Hint.
    destruct (lookup_cached tget meth rq g) as [cached g1] eqn:Hl.
    cbn [fst snd] in *. rewrite Hmiss.
    pose proof (lookup_cached_frame tget meth rq g) as [Hcfg _].
    rewrite Hl in Hcfg. cbn [snd] in Hcfg. rewrite Hcfg, Hm.
    rewrite (retryLoop_always_fails net tset meth rq m failure Hfail
               (Z.to_nat m) 0) by lia.
    rewrite Z.sub_0_r. reflexivity. }
  rewrite Hout. cbn [fst snd trace gw ctl].
  pose proof (lookup_cached_frame tget meth rq g) as [_ Hmet].
  rewrite attempts_app, delays_app, attempts_admission, delays_admission.
  rewrite backoff_trace_attempts, backoff_trace_delays by lia.
  cbn [app]. rewrite length_seqZ.
  unfold errors_incr. cbn. rewrite Hmet.
  repeat split; try lia.
  intros base c Hc Hne. unfold num_or. rewrite Hc.
  destruct (Z.eqb_spec m 0); [congruence|reflexivity].
Qed.

Lemma handler_exhausts_retries_witness :
  let out := @createHandler reference_URL reference_Base64 always_failing 0 0
               "POST" "/users" [("name", "John")] no_options
               retry_twice_client (ProxyManager_new 0) in
  fst out = Throw (Error "third attempt failed")
  /\ delays (trace (snd out)) = [1000; 2000]
  /\ attempts (trace (snd out)) = [0; 1; 2].
Proof.
  pose proof (@handler_exhausts_retries reference_URL reference_Base64
                always_failing 0 0 "POST" "/users" [("name", "John")]
                no_options retry_twice_client (ProxyManager_new 0)
                _ _ attempt_error 2 I
                eq_refl ltac:(vm_compute; discriminate) eq_refl eq_refl eq_refl
                (fun i _ => eq_refl))
    as (H1 & _ & H3 & _ & H5 & _).
  cbv zeta. split; [exact H1|]. split; [exact H5|exact H3].
Defined.

(** C5 as the specification words it fails in three ways.  A client
    configured with a retry count of 0 does not make one attempt against
    an endpoint that always fails: the constructor stores 3 for the 0, and
    the handler makes four attempts with three waits.  The limiter of a
    client configured with a negative [maxRequests] resolves no [acquire],
    neither in the call nor when its timer fires, so that the handler of
    that client makes no attempt and throws nothing.  And against an
    endpoint that answers every attempt with the status 500 a client
    configured with two retries makes one attempt, returns the body of
    the answer and counts a request and no error: [executeRequest] throws
    for a failure of the network and not for a status. *)
Lemma handler_attempts_differ_from_configured :
  let out := @createHandler reference_URL reference_Base64 always_failing 0 0
               "POST" "/users" [("name", "John")] no_options
               zero_retries_client (ProxyManager_new 0) in
  let out500 := @createHandler reference_URL reference_Base64 answers_500 0 0
                  "POST" "/users" [("name", "John")] no_options
                  retry_twice_client (ProxyManager_new 0) in
  limiter_admits zero_retries_client
  /\ attempts (trace (snd out)) = [0; 1; 2; 3]
  /\ Z.of_nat (length (attempts (trace (snd out)))) <> 0 + 1
  /\ delays (trace (snd out)) = [1000; 2000; 4000]
  /\ ~ limiter_admits blocked_client
  /\ (snd <$> (limiter_run [Call 0; TimerFires; TimerFires]
                <$> limiter_of blocked_client))
     = Some [[SetTimeout 1000]; [SetTimeout 1000]; [SetTimeout 1000]]
  /\ fst out500 = Normal (VString "failed")
  /\ attempts (trace (snd out500)) = [0]
  /\ errors (metrics (gw (snd out500))) = 0
  /\ requests (metrics (gw (snd out500))) = 1.
Proof.
  cbv zeta. split; [exact I|]. split; [reflexivity|].
  split; [vm_compute; discriminate|]. split; [reflexivity|].
  split; [vm_compute; intros Hle; now apply Hle|].
  split; [reflexivity|]. repeat split; reflexivity.
Qed.

(* ===================================================================== *)
(** * Properties of the request builder                                   *)
(* ===================================================================== *)

Section BuildRequest.

Context `{URLApi} `{Base64}.
Implicit Types (g : APIGateway) (o : Options) (rq : Request).

(** Without per-call headers, and without an authentication that writes
    the header itself, the request carries the forced JSON content type. *)
Lemma buildRequest_forced_content_type g meth path payload o rq :
  opt_headers o = None ->
  authentication (config g) = None ->
  buildRequest g meth path payload o = Normal rq ->
  headers rq !! "Content-Type" = Some "application/json".
Proof.
  intros Ho Ha. unfold buildRequest.
  destruct (new_URL (baseUrl g ++ normalizePath path)); [|discriminate].
  rewrite Ha. intros [= <-]. unfold spread_options. rewrite Ho. cbn.
  apply lookup_insert_eq.
Qed.

(** With per-call headers, the headers of the request are the caller's
    object itself: the final spread of [options] replaces the merged
    headers, the forced content type and the authentication with it. *)
Lemma buildRequest_headers_from_options g meth path payload o h rq :
  opt_headers o = Some h ->
  buildRequest g meth path payload o = Normal rq ->
  headers rq = h.
Proof.
  intros Ho. unfold buildRequest.
  destruct (new_URL (baseUrl g ++ normalizePath path)); [|discriminate].
  intros [= <-]. unfold spread_options. now rewrite Ho.
Qed.

End BuildRequest.

(** C9.  A caller-supplied content type is not overridden: for every
    method, the request built for per-call headers
    [{ 'Content-Type': 'text/plain' }] has the content type [text/plain]. *)
Theorem buildRequest_keeps_caller_content_type `{Base64} :
  forall meth,
  exists rq,
    @buildRequest reference_URL _ example_client meth "/users"
      [("name", "John")] text_plain_options = Normal rq
    /\ headers rq !! "Content-Type" = Some "text/plain"
    /\ headers rq !! "Content-Type" <> Some "application/json".
Proof.
  intros meth. unfold buildRequest.
  change (@new_URL reference_URL (baseUrl example_client ++ normalizePath "/users"))
    with (reference_new_URL "https://api.example.com/users").
  destruct (reference_new_URL "https://api.example.com/users") as [u|] eqn:Hu;
    [|discriminate Hu].
  eexists. split; [reflexivity|].
  unfold spread_options, text_plain_options. cbn [opt_headers default headers].
  split; [now vm_compute|vm_compute; discriminate].
Qed.

(* ===================================================================== *)
(** * Properties of the gateway registry                                  *)
(* ===================================================================== *)

Section Registry.

Context `{URLApi}.
Implicit Types (f : APIGatewayFactory) (s : Store) (c : Config) (u : string).


(** [create] on a parseable URL returns a client: the registered one if
    the origin has one, a newly allocated one otherwise. *)
Lemma create_registered u c f s parsed l :
  new_URL u = Some parsed ->
  gateways f !! origin parsed = Some l ->
  create u c f s = Normal (l, f, s).
Proof. intros Hp Hl. unfold create. now rewrite Hp, Hl. Qed.

Lemma create_fresh u c f s parsed :
  new_URL u = Some parsed ->
  gateways f !! origin parsed = None ->
  create u c f s
  = Normal (next s,
            set_gateways (<[origin parsed := next s]> (gateways f)) f,
            mkStore (<[next s := APIGateway_new (origin parsed) c]> (objs s))
                    (S (next s))).
Proof. intros Hp Hl. unfold create. now rewrite Hp, Hl. Qed.

Lemma create_total u c f s parsed :
  new_URL u = Some parsed ->
  exists l f' s',
    create u c f s = Normal (l, f', s')
    /\ gateways f' !! origin parsed = Some l.
Proof.
  intros Hp. destruct (gateways f !! origin parsed) as [l|] eqn:Hl.
  - exists l, f, s. split; [exact (create_registered u c f s parsed l Hp Hl)|exact Hl].
  - eexists _, _, _. split; [exact (create_fresh u c f s parsed Hp Hl)|].
    unfold set_gateways. cbn [gateways]. apply lookup_insert_eq.
Qed.

Lemma create_unparseable u c f s :
  new_URL u = None -> create u c f s = Throw (TypeError "Invalid URL").
Proof. intros Hp. unfold create. now rewrite Hp. Qed.

(** [create] keeps the registry sound and keeps every entry it had. *)
Lemma create_registry_ok u c f s l f' s' :
  registry_ok f s ->
  create u c f s = Normal (l, f', s') ->
  registry_ok f' s'
  /\ (forall o l0, gateways f !! o = Some l0 -> gateways f' !! o = Some l0).
Proof.
  intros [Hlt Hinj]. unfold create.
  destruct (new_URL u) as [parsed|]; [|discriminate].
  destruct (gateways f !! origin parsed) as [l0|] eqn:Hl.
  - intros [= <- <- <-]. repeat split; auto.
  - cbn. intros [= <- <- <-]. unfold registry_ok, set_gateways. cbn [gateways next].
    split; [split|].
    + intros o l0. rewrite lookup_insert.
      case_decide; [intros [= <-]; lia|].
      intros Ho. specialize (Hlt _ _ Ho). lia.
    + intros o1 o2 l0. rewrite !lookup_insert.
      repeat case_decide; try congruence.
      * intros [= <-] Ho. specialize (Hlt _ _ Ho). lia.
      * intros Ho [= <-]. specialize (Hlt _ _ Ho). lia.
      * apply Hinj.
    + intros o l0 Ho. rewrite lookup_insert_ne; [exact Ho|congruence].
Qed.

Lemma remove_registry_ok u f s b f' :
  registry_ok f s -> remove u f = Normal (b, f') -> registry_ok f' s.
Proof.
  intros [Hlt Hinj]. unfold remove.
  destruct (new_URL u) as [parsed|]; [|discriminate].
  intros [= <- <-]. unfold registry_ok, set_gateways. split; cbn [gateways].
  - intros o l. rewrite lookup_delete. case_decide; [discriminate|apply Hlt].
  - intros o1 o2 l. rewrite !lookup_delete.
    repeat case_decide; try discriminate. apply Hinj.
Qed.

Lemma clearAll_registry_ok f s : registry_ok (clearAll f) s.
Proof.
  unfold registry_ok, clearAll, set_gateways.
  split; cbn [gateways]; intros *; rewrite lookup_empty; discriminate.
Qed.


End Registry.


(** The example of the design document: the same origin under two paths
    is one client, another origin is another client. *)
Example create_three_urls :
  match @create reference_URL "https://api.example.com/a?x=1" empty_config
          APIGatewayFactory_new empty_store with
  | Normal (l1, f1, s1) =>
      match @create reference_URL "https://api.example.com/b" empty_config f1 s1 with
      | Normal (l2, f2, s2) =>
          match @create reference_URL "https://api2.example.com/a" empty_config
                  f2 s2 with
          | Normal (l3, _, _) => l1 = l2 /\ l1 <> l3
          | Throw _ => False
          end
      | Throw _ => False
      end
  | Throw _ => False
  end.
Proof. vm_compute. split; [reflexivity|discriminate]. Qed.

(* ===================================================================== *)
(** * Properties of the gateway lifecycle                                 *)
(* ===================================================================== *)

Section Lifecycle.

Context `{URLApi} `{ChromeRuntime}.
Implicit Types (pm : ProxyManager) (s : Store) (c : Config) (u : string).

(** The controller answers from its own directory when the origin is in
    it, and changes nothing. *)
Lemma createAPIGatewayForURL_existing u c pm s parsed l :
  new_URL u = Some parsed ->
  activeGateways pm !! origin parsed = Some l ->
  createAPIGatewayForURL u c pm s = (already_exists l, pm, s).
Proof. intros Hp Hl. unfold createAPIGatewayForURL. now rewrite Hp, Hl. Qed.

(** Whenever the controller returns a client, its directory holds that
    client under the origin of the URL. *)
Lemma createAPIGatewayForURL_records u c pm s parsed r pm' s' l :
  new_URL u = Some parsed ->
  createAPIGatewayForURL u c pm s = (r, pm', s') ->
  gateway r = Some l ->
  activeGateways pm' !! origin parsed = Some l.
Proof.
  intros Hp. unfold createAPIGatewayForURL. rewrite Hp.
  destruct (activeGateways pm !! origin parsed) as [l0|] eqn:Hl.
  - intros [= <- <- <-] [= <-]. exact Hl.
  - destruct (createFromTemplate _ _ _ _ _) as [[[l0 f] s0]|e].
    + intros [= <- <- <-] [= <-]. cbn. apply lookup_insert_eq.
    + intros [= <- <- <-]. discriminate.
Qed.

(** C10, amended.  For two URLs of one origin: when the registry already
    holds a client for the origin, [create] returns that client whatever
    configuration it is given and leaves the registry and the store, and
    with them the stored configuration of the client, exactly as they
    were; so does a second [create] after a first.  The same holds of
    [createAPIGatewayForURL] and the controller's directory: a call for an
    origin that is in it, and a second call after a first that returned a
    client, return that client and change neither the controller nor the
    store. *)
Theorem existing_client_ignores_configuration
    u1 u2 c1 c2 parsed1 parsed2 :
  new_URL u1 = Some parsed1 ->
  new_URL u2 = Some parsed2 ->
  origin parsed1 = origin parsed2 ->
  (forall f s l,
      gateways f !! origin parsed2 = Some l ->
      create u2 c2 f s = Normal (l, f, s))
  /\ (forall f s l f1 s1,
         create u1 c1 f s = Normal (l, f1, s1) ->
         create u2 c2 f1 s1 = Normal (l, f1, s1))
  /\ (forall pm s l,
         activeGateways pm !! origin parsed2 = Some l ->
         createAPIGatewayForURL u2 c2 pm s = (already_exists l, pm, s))
  /\ (forall pm s r pm1 s1 l,
         createAPIGatewayForURL u1 c1 pm s = (r, pm1, s1) ->
         gateway r = Some l ->
         createAPIGatewayForURL u2 c2 pm1 s1 = (already_exists l, pm1, s1)).
Proof.
  intros Hp1 Hp2 Ho. repeat split.
  - intros f s l Hl. now apply (create_registered u2 c2 f s parsed2).
  - intros f s l f1 s1 Hc.
    destruct (create_total u1 c1 f s parsed1 Hp1) as (l' & f' & s' & Hc' & Hg).
    rewrite Hc in Hc'. injection Hc' as <- <- <-.
    apply (create_registered u2 c2 f1 s1 parsed2); [exact Hp2|congruence].
  - intros pm s l Hl. now apply (createAPIGatewayForURL_existing u2 c2 pm s parsed2).
  - intros pm s r pm1 s1 l Hc Hr.
    apply (createAPIGatewayForURL_existing u2 c2 pm1 s1 parsed2); [exact Hp2|].
    rewrite <- Ho. exact (createAPIGatewayForURL_records _ _ _ _ _ _ _ _ _ Hp1 Hc Hr).
Qed.

End Lifecycle.

Lemma existing_client_ignores_configuration_witness :
  @create reference_URL "https://api.example.com/orders?id=7" nine_retries
    registry_with_client store_with_client
  = Normal (0%nat, registry_with_client, store_with_client)
  /\ @createAPIGatewayForURL reference_URL example_runtime
       "https://api.example.com/orders?id=7" nine_retries
       controller_with_client store_with_client
     = (already_exists 0, controller_with_client, store_with_client).
Proof.
  pose proof (@existing_client_ignores_configuration reference_URL example_runtime
                "https://api.example.com/users" "https://api.example.com/orders?id=7"
                empty_config nine_retries _ _ eq_refl eq_refl eq_refl)
    as (Hcreate & _ & Hctl & _).
  split.
  - apply Hcreate. reflexivity.
  - apply Hctl. reflexivity.
Defined.

(** C10 as the specification words it fails for the controller.  After a
    creation and a [removeGateway] of the same URL the client still exists
    in the registry; a further [createAPIGatewayForURL] returns it, and
    its stored configuration is not what it was: its interceptor lists
    have grown by the two interceptors of the controller. *)
Lemma existing_client_reconfigured_after_removal :
  let '(r1, pm1, s1) :=
    @createAPIGatewayForURL reference_URL example_runtime
      "https://api.example.com/users" empty_config (ProxyManager_new 0)
      empty_store in
  let '(_, pm2) :=
    @removeGateway reference_URL "https://api.example.com/users" pm1 in
  let '(r3, pm3, s3) :=
    @createAPIGatewayForURL reference_URL example_runtime
      "https://api.example.com/users" nine_retries pm2 s1 in
  gateway r1 = Some 0%nat
  /\ gateways (gatewayFactory pm2) !! "https://api.example.com" = Some 0%nat
  /\ is_Some (objs s1 !! 0%nat)
  /\ gateway r3 = Some 0%nat
  /\ config <$> objs s3 !! 0%nat <> config <$> objs s1 !! 0%nat
  /\ (length ∘ request ∘ interceptors ∘ config) <$> objs s1 !! 0%nat
     = Some 1%nat
  /\ (length ∘ request ∘ interceptors ∘ config) <$> objs s3 !! 0%nat
     = Some 2%nat.
Proof.
  vm_compute. split; [reflexivity|]. split; [reflexivity|].
  split; [eexists; reflexivity|]. split; [reflexivity|].
  split; [discriminate|]. split; reflexivity.
Qed.

(** Two calls in a row on a new controller: the second, made with other
    settings, returns the client of the first, whose stored configuration
    still holds the defaults of the first call. *)
Example second_configuration_is_discarded :
  let '(r1, pm1, s1) :=
    @createAPIGatewayForURL reference_URL example_runtime
      "https://api.example.com/users" empty_config (ProxyManager_new 0)
      empty_store in
  let '(r2, pm2, s2) :=
    @createAPIGatewayForURL reference_URL example_runtime
      "https://api.example.com/orders?id=7" nine_retries pm1 s1 in
  gateway r1 = Some 0%nat
  /\ r2 = already_exists 0
  /\ (retries ∘ config) <$> objs s2 !! 0%nat = Some 3
  /\ (timeout ∘ config) <$> objs s2 !! 0%nat = Some 30000.
Proof. vm_compute. repeat split; reflexivity. Qed.

(** The controller's directory and the registry are two maps, and
    [removeGateway] clears only the former.  A creation after a removal
    therefore goes through [createFromTemplate]: it gets the registered
    client back from the registry and installs the two interceptors on it
    a second time. *)
Example createAPIGatewayForURL_after_removal :
  let '(r1, pm1, s1) :=
    @createAPIGatewayForURL reference_URL example_runtime
      "https://api.example.com/users" empty_config (ProxyManager_new 0)
      empty_store in
  let '(_, pm2) :=
    @removeGateway reference_URL "https://api.example.com/users" pm1 in
  let '(r3, pm3, s3) :=
    @createAPIGatewayForURL reference_URL example_runtime
      "https://api.example.com/users" nine_retries pm2 s1 in
  gateway r1 = Some 0%nat
  /\ gateway r3 = Some 0%nat
  /\ (retries ∘ config) <$> objs s3 !! 0%nat = Some 3
  /\ (request ∘ interceptors ∘ config) <$> objs s1 !! 0%nat
     = Some [ProxyRoutingInterceptor]
  /\ (request ∘ interceptors ∘ config) <$> objs s3 !! 0%nat
     = Some [ProxyRoutingInterceptor; ProxyRoutingInterceptor].
Proof. vm_compute. repeat split; reflexivity. Qed.

(* ===================================================================== *)
(** * Further properties of the rotation controller                       *)
(* ===================================================================== *)

Section RotationRuns.

Implicit Types (pm : ProxyManager) (rnd : Z) (draws : list Z).

Lemma rotateProxies_cons rnd draws pm :
  rotateProxies (rnd :: draws) pm = rotateProxies draws (rotateProxy rnd pm).
Proof. reflexivity. Qed.

Lemma rotateProxy_mode_endpoints rnd pm :
  rotationMode (rotateProxy rnd pm) = rotationMode pm
  /\ proxyEndpoints (rotateProxy rnd pm) = proxyEndpoints pm.
Proof.
  pose proof (rotateProxy_frame rnd pm) as (Hp & _ & Hm & _). cbv zeta in *.
  now split.
Qed.

(** X1.  Under the sequential policy, over a non-empty list of [N] targets
    and from an index [i] inside the list, [k] rotations leave the index
    at [(i + k) mod N] and add [k] to the rotation count: the targets are
    visited round-robin, and every [N] rotations return to the start. *)
Theorem sequential_rotation_round_robin draws :
  forall pm i,
    rotationMode pm = "sequential" ->
    currentProxyIndex pm = JNum i ->
    0 <= i < Z.of_nat (length (proxyEndpoints pm)) ->
    let n := Z.of_nat (length (proxyEndpoints pm)) in
    let k := Z.of_nat (length draws) in
    currentProxyIndex (rotateProxies draws pm) = JNum ((i + k) mod n)
    /\ rotations (stats (rotateProxies draws pm)) = rotations (stats pm) + k
    /\ (k mod n = 0 -> currentProxyIndex (rotateProxies draws pm) = JNum i).
Proof.
  induction draws as [|rnd draws IH]; intros pm i Hm Hi Hr; cbv zeta.
  - unfold rotateProxies. cbn [fold_left length]. change (Z.of_nat 0) with 0.
    rewrite Z.add_0_r, Z.mod_small by lia.
    split; [exact Hi|]. split; [lia|intros _; exact Hi].
  - rewrite rotateProxies_cons.
    assert (Hne : proxyEndpoints pm <> []).
    { intros E. rewrite E in Hr. cbn in Hr. lia. }
    pose proof (rotateProxy_sequential rnd pm i Hm Hne Hi ltac:(lia)) as Hi'.
    pose proof (rotateProxy_mode_endpoints rnd pm) as [Hm' Hp'].
    set (n := Z.of_nat (length (proxyEndpoints pm))) in *.
    assert (Hb : 0 <= (i + 1) mod n < n) by (apply Z.mod_pos_bound; lia).
    destruct (IH (rotateProxy rnd pm) ((i + 1) mod n)
                 ltac:(congruence) Hi' ltac:(rewrite Hp'; exact Hb))
      as (Hidx & Hrot & _).
    rewrite Hp' in Hidx. fold n in Hidx.
    cbn [length]. rewrite Nat2Z.inj_succ.
    set (k := Z.of_nat (length draws)) in *.
    assert (Hfinal : currentProxyIndex (rotateProxies draws (rotateProxy rnd pm))
                     = JNum ((i + Z.succ k) mod n)).
    { rewrite Hidx, Z.add_mod_idemp_l by lia. do 2 f_equal. lia. }
    split; [exact Hfinal|]. split.
    + rewrite Hrot, rotateProxy_rotations. lia.
    + intros Hk. rewrite Hfinal. f_equal.
      rewrite <- Z.add_mod_idemp_r, Hk, Z.add_0_r by lia.
      apply Z.mod_small. lia.
Qed.

Lemma sequential_rotation_round_robin_witness :
  currentProxyIndex (rotateProxies [0; 0; 0; 0; 0] three_targets) = JNum 2.
Proof.
  exact (proj1 (sequential_rotation_round_robin [0; 0; 0; 0; 0] three_targets 0
                  eq_refl eq_refl ltac:(vm_compute; split; congruence))).
Defined.

(** X2.  With rotation enabled, a threshold [t] and a counter [c] with
    [0 <= c < t], a run of [n] observed requests performs
    [(c + n) / t] rotations and leaves the counter at [(c + n) mod t];
    the total request count grows by [n]. *)
Theorem handleRequests_from_any_counter draws pm :
  isEnabled pm = true ->
  0 <= requestCount pm < rotateEveryNRequests pm ->
  let n := Z.of_nat (length draws) in
  let t := rotateEveryNRequests pm in
  rotations (stats (handleRequests draws pm))
    = rotations (stats pm) + (requestCount pm + n) / t
  /\ requestCount (handleRequests draws pm) = (requestCount pm + n) mod t
  /\ totalRequests (stats (handleRequests draws pm))
     = totalRequests (stats pm) + n.
Proof.
  intros Hen Hc.
  pose proof (handleRequests_counters draws pm Hen Hc) as (H1 & H2 & H3 & _).
  cbv zeta in *. auto.
Qed.

Lemma handleRequests_from_any_counter_witness :
  rotations (stats (handleRequests [0; 0; 0]
                      (handleRequests [0] two_per_rotation))) = 2.
Proof.
  exact (proj1 (handleRequests_from_any_counter [0; 0; 0]
                  (handleRequests [0] two_per_rotation)
                  eq_refl ltac:(vm_compute; split; congruence))).
Defined.

(** X3.  A threshold of 1 or less, which the frequency message can set to
    zero or to a negative number, makes every observed request rotate: on
    an enabled controller [n] requests perform [n] rotations, and the
    counter is zero after each of them. *)
Theorem threshold_at_most_one_rotates_always draws :
  forall pm,
    isEnabled pm = true ->
    rotateEveryNRequests pm <= 1 ->
    0 <= requestCount pm ->
    rotations (stats (handleRequests draws pm))
      = rotations (stats pm) + Z.of_nat (length draws)
    /\ (draws <> [] -> requestCount (handleRequests draws pm) = 0).
Proof.
  induction draws as [|rnd draws IH]; intros pm Hen Ht Hc.
  - cbn. split; [lia|congruence].
  - change (handleRequests (rnd :: draws) pm)
      with (handleRequests draws (handleRequest rnd pm)).
    pose proof (handleRequest_enabled rnd pm Hen) as (Hen' & Ht' & _ & Hstep).
    cbv zeta in *.
    destruct (Z.geb_spec (requestCount pm + 1) (rotateEveryNRequests pm));
      [|lia].
    destruct Hstep as [Hc1 Hr1].
    destruct (IH (handleRequest rnd pm) Hen' ltac:(lia) ltac:(lia)) as [Hr Hz].
    cbn [length]. rewrite Nat2Z.inj_succ. split; [lia|].
    intros _. destruct draws as [|rnd' draws']; [exact Hc1|].
    apply Hz. discriminate.
Qed.

Lemma threshold_at_most_one_rotates_always_witness :
  rotations (stats (handleRequests [0; 0; 0] zero_threshold)) = 3.
Proof.
  exact (proj1 (threshold_at_most_one_rotates_always [0; 0; 0] zero_threshold
                  eq_refl ltac:(vm_compute; congruence)
                  ltac:(vm_compute; congruence))).
Defined.

End RotationRuns.

Section TargetsAndGateways.

Implicit Types (pm : ProxyManager) (i : Z).

(** X4.  Replacing the target list keeps an index that still exists in the
    new list and restarts at the first target otherwise; either way the
    index ends inside a non-empty list, and the counters are untouched. *)
Theorem updateProxyEndpoints_index endpoints pm i :
  currentProxyIndex pm = JNum i ->
  let pm' := updateProxyEndpoints endpoints pm in
  proxyEndpoints pm' = endpoints
  /\ currentProxyIndex pm'
     = JNum (if Z.of_nat (length endpoints) <=? i then 0 else i)
  /\ index_in_range pm' = true
  /\ stats pm' = stats pm
  /\ requestCount pm' = requestCount pm.
Proof.
  intros Hi. cbv zeta.
  split; [|split; [|split; [now apply (updateProxyEndpoints_numeric_index _ _ i)|]]].
  - unfold updateProxyEndpoints.
    destruct (js_ge _ _); reflexivity.
  - unfold updateProxyEndpoints, js_ge, array_length.
    cbn [currentProxyIndex set_proxyEndpoints]. rewrite Hi.
    destruct (Z.of_nat (length endpoints) <=? i); [reflexivity|].
    cbn. exact Hi.
  - unfold updateProxyEndpoints. destruct (js_ge _ _); split; reflexivity.
Qed.

Lemma updateProxyEndpoints_index_witness :
  currentProxyIndex
    (updateProxyEndpoints [target "D"] (rotateProxies [0; 0] three_targets))
  = JNum 0.
Proof.
  exact (proj1 (proj2 (updateProxyEndpoints_index [target "D"]
                         (rotateProxies [0; 0] three_targets) 2 eq_refl))).
Defined.

(** X5.  In every state of the controller, whatever the index, the
    gateways and the other fields are, [getCurrentProxy] answers [null]
    exactly when no target is configured.  With the index inside the list
    it returns the target at the index together with the index; when
    gateways are configured it adds the gateway at the index modulo the
    number of gateways, which always exists, whatever the two list lengths
    are. *)
Theorem getCurrentProxy_in_range pm :
  (getCurrentProxy pm = None <-> proxyEndpoints pm = [])
  /\ forall i,
       currentProxyIndex pm = JNum i ->
       0 <= i < Z.of_nat (length (proxyEndpoints pm)) ->
       exists p,
         proxyEndpoints pm !! Z.to_nat i = Some p
         /\ (apiGateways pm = [] ->
             getCurrentProxy pm = Some (mkCurrentProxy (Some p) None (JNum i)))
         /\ (apiGateways pm <> [] ->
             exists g,
               apiGateways pm
                 !! Z.to_nat (i mod Z.of_nat (length (apiGateways pm)))
               = Some g
               /\ getCurrentProxy pm
                  = Some (mkCurrentProxy (Some p) (Some (Some g)) (JNum i))).
Proof.
  split.
  - unfold getCurrentProxy.
    destruct (proxyEndpoints pm) as [|e l]; [now split|].
    cbn [length Nat.eqb]. destruct (0 <? length (apiGateways pm))%nat;
      split; discriminate.
  - intros i Hi Hr.
    destruct (lookup_lt_is_Some_2 (proxyEndpoints pm) (Z.to_nat i)
                ltac:(lia)) as [p Hp].
    exists p. split; [exact Hp|].
    assert (Hget : array_get (proxyEndpoints pm) (JNum i) = Some p).
    { unfold array_get. destruct (Z.ltb_spec i 0); [lia|exact Hp]. }
    unfold getCurrentProxy. rewrite Hi, Hget.
    destruct (proxyEndpoints pm) as [|e l] eqn:El; [cbn in Hr; lia|].
    cbn [length Nat.eqb]. split.
    + intros ->. reflexivity.
    + intros Hne.
      destruct (apiGateways pm) as [|g0 gs] eqn:Eg; [congruence|].
      set (n := Z.of_nat (length (g0 :: gs))).
      assert (Hn : 0 < n) by (subst n; cbn [length]; lia).
      pose proof (Z.mod_pos_bound i n Hn) as Hb.
      destruct (lookup_lt_is_Some_2 (g0 :: gs) (Z.to_nat (i mod n))
                  ltac:(subst n; lia)) as [g Hg].
      exists g. split; [exact Hg|].
      cbn [length Nat.ltb Nat.leb].
      unfold js_rem, array_length. fold n.
      destruct (Z.eqb_spec n 0); [lia|].
      rewrite Z.rem_mod_nonneg by lia.
      unfold array_get. destruct (Z.ltb_spec (i mod n) 0); [lia|].
      now rewrite Hg.
Qed.

Lemma getCurrentProxy_in_range_witness :
  getCurrentProxy three_targets_two_gateways
  = Some (mkCurrentProxy (Some (target "C"))
            (Some (Some "https://g1.example.com")) (JNum 2))
  /\ (getCurrentProxy (ProxyManager_new 0) = None
      <-> proxyEndpoints (ProxyManager_new 0) = []).
Proof.
  split; [|exact (proj1 (getCurrentProxy_in_range (ProxyManager_new 0)))].
  destruct (proj2 (getCurrentProxy_in_range three_targets_two_gateways) 2
              eq_refl ltac:(vm_compute; split; congruence))
    as (p & Hp & _ & Hg).
  destruct (Hg ltac:(discriminate)) as (g & Hg1 & Hg2).
  vm_compute in Hp, Hg1. injection Hp as <-. injection Hg1 as <-.
  exact Hg2.
Defined.

End TargetsAndGateways.

(* ===================================================================== *)
(** * Properties of the gateway list and of the whitelist                 *)
(* ===================================================================== *)

Section StringArrays.

Implicit Types (x y : string) (l : list string).

Lemma array_includes_elem x l : array_includes x l = true <-> x ∈ l.
Proof.
  unfold array_includes. rewrite existsb_exists, list_elem_of_In. split.
  - intros (y & Hy & He). apply String.eqb_eq in He. now subst.
  - intros Hx. exists x. split; [exact Hx|apply String.eqb_refl].
Qed.








End StringArrays.

Section GatewayList.

Implicit Types (pm : ProxyManager) (g h : string).





End GatewayList.

(* ===================================================================== *)
(** * Further properties of auto-rotation                                 *)
(* ===================================================================== *)

Section Whitelist.

Context `{URLApi}.
Implicit Types (pm : ProxyManager) (u d : string).

Lemma existsb_false_forall {A : Type} (f : A -> bool) (l : list A) :
  existsb f l = false <-> forall x, x ∈ l -> f x = false.
Proof.
  induction l as [|a l IH]; cbn.
  - split; [intros _ x Hx; now apply elem_of_nil in Hx|reflexivity].
  - rewrite orb_false_iff, IH. split.
    + intros [Ha Hl] x Hx. apply elem_of_cons in Hx as [->|Hx]; auto.
    + intros Hall. split; [apply Hall; left|intros x Hx; apply Hall; now right].
Qed.

Lemma existsb_true_exists {A : Type} (f : A -> bool) (l : list A) :
  existsb f l = true <-> exists x, x ∈ l /\ f x = true.
Proof.
  rewrite existsb_exists. split; intros (x & Hx & Hf); exists x;
    (split; [now apply list_elem_of_In|exact Hf]).
Qed.

(** Past the protocol test and the blacklist, the whitelist decides. *)
Lemma shouldAutoRotate_past_blacklist pm u parsed :
  new_URL u = Some parsed ->
  startsWith (protocol parsed) "http" = true ->
  (forall b, b ∈ autoRotateBlacklist pm ->
             includes (hostname parsed) b = false /\ includes u b = false) ->
  shouldAutoRotate pm u
  = match autoRotateWhitelist pm with
    | [] => true
    | _ :: _ => existsb (fun w => includes (hostname parsed) w)
                        (autoRotateWhitelist pm)
    end.
Proof.
  intros Hp Hs Hb. unfold shouldAutoRotate, shouldAutoRotate_try.
  rewrite Hp, Hs. cbn [negb].
  assert (Hex : existsb (fun b => includes (hostname parsed) b || includes u b)
                        (autoRotateBlacklist pm) = false).
  { apply existsb_false_forall. intros b Hin.
    destruct (Hb b Hin) as [-> ->]. reflexivity. }
  rewrite Hex. destruct (autoRotateWhitelist pm) as [|w ws]; [reflexivity|].
  cbn [length Nat.eqb].
  now destruct (existsb _ (w :: ws)).
Qed.

(** X8.  For a URL that parses, whose protocol begins with [http] and that
    no blacklist entry matches: it is eligible exactly when the whitelist
    is empty or one of its entries is contained in the host name (the
    path and the query are not looked at).  So whitelisting a domain
    admits every host name that contains it, and the first entry added to
    an empty whitelist ends the eligibility of every host name that does
    not contain it. *)
Theorem whitelist_decides_eligibility pm u parsed :
  new_URL u = Some parsed ->
  startsWith (protocol parsed) "http" = true ->
  (forall b, b ∈ autoRotateBlacklist pm ->
             includes (hostname parsed) b = false /\ includes u b = false) ->
  (shouldAutoRotate pm u = true
   <-> autoRotateWhitelist pm = []
       \/ exists w, w ∈ autoRotateWhitelist pm
                    /\ includes (hostname parsed) w = true)
  /\ (forall d, includes (hostname parsed) d = true ->
                shouldAutoRotate (addToWhitelist d pm) u = true)
  /\ (forall d, autoRotateWhitelist pm = [] ->
                includes (hostname parsed) d = false ->
                shouldAutoRotate pm u = true
                /\ shouldAutoRotate (addToWhitelist d pm) u = false).
Proof.
  intros Hp Hs Hb.
  assert (Hadd : forall d,
             autoRotateBlacklist (addToWhitelist d pm) = autoRotateBlacklist pm).
  { intros d. unfold addToWhitelist. now destruct (existsb _ _). }
  split; [|split].
  - rewrite (shouldAutoRotate_past_blacklist pm u parsed Hp Hs Hb).
    destruct (autoRotateWhitelist pm) as [|w ws] eqn:Ew.
    + split; auto.
    + rewrite existsb_true_exists. split; [auto|].
      intros [?|?]; [discriminate|assumption].
  - intros d Hd.
    rewrite (shouldAutoRotate_past_blacklist _ u parsed Hp Hs)
      by (rewrite Hadd; exact Hb).
    assert (Hin : d ∈ autoRotateWhitelist (addToWhitelist d pm)).
    { unfold addToWhitelist.
      destruct (existsb (String.eqb d) (autoRotateWhitelist pm)) eqn:E.
      - now apply array_includes_elem.
      - cbn. apply elem_of_app. right. now apply list_elem_of_singleton. }
    destruct (autoRotateWhitelist (addToWhitelist d pm)) as [|w ws] eqn:Ew;
      [reflexivity|].
    apply existsb_true_exists. exists d. now split.
  - intros d Hw Hd. split.
    + rewrite (shouldAutoRotate_past_blacklist pm u parsed Hp Hs Hb).
      now rewrite Hw.
    + rewrite (shouldAutoRotate_past_blacklist _ u parsed Hp Hs)
        by (rewrite Hadd; exact Hb).
      unfold addToWhitelist. rewrite Hw. cbn. now rewrite Hd.
Qed.

End Whitelist.

Lemma whitelist_decides_eligibility_witness :
  @shouldAutoRotate reference_URL (ProxyManager_new 0) "https://shop.com/cart" = true
  /\ @shouldAutoRotate reference_URL example_only "https://shop.com/cart" = false.
Proof.
  refine (proj2 (proj2 (@whitelist_decides_eligibility reference_URL
            (ProxyManager_new 0) "https://shop.com/cart" _ eq_refl eq_refl _))
            "example.com" eq_refl eq_refl).
  intros b Hb. cbn in Hb.
  repeat (apply elem_of_cons in Hb as [->|Hb]; [split; reflexivity|]).
  now apply elem_of_nil in Hb.
Defined.

Section TabNavigation.

Context `{URLApi} `{ChromeRuntime}.
Implicit Types (pm : ProxyManager) (s : Store) (u : string) (tabId : Z).

(** Creating a gateway touches the two directories of the controller and
    nothing else in it. *)
Lemma createAPIGatewayForURL_frame u c pm s :
  let pm' := snd (fst (createAPIGatewayForURL u c pm s)) in
  tabProxyMap pm' = tabProxyMap pm
  /\ stats pm' = stats pm
  /\ currentProxyIndex pm' = currentProxyIndex pm
  /\ proxyEndpoints pm' = proxyEndpoints pm
  /\ autoRotateWhitelist pm' = autoRotateWhitelist pm
  /\ autoRotateBlacklist pm' = autoRotateBlacklist pm.
Proof.
  unfold createAPIGatewayForURL.
  destruct (new_URL u) as [parsed|]; [|cbn; tauto].
  destruct (activeGateways pm !! origin parsed); [cbn; tauto|].
  destruct (createFromTemplate _ _ _ _ _) as [[[l f] s0]|e]; cbn; tauto.
Qed.

(** X9.  A navigation of a tab to an eligible URL whose host name differs
    from the one recorded for the tab (or is the first seen there)
    performs exactly one rotation and records the host name for that tab
    only.  After it, any navigation of the same tab to a URL of the same
    host name changes nothing, whatever its path. *)
Theorem handleTabUrlChange_domain_change rnd tabId u pm s parsed :
  new_URL u = Some parsed ->
  shouldAutoRotate pm u = true ->
  tabProxyMap pm !! tabId <> Some (hostname parsed) ->
  let pm' := fst (handleTabUrlChange rnd tabId u pm s) in
  let s' := snd (handleTabUrlChange rnd tabId u pm s) in
  tabProxyMap pm' = <[tabId := hostname parsed]> (tabProxyMap pm)
  /\ rotations (stats pm') = rotations (stats pm) + 1
  /\ currentProxyIndex pm' = currentProxyIndex (rotateProxy rnd pm)
  /\ (autoCreateGateways pm = false ->
      s' = s
      /\ pm' = set_tabProxyMap (<[tabId := hostname parsed]> (tabProxyMap pm))
                 (rotateProxy rnd pm))
  /\ (forall rnd2 u2 parsed2,
         new_URL u2 = Some parsed2 ->
         hostname parsed2 = hostname parsed ->
         handleTabUrlChange rnd2 tabId u2 pm' s' = (pm', s')).
Proof.
  intros Hp He Hne. cbv zeta.
  assert (Hrun : handleTabUrlChange rnd tabId u pm s
    = let pm1 := set_tabProxyMap (<[tabId := hostname parsed]> (tabProxyMap pm))
                   (rotateProxy rnd pm) in
      if autoCreateGateways pm
      then (snd (fst (createAPIGatewayForURL u empty_config pm1 s)),
            snd (createAPIGatewayForURL u empty_config pm1 s))
      else (pm1, s)).
  { unfold handleTabUrlChange. rewrite He, Hp. cbn [negb].
    rewrite bool_decide_eq_false_2 by exact Hne.
    cbv zeta.
    replace (tabProxyMap (rotateProxy rnd pm)) with (tabProxyMap pm)
      by (unfold rotateProxy;
          destruct (String.eqb _ _); [|destruct (String.eqb _ _)]; reflexivity).
    replace (autoCreateGateways (set_tabProxyMap _ (rotateProxy rnd pm)))
      with (autoCreateGateways pm)
      by (unfold rotateProxy;
          destruct (String.eqb _ _); [|destruct (String.eqb _ _)]; reflexivity).
    destruct (autoCreateGateways pm); [|reflexivity].
    now destruct (createAPIGatewayForURL _ _ _ _) as [[r pm2] s2]. }
  rewrite Hrun. cbv zeta.
  set (pm1 := set_tabProxyMap _ (rotateProxy rnd pm)).
  assert (Hshape :
    let pm' := fst (if autoCreateGateways pm
                    then (snd (fst (createAPIGatewayForURL u empty_config pm1 s)),
                          snd (createAPIGatewayForURL u empty_config pm1 s))
                    else (pm1, s)) in
    tabProxyMap pm' = tabProxyMap pm1 /\ stats pm' = stats pm1
    /\ currentProxyIndex pm' = currentProxyIndex pm1).
  { destruct (autoCreateGateways pm); cbn [fst]; [|tauto].
    pose proof (createAPIGatewayForURL_frame u empty_config pm1 s)
      as (H1 & H2 & H3 & _). cbv zeta in *. tauto. }
  cbv zeta in Hshape. destruct Hshape as (Ht & Hs & Hi).
  split; [|split; [|split; [|split]]].
  - rewrite Ht. reflexivity.
  - rewrite Hs. subst pm1. cbn [stats set_tabProxyMap].
    apply rotateProxy_rotations.
  - rewrite Hi. reflexivity.
  - intros Hoff. rewrite Hoff. cbn [fst snd]. now split.
  - intros rnd2 u2 parsed2 Hp2 Hh.
    set (out := if autoCreateGateways pm then _ else _) in *.
    unfold handleTabUrlChange.
    destruct (shouldAutoRotate (fst out) u2); cbn [negb];
      [|now destruct out].
    rewrite Hp2, Ht. subst pm1. cbn [tabProxyMap set_tabProxyMap].
    rewrite bool_decide_eq_true_2; [now destruct out|].
    rewrite lookup_insert_eq. congruence.
Qed.

End TabNavigation.

Lemma handleTabUrlChange_domain_change_witness :
  rotations (stats (fst (@handleTabUrlChange reference_URL example_runtime 0 7
                           "https://shop.com/cart" three_targets empty_store)))
  = 1.
Proof.
  exact (proj1 (proj2 (@handleTabUrlChange_domain_change reference_URL
                  example_runtime 0 7 "https://shop.com/cart" three_targets
                  empty_store _ eq_refl eq_refl
                  ltac:(vm_compute; congruence)))).
Defined.

(* ===================================================================== *)
(** * Further properties of the gateway lifecycle                         *)
(* ===================================================================== *)

Lemma num_or_num_or x d : d <> 0 -> num_or (Some (num_or x d)) d = num_or x d.
Proof.
  intros Hd. unfold num_or. destruct x as [v|].
  - destruct (Z.eqb_spec v 0) as [->|Hv].
    + destruct (Z.eqb_spec d 0); [congruence|reflexivity].
    + destruct (Z.eqb_spec v 0); [congruence|reflexivity].
  - destruct (Z.eqb_spec d 0); [congruence|reflexivity].
Qed.

Section Creation.

Context `{URLApi} `{ChromeRuntime}.
Implicit Types (pm : ProxyManager) (s : Store) (c : Config) (u : string).

(** A creation for an origin that the controller's directory does not
    hold goes to the registry under the origin of the origin. *)
Lemma createAPIGatewayForURL_through_registry u c pm s parsed parsed2 t :
  new_URL u = Some parsed ->
  activeGateways pm !! origin parsed = None ->
  new_URL (origin parsed) = Some parsed2 ->
  templates (gatewayFactory pm) !! template_for u = Some t ->
  createAPIGatewayForURL u c pm s
  = match gateways (gatewayFactory pm) !! origin parsed2 with
    | Some l =>
        (gateway_created l (origin parsed),
         set_activeGateways (<[origin parsed := l]> (activeGateways pm))
           (set_gatewayFactory (gatewayFactory pm) pm),
         mkStore (alter install_interceptors l (objs s)) (next s))
    | None =>
        (gateway_created (next s) (origin parsed),
         set_activeGateways (<[origin parsed := next s]> (activeGateways pm))
           (set_gatewayFactory
              (set_gateways (<[origin parsed2 := next s]>
                               (gateways (gatewayFactory pm)))
                 (gatewayFactory pm)) pm),
         mkStore
           (<[next s := install_interceptors
                          (APIGateway_new (origin parsed2)
                             (merge_config t (gatewayConfig_for c)))]> (objs s))
           (S (next s)))
    end.
Proof.
  intros Hp Ha Hp2 Ht. unfold createAPIGatewayForURL. rewrite Hp, Ha.
  fold (template_for u). fold (gatewayConfig_for c).
  unfold createFromTemplate. rewrite Ht. unfold create. rewrite Hp2.
  destruct (gateways (gatewayFactory pm) !! origin parsed2) as [l|];
    [reflexivity|].
  unfold alloc. cbn [next objs]. rewrite alter_insert_eq. reflexivity.
Qed.

(** X10.  A gateway created by the controller for an origin that neither
    its directory nor the registry holds is a new client, entered in both.
    Its timeout, retries, headers and cache policy come from the caller's
    configuration and the controller's defaults alone (30000 ms, 3
    retries, the two extension headers under the caller's, a cache of 50
    entries for 300000 ms): the template chosen for the URL contributes
    none of them.  The client always has a cache, and the two controller
    interceptors are the last of its interceptor lists.  Of the clients
    already in the store everything but the interceptor lists is as it
    was; of their lists nothing is said, since a client built from the
    same interceptors object shares them with the new client. *)
Theorem createAPIGatewayForURL_new_client u c pm s parsed parsed2 t :
  new_URL u = Some parsed ->
  activeGateways pm !! origin parsed = None ->
  new_URL (origin parsed) = Some parsed2 ->
  templates (gatewayFactory pm) !! template_for u = Some t ->
  gateways (gatewayFactory pm) !! origin parsed2 = None ->
  exists pm' s' g,
    createAPIGatewayForURL u c pm s
    = (gateway_created (next s) (origin parsed), pm', s')
    /\ activeGateways pm' !! origin parsed = Some (next s)
    /\ gateways (gatewayFactory pm') !! origin parsed2 = Some (next s)
    /\ objs s' !! next s = Some g
    /\ (forall l, l <> next s ->
        forget_interceptors <$> objs s' !! l
        = forget_interceptors <$> objs s !! l)
    /\ timeout (config g) = num_or (cfg_timeout c) 30000
    /\ retries (config g) = num_or (cfg_retries c) 3
    /\ config_headers (config g)
       = default ∅ (cfg_headers c)
         ∪ {[ "Origin" := runtime_getURL ""; "X-Extension-Id" := runtime_id ]}
    /\ caching (config g)
       = Some (default (mkCacheConfig (Some 300000) (Some 50)) (cfg_caching c))
    /\ is_Some (gw_cache g)
    /\ (exists rs, request (interceptors (config g))
                   = (rs ++ [ProxyRoutingInterceptor])%list)
    /\ (exists rs, response (interceptors (config g))
                   = (rs ++ [StatsInterceptor])%list).
Proof.
  intros Hp Ha Hp2 Ht Hg.
  rewrite (createAPIGatewayForURL_through_registry u c pm s parsed parsed2 t
             Hp Ha Hp2 Ht), Hg.
  eexists _, _, _. split; [reflexivity|].
  cbn [activeGateways set_activeGateways gatewayFactory set_gatewayFactory
       gateways set_gateways objs next].
  rewrite !lookup_insert_eq.
  split; [reflexivity|]. split; [reflexivity|]. split; [reflexivity|].
  split; [intros l Hl; now rewrite lookup_insert_ne|].
  cbn -[num_or union]. rewrite !num_or_num_or by discriminate.
  repeat split; eauto.
Qed.

(** X11.  The controller's directory and the registry are separate, and
    [removeGateway] clears only the former.  A creation for an origin that
    the directory lacks and the registry holds returns the registered
    client, reports it as created, and installs the two controller
    interceptors on it once more; the configuration passed has no other
    effect on it, no client is allocated and no origin is registered or
    forgotten.  Of the other clients in the store everything but the
    interceptor lists is as it was; of their lists nothing is said, since
    a client built from the same interceptors object shares them with
    this one. *)
Theorem createAPIGatewayForURL_registered_client u c pm s parsed parsed2 t l g :
  new_URL u = Some parsed ->
  activeGateways pm !! origin parsed = None ->
  new_URL (origin parsed) = Some parsed2 ->
  templates (gatewayFactory pm) !! template_for u = Some t ->
  gateways (gatewayFactory pm) !! origin parsed2 = Some l ->
  objs s !! l = Some g ->
  exists pm' s',
    createAPIGatewayForURL u c pm s
    = (gateway_created l (origin parsed), pm', s')
    /\ activeGateways pm' !! origin parsed = Some l
    /\ gateways (gatewayFactory pm') = gateways (gatewayFactory pm)
    /\ next s' = next s
    /\ objs s' !! l = Some (install_interceptors g)
    /\ (forall l', l' <> l ->
        forget_interceptors <$> objs s' !! l'
        = forget_interceptors <$> objs s !! l')
    /\ request (interceptors (config (install_interceptors g)))
       = (request (interceptors (config g)) ++ [ProxyRoutingInterceptor])%list
    /\ response (interceptors (config (install_interceptors g)))
       = (response (interceptors (config g)) ++ [StatsInterceptor])%list
    /\ timeout (config (install_interceptors g)) = timeout (config g)
    /\ retries (config (install_interceptors g)) = retries (config g)
    /\ config_headers (config (install_interceptors g))
       = config_headers (config g).
Proof.
  intros Hp Ha Hp2 Ht Hg Hs.
  rewrite (createAPIGatewayForURL_through_registry u c pm s parsed parsed2 t
             Hp Ha Hp2 Ht), Hg.
  eexists _, _. split; [reflexivity|].
  cbn [activeGateways set_activeGateways gatewayFactory set_gatewayFactory
       objs next].
  rewrite lookup_insert_eq, lookup_alter_eq, Hs.
  repeat split; try reflexivity.
  intros l' Hl'. now rewrite lookup_alter_ne.
Qed.

(** [removeGateway] leaves the registry and the store as they are. *)
Lemma removeGateway_keeps_registry u pm :
  gatewayFactory (snd (removeGateway u pm)) = gatewayFactory pm.
Proof.
  unfold removeGateway. destruct (new_URL u) as [parsed|]; [|reflexivity].
  now destruct (activeGateways pm !! origin parsed).
Qed.

End Creation.

Lemma createAPIGatewayForURL_new_client_witness :
  exists pm' s' g,
    after_create = (gateway_created 0 "https://api.example.com", pm', s')
    /\ objs s' !! 0%nat = Some g
    /\ timeout (config g) = 30000.
Proof.
  destruct (@createAPIGatewayForURL_new_client reference_URL example_runtime
              graphql_url empty_config (ProxyManager_new 0) empty_store
              _ _ _ eq_refl eq_refl eq_refl eq_refl eq_refl)
    as (pm' & s' & g & H1 & _ & _ & H4 & _ & H6 & _).
  exists pm', s', g. repeat split; assumption.
Defined.

Lemma createAPIGatewayForURL_registered_client_witness :
  exists pm' s',
    @createAPIGatewayForURL reference_URL example_runtime graphql_url
      nine_retries after_create_and_remove (snd after_create)
    = (gateway_created 0 "https://api.example.com", pm', s')
    /\ next s' = 1%nat.
Proof.
  destruct (@createAPIGatewayForURL_registered_client reference_URL
              example_runtime graphql_url nine_retries after_create_and_remove
              (snd after_create) _ _ _ 0%nat _
              eq_refl eq_refl eq_refl eq_refl eq_refl eq_refl)
    as (pm' & s' & H1 & _ & _ & H4 & _).
  exists pm', s'. split; assumption.
Defined.

(* ===================================================================== *)
(** * Further properties of the gateway registry                          *)
(* ===================================================================== *)

Section RegistryLifecycle.

Context `{URLApi}.
Implicit Types (f : APIGatewayFactory) (s : Store) (c : Config) (u : string).

(** X12.  [remove] answers whether the origin had a client.  For an origin
    without one it answers false and leaves the registry as it is.  For an
    origin with one it answers true and forgets only that origin; a
    [create] after it allocates a client that is not the removed one and
    is configured from the configuration then given, while the removed
    client stays in the store unchanged. *)
Theorem remove_then_create u c f s parsed :
  registry_ok f s ->
  new_URL u = Some parsed ->
  (gateways f !! origin parsed = None -> remove u f = Normal (false, f))
  /\ (forall l,
         gateways f !! origin parsed = Some l ->
         exists f1 f2 s2,
           remove u f = Normal (true, f1)
           /\ gateways f1 !! origin parsed = None
           /\ (forall o, o <> origin parsed ->
                         gateways f1 !! o = gateways f !! o)
           /\ create u c f1 s = Normal (next s, f2, s2)
           /\ next s <> l
           /\ objs s2 !! next s = Some (APIGateway_new (origin parsed) c)
           /\ objs s2 !! l = objs s !! l
           /\ registry_ok f2 s2).
Proof.
  intros Hok Hp. split.
  - intros Hnone. unfold remove. rewrite Hp, Hnone.
    rewrite bool_decide_eq_false_2 by (intros [x Hx]; discriminate).
    rewrite delete_id by exact Hnone. now destruct f.
  - intros l Hl.
    assert (Hrem : remove u f
                   = Normal (true,
                             set_gateways (delete (origin parsed) (gateways f)) f)).
    { unfold remove. rewrite Hp, Hl.
      now rewrite bool_decide_eq_true_2 by eauto. }
    set (f1 := set_gateways (delete (origin parsed) (gateways f)) f) in *.
    assert (Hnone : gateways f1 !! origin parsed = None)
      by apply lookup_delete_eq.
    pose proof (remove_registry_ok u f s true f1 Hok Hrem) as Hok1.
    pose proof (create_fresh u c f1 s parsed Hp Hnone) as Hc.
    destruct (create_registry_ok _ _ _ _ _ _ _ Hok1 Hc) as [Hok2 _].
    assert (Hlt : (l < next s)%nat) by (eapply (proj1 Hok); exact Hl).
    eexists f1, _, _. split; [exact Hrem|]. split; [exact Hnone|].
    split; [intros o Ho; subst f1; cbn; now rewrite lookup_delete_ne|].
    split; [exact Hc|]. split; [lia|]. cbn [objs].
    split; [apply lookup_insert_eq|].
    split; [rewrite lookup_insert_ne by lia; reflexivity|exact Hok2].
Qed.

(** X13.  [createFromTemplate] fails with [Template '<name>' not found] for
    a name that is not registered.  For a registered name and a new origin
    it builds the client from the template with the caller's keys laid
    over it key by key: headers given by the caller replace the template's
    headers as a whole, a non-zero retry count or timeout of the caller
    wins, an absent one leaves the template's, and a zero one falls
    through to the constructor's default and not to the template.  A
    template registered again under a name replaces the earlier one. *)
Theorem createFromTemplate_overrides u name overrides t f s parsed :
  new_URL u = Some parsed ->
  gateways f !! origin parsed = None ->
  (templates f !! name = None ->
   createFromTemplate u name overrides f s
   = Throw (Error ("Template '" ++ name ++ "' not found")))
  /\ exists f' s' g,
       createFromTemplate u name overrides (registerTemplate name t f) s
       = Normal (next s, f', s')
       /\ objs s' !! next s = Some g
       /\ retries (config g)
          = match cfg_retries overrides with
            | Some r => if r =? 0 then 3 else r
            | None => num_or (cfg_retries t) 3
            end
       /\ timeout (config g)
          = match cfg_timeout overrides with
            | Some r => if r =? 0 then 30000 else r
            | None => num_or (cfg_timeout t) 30000
            end
       /\ config_headers (config g)
          = match cfg_headers overrides with
            | Some h => h
            | None => default ∅ (cfg_headers t)
            end
       /\ gw_cache g
          = CacheManager_new
              <$> override (cfg_caching overrides) (cfg_caching t).
Proof.
  intros Hp Hg. split.
  - intros Hnone. unfold createFromTemplate. now rewrite Hnone.
  - unfold createFromTemplate, registerTemplate. cbn [templates].
    rewrite lookup_insert_eq.
    rewrite (create_fresh u _ _ s parsed Hp) by exact Hg.
    eexists _, _, _. split; [reflexivity|]. cbn [objs].
    split; [apply lookup_insert_eq|].
    cbn -[union]. unfold override.
    destruct (cfg_retries overrides), (cfg_timeout overrides),
      (cfg_headers overrides); repeat split; reflexivity.
Qed.

End RegistryLifecycle.

Lemma remove_then_create_witness :
  exists f1 f2 s2,
    @remove reference_URL "https://api.example.com/x" registry_with_client
    = Normal (true, f1)
    /\ @create reference_URL "https://api.example.com/x" nine_retries f1
         store_with_client = Normal (1%nat, f2, s2).
Proof.
  destruct (proj2 (@remove_then_create reference_URL "https://api.example.com/x"
                     nine_retries registry_with_client store_with_client _
                     ltac:(split; [intros o l Hl|intros o1 o2 l H1 H2];
                           [cbn in Hl; apply lookup_singleton_Some in Hl as [_ <-];
                            cbn; lia
                           |cbn in H1, H2;
                            apply lookup_singleton_Some in H1 as [<- _];
                            apply lookup_singleton_Some in H2 as [<- _];
                            reflexivity])
                     eq_refl) 0%nat eq_refl)
    as (f1 & f2 & s2 & H1 & _ & _ & H4 & _).
  exists f1, f2, s2. split; assumption.
Defined.

Lemma createFromTemplate_overrides_witness :
  exists f' s' g,
    @createFromTemplate reference_URL "https://api.example.com/x" "slow"
      zero_retries_own_headers
      (registerTemplate "slow" five_retries_template APIGatewayFactory_new)
      empty_store
    = Normal (0%nat, f', s')
    /\ objs s' !! 0%nat = Some g
    /\ retries (config g) = 3
    /\ config_headers (config g) = {[ "X-Trace" := "1" ]}.
Proof.
  destruct (proj2 (@createFromTemplate_overrides reference_URL
                     "https://api.example.com/x" "slow" zero_retries_own_headers
                     five_retries_template APIGatewayFactory_new empty_store _
                     eq_refl eq_refl))
    as (f' & s' & g & H1 & H2 & H3 & _ & H5 & _).
  exists f', s', g. repeat split; assumption.
Defined.

(* ===================================================================== *)
(** * Further properties of the response cache                            *)
(* ===================================================================== *)

Section OMapDelete.

Context {V : Type}.
Implicit Types (m : list (string * V)) (k : string) (v : V).

Lemma OMap_get_delete_ne k k' m :
  k <> k' -> OMap.get k' (OMap.delete k m) = OMap.get k' m.
Proof.
  intros Hne. induction m as [|[k0 v0] m IH]; [reflexivity|]. cbn.
  destruct (String.eqb_spec k k0) as [->|Hk]; cbn.
  - destruct (String.eqb_spec k' k0); [congruence|reflexivity].
  - destruct (String.eqb_spec k' k0); [reflexivity|exact IH].
Qed.

Lemma OMap_get_delete_eq k m : OMap.wf m -> OMap.get k (OMap.delete k m) = None.
Proof.
  induction m as [|[k0 v0] m IH]; [reflexivity|]. intros Hwf. cbn.
  destruct (OMap_wf_tail k0 v0 m Hwf) as [Hwf' Hk0].
  destruct (String.eqb_spec k k0) as [->|Hk]; [exact Hk0|].
  cbn. destruct (String.eqb_spec k k0); [congruence|now apply IH].
Qed.

Lemma OMap_length_delete k m v :
  OMap.get k m = Some v -> S (length (OMap.delete k m)) = length m.
Proof.
  induction m as [|[k0 v0] m IH]; [discriminate|]. cbn.
  destruct (String.eqb_spec k k0); [reflexivity|].
  intros Hg. cbn. now rewrite IH.
Qed.

Lemma OMap_length_delete_le k m : (length (OMap.delete k m) <= length m)%nat.
Proof.
  induction m as [|[k0 v0] m IH]; [reflexivity|]. cbn.
  destruct (String.eqb k k0); cbn; lia.
Qed.

Lemma OMap_length_set k v m :
  length (OMap.set k v m)
  = if OMap.has k m then length m else S (length m).
Proof.
  unfold OMap.has. induction m as [|[k0 v0] m IH]; [reflexivity|]. cbn.
  destruct (String.eqb_spec k k0); [reflexivity|]. cbn. rewrite IH.
  now destruct (OMap.get k m).
Qed.

End OMapDelete.

Section CacheLifetime.

Implicit Types (cm : CacheManager) (key : string) (v : jsval) (now : Z).

Lemma CacheManager_set_ttl_maxSize now key v cm :
  ttl (CacheManager_set now key v cm) = ttl cm
  /\ maxSize (CacheManager_set now key v cm) = maxSize cm.
Proof. now split. Qed.

(** X14.  What [set] stores, [get] returns: in every cache, full or not,
    a value stored under a key at time [t] is returned by a read of that
    key at any time up to and including [t + ttl], whatever the key held
    before, and that read changes nothing. *)
Theorem cache_set_then_get now now' key v cm :
  now' - now <= ttl cm ->
  CacheManager_get now' key (CacheManager_set now key v cm)
  = (v, CacheManager_set now key v cm).
Proof.
  intros Hlive.
  apply (CacheManager_get_live now' key _ (mkCacheEntry v now)).
  - apply OMap_get_set_eq.
  - exact Hlive.
Qed.

Lemma cache_set_then_get_witness :
  CacheManager_get 1003 "k3" (CacheManager_set 3 "k3" (VString "v3") cache_of_two)
  = (VString "v3", CacheManager_set 3 "k3" (VString "v3") cache_of_two).
Proof.
  apply cache_set_then_get. vm_compute. discriminate.
Defined.

(** X15.  An entry older than [ttl] is absent and is dropped by the read
    that finds it so: [get] returns [null], the key is gone from the
    cache, which is one entry smaller, and every other key keeps its
    entry.  A later read of the key returns [null] at any time. *)
Theorem cache_expired_entry_is_dropped now key cm e :
  OMap.wf (cache cm) ->
  OMap.get key (cache cm) = Some e ->
  ttl cm < now - entry_timestamp e ->
  let cm' := snd (CacheManager_get now key cm) in
  fst (CacheManager_get now key cm) = VNull
  /\ OMap.get key (cache cm') = None
  /\ OMap.size (cache cm') = OMap.size (cache cm) - 1
  /\ (forall k, k <> key -> OMap.get k (cache cm') = OMap.get k (cache cm))
  /\ (forall later, CacheManager_get later key cm' = (VNull, cm')).
Proof.
  intros Hwf Hg Hold. cbv zeta.
  assert (Hget : CacheManager_get now key cm
                 = (VNull, set_cache (OMap.delete key (cache cm)) cm)).
  { unfold CacheManager_get. rewrite Hg.
    destruct (Z.gtb_spec (now - entry_timestamp e) (ttl cm)); [reflexivity|lia]. }
  rewrite Hget. cbn [fst snd cache set_cache].
  assert (Hnone : OMap.get key (OMap.delete key (cache cm)) = None)
    by now apply OMap_get_delete_eq.
  split; [reflexivity|]. split; [exact Hnone|]. split; [|split].
  - unfold OMap.size. pose proof (OMap_length_delete key (cache cm) e Hg). lia.
  - intros k Hk. apply OMap_get_delete_ne. congruence.
  - intros later. unfold CacheManager_get. cbn [cache set_cache].
    now rewrite Hnone.
Qed.

Lemma cache_expired_entry_is_dropped_witness :
  fst (CacheManager_get 1002 "k1" cache_of_two) = VNull
  /\ OMap.get "k1" (cache (snd (CacheManager_get 1002 "k1" cache_of_two))) = None.
Proof.
  destruct (cache_expired_entry_is_dropped 1002 "k1" cache_of_two
              (mkCacheEntry (VString "v1") 1)
              ltac:(apply CacheManager_set_wf, CacheManager_set_wf,
                      CacheManager_new_wf)
              eq_refl eq_refl)
    as (H1 & H2 & _).
  split; assumption.
Defined.

Lemma cache_step_invariant cm op :
  0 < maxSize cm ->
  OMap.wf (cache cm) ->
  OMap.size (cache cm) <= maxSize cm ->
  maxSize (cache_step cm op) = maxSize cm
  /\ ttl (cache_step cm op) = ttl cm
  /\ OMap.wf (cache (cache_step cm op))
  /\ OMap.size (cache (cache_step cm op)) <= maxSize cm.
Proof.
  intros Hpos Hwf Hsz. destruct op as [now key v|now key|]; cbn [cache_step].
  - split; [reflexivity|]. split; [reflexivity|].
    split; [now apply CacheManager_set_wf|].
    unfold CacheManager_set. cbn [cache set_cache]. unfold OMap.size in *.
    rewrite OMap_length_set.
    destruct (Z.geb_spec (Z.of_nat (length (cache cm))) (maxSize cm)) as [Hfull|Hroom].
    + destruct (cache cm) as [|[k0 e0] rest] eqn:Hc; [cbn in Hfull; lia|].
      cbn [OMap.first_key OMap.delete]. rewrite String.eqb_refl.
      cbn [length] in *. destruct (OMap.has key rest); lia.
    + destruct (OMap.has key (cache cm)); lia.
  - unfold CacheManager_get.
    destruct (OMap.get key (cache cm)) as [e|]; [|cbn; auto].
    destruct (now - entry_timestamp e >? ttl cm); [|cbn; auto].
    cbn [snd cache set_cache maxSize ttl].
    split; [reflexivity|]. split; [reflexivity|].
    split; [now apply OMap_wf_delete|].
    unfold OMap.size in *.
    pose proof (OMap_length_delete_le key (cache cm)). lia.
  - cbn. repeat split; [constructor|unfold OMap.size; cbn; lia].
Qed.

(** X16.  The cache is bounded: after any sequence of [set], [get] and
    [clear] on a cache built for a size that is not negative, the number
    of entries is at most [maxSize] and no key occurs twice. *)
Theorem cache_never_exceeds_maxSize c ops :
  (forall n, cc_maxSize c = Some n -> 0 <= n) ->
  let cm := cache_run ops (CacheManager_new c) in
  OMap.size (cache cm) <= maxSize cm
  /\ maxSize cm = num_or (cc_maxSize c) 100
  /\ OMap.wf (cache cm).
Proof.
  intros Hc. cbv zeta.
  pose proof (CacheManager_new_maxSize c Hc) as Hpos.
  assert (Hinv : forall cm,
             0 < maxSize cm -> OMap.wf (cache cm) ->
             OMap.size (cache cm) <= maxSize cm ->
             OMap.size (cache (cache_run ops cm)) <= maxSize (cache_run ops cm)
             /\ maxSize (cache_run ops cm) = maxSize cm
             /\ OMap.wf (cache (cache_run ops cm))).
  { induction ops as [|op ops IH]; intros cm Hp Hwf Hsz; [cbn; auto|].
    change (cache_run (op :: ops) cm) with (cache_run ops (cache_step cm op)).
    destruct (cache_step_invariant cm op Hp Hwf Hsz) as (Hm & _ & Hwf' & Hsz').
    destruct (IH (cache_step cm op)) as (H1 & H2 & H3);
      [lia|exact Hwf'|lia|].
    rewrite H2, Hm in *. auto. }
  destruct (Hinv (CacheManager_new c) Hpos (CacheManager_new_wf c))
    as (H1 & H2 & H3).
  - unfold OMap.size. cbn [CacheManager_new cache length]. lia.
  - auto.
Qed.

Lemma cache_never_exceeds_maxSize_witness :
  OMap.size (cache (cache_run
                      [OpSet 1 "a" VNull; OpSet 2 "b" VNull; OpGet 3 "a";
                       OpSet 4 "c" VNull; OpSet 5 "d" VNull]
                      (CacheManager_new (mkCacheConfig (Some 1000) (Some 2)))))
  <= 2.
Proof.
  exact (proj1 (cache_never_exceeds_maxSize (mkCacheConfig (Some 1000) (Some 2))
                  _ ltac:(intros n [= <-]; vm_compute; discriminate))).
Defined.

End CacheLifetime.

(* ===================================================================== *)
(** * Properties of the metrics                                           *)
(* ===================================================================== *)

Section Metrics.

Implicit Types (g : APIGateway) (r : Response) (rs : list Response).

Lemma updateMetrics_latencies r g :
  (length (latencies (metrics g)) <= 100)%nat ->
  let l := (latencies (metrics g) ++ [latency r])%list in
  latencies (metrics (updateMetrics r g)) = drop (length l - 100) l
  /\ (length (latencies (metrics (updateMetrics r g))) <= 100)%nat.
Proof.
  intros Hlen. cbv zeta. unfold updateMetrics. cbn [metrics set_metrics latencies].
  set (l := (latencies (metrics g) ++ [latency r])%list).
  assert (Hl : length l = S (length (latencies (metrics g)))).
  { subst l. rewrite length_app. cbn. lia. }
  destruct (Nat.ltb_spec 100 (length l)) as [Hbig|Hsmall].
  - replace (length l - 100)%nat with 1%nat by lia.
    destruct l as [|x l']; [cbn in Hl; lia|]. cbn in *. split; [reflexivity|lia].
  - replace (length l - 100)%nat with 0%nat by lia. cbn. split; [reflexivity|lia].
Qed.

(** X17.  The latency samples are a window over the last 100 responses:
    after any run of [updateMetrics] from a window of at most 100 samples,
    the window holds the last 100 of the old samples followed by the new
    latencies (all of them while there are fewer), in order; the request
    count grows by the number of responses, the error count does not
    change, and the last request time is that of the last response. *)
Theorem latency_window rs :
  forall g,
    (length (latencies (metrics g)) <= 100)%nat ->
    let g' := record_responses rs g in
    let all := (latencies (metrics g) ++ map latency rs)%list in
    latencies (metrics g') = drop (length all - 100) all
    /\ (length (latencies (metrics g')) <= 100)%nat
    /\ requests (metrics g') = requests (metrics g) + Z.of_nat (length rs)
    /\ errors (metrics g') = errors (metrics g)
    /\ lastRequest (metrics g')
       = match last rs with
         | Some r => Some (timestamp r)
         | None => lastRequest (metrics g)
         end.
Proof.
  induction rs as [|r rs IH]; intros g Hlen; cbv zeta.
  - cbn [record_responses fold_left map length last].
    rewrite app_nil_r.
    replace (length (latencies (metrics g)) - 100)%nat with 0%nat by lia.
    cbn. repeat split; [exact Hlen|lia].
  - change (record_responses (r :: rs) g)
      with (record_responses rs (updateMetrics r g)).
    destruct (updateMetrics_latencies r g Hlen) as [Hlat Hlen'].
    cbv zeta in Hlat.
    destruct (IH (updateMetrics r g) Hlen') as (H1 & H2 & H3 & H4 & H5).
    cbv zeta in *.
    set (l := (latencies (metrics g) ++ [latency r])%list) in *.
    assert (Hl : length l = S (length (latencies (metrics g)))).
    { subst l. rewrite length_app. cbn. lia. }
    assert (Hall : (latencies (metrics g) ++ map latency (r :: rs))%list
                   = (l ++ map latency rs)%list).
    { subst l. cbn [map]. now rewrite <- app_assoc. }
    rewrite Hall. split; [|split; [exact H2|split; [|split]]].
    + rewrite H1, Hlat.
      destruct (Nat.le_gt_cases (length l) 100) as [Hsmall|Hbig].
      * replace (length l - 100)%nat with 0%nat by lia. reflexivity.
      * replace (length l - 100)%nat with 1%nat by lia.
        destruct l as [|x l']; [cbn in Hl; lia|].
        cbn [drop app length]. rewrite !length_app. cbn [length] in *.
        rewrite length_app in *.
        replace (S (length l' + length (map latency rs)) - 100)%nat
          with (S (length l' + length (map latency rs) - 100))%nat by lia.
        reflexivity.
    + rewrite H3. unfold updateMetrics. cbn [metrics set_metrics requests length].
      lia.
    + rewrite H4. reflexivity.
    + rewrite H5. destruct rs as [|r' rs']; [reflexivity|].
      change (last (r :: r' :: rs')) with (last (r' :: rs')).
      destruct (last (r' :: rs')) eqn:E; [reflexivity|].
      apply last_None in E. discriminate.
Qed.

Lemma latency_window_witness :
  latencies (metrics (record_responses
                        [timed_response 5 1; timed_response 7 2] example_client))
  = [5; 7].
Proof.
  exact (proj1 (latency_window [timed_response 5 1; timed_response 7 2]
                  example_client ltac:(vm_compute; lia))).
Defined.

End Metrics.

(* ===================================================================== *)
(** * Further properties of the request handler                           *)
(* ===================================================================== *)

Section HandlerFacts.

Implicit Types (g : APIGateway) (pm : ProxyManager) (st : Run)
  (rq : Request) (resp : Response).

Lemma same_routing_refl pm : same_routing pm pm.
Proof. now repeat split. Qed.

Lemma runResponseInterceptors_same_routing l :
  forall pm resp, same_routing pm (snd (runResponseInterceptors l pm resp)).
Proof.
  induction l as [|[|f] l IH]; intros pm resp; cbn.
  - apply same_routing_refl.
  - destruct (IH (set_stats (stats_totalRequests_incr (stats pm)) pm) resp)
      as (H1 & H2 & H3 & H4).
    repeat split; assumption.
  - destruct (f resp) as [resp'|e]; [apply IH|apply same_routing_refl].
Qed.

Lemma runRequestInterceptors_same_routing l :
  forall pm pm' rq,
    same_routing pm pm' ->
    runRequestInterceptors l pm' rq = runRequestInterceptors l pm rq.
Proof.
  induction l as [|[|f] l IH]; intros pm pm' rq Hs; cbn; [reflexivity| |].
  - destruct Hs as (H1 & H2 & H3 & H4).
    unfold getCurrentProxy. rewrite H1, H2, H3, H4.
    apply IH. now repeat split.
  - destruct (f rq); [now apply IH|reflexivity].
Qed.

Lemma attempt_try_throws net now meth rq i st e :
  net i rq = Throw e ->
  attempt_try net now meth rq i st = inl (e, log (Execute i rq) st).
Proof. intros Hn. unfold attempt_try. now rewrite Hn. Qed.

Lemma attempt_try_returns net now meth rq i st resp resp' pm' :
  net i rq = Normal resp ->
  runResponseInterceptors (response (interceptors (config (gw st)))) (ctl st) resp
  = (Normal resp', pm') ->
  attempt_try net now meth rq i st
  = inr (data resp',
         mkRun (updateMetrics resp' (cache_response now meth rq resp' (gw st)))
               pm' (trace st ++ [Execute i rq])%list).
Proof.
  intros Hn Hi. unfold attempt_try. rewrite Hn. cbn [log gw ctl trace].
  rewrite Hi. unfold cache_response. now destruct (gw_cache (gw st)).
Qed.

(** What one attempt can do to the client. *)
Lemma attempt_try_effect net now meth rq i st :
  match attempt_try net now meth rq i st with
  | inl (_, st') => gw st' = gw st
  | inr (_, st') =>
      exists resp, gw st' = updateMetrics resp (cache_response now meth rq resp (gw st))
  end.
Proof.
  unfold attempt_try. destruct (net i rq) as [resp|e]; [|reflexivity].
  cbn [log gw ctl trace].
  destruct (runResponseInterceptors _ _ _) as [[resp'|e] pm']; [|reflexivity].
  exists resp'. unfold cache_response. now destruct (gw_cache (gw st)).
Qed.

Lemma cache_response_frame now meth rq resp g :
  config (cache_response now meth rq resp g) = config g
  /\ metrics (cache_response now meth rq resp g) = metrics g
  /\ baseUrl (cache_response now meth rq resp g) = baseUrl g
  /\ (String.eqb meth "GET" = false ->
      gw_cache (cache_response now meth rq resp g) = gw_cache g).
Proof.
  unfold cache_response.
  destruct (gw_cache g) as [cm|] eqn:E; [|repeat split; intros; congruence].
  destruct (String.eqb meth "GET"); cbn [andb];
    [|repeat split; intros; congruence].
  destruct (ok resp); repeat split; try reflexivity; discriminate.
Qed.

(** The loop from any attempt, against any network: it ends, the
    configuration is as before, and exactly one of the two counters has
    grown by one, the request counter with a result and the error counter
    with an exception. *)
Lemma retryLoop_accounting net now meth rq m (n : nat) :
  forall a e st,
    Z.to_nat (m + 1 - a) = n ->
    let out := retryLoop net now meth rq m a e st in
    config (gw (snd out)) = config (gw st)
    /\ baseUrl (gw (snd out)) = baseUrl (gw st)
    /\ (String.eqb meth "GET" = false ->
        gw_cache (gw (snd out)) = gw_cache (gw st))
    /\ match fst out with
       | Normal _ =>
           requests (metrics (gw (snd out))) = requests (metrics (gw st)) + 1
           /\ errors (metrics (gw (snd out))) = errors (metrics (gw st))
       | Throw _ =>
           requests (metrics (gw (snd out))) = requests (metrics (gw st))
           /\ errors (metrics (gw (snd out))) = errors (metrics (gw st)) + 1
       end.
Proof.
  induction n as [|n IH]; intros a e st Hn; cbv zeta.
  - rewrite retryLoop_equation_1.
    destruct (Z_le_gt_dec a m); [lia|]. cbn. repeat split; reflexivity.
  - rewrite retryLoop_equation_1.
    destruct (Z_le_gt_dec a m); [|lia]. cbn.
    pose proof (attempt_try_effect net now meth rq a st) as Heff.
    destruct (attempt_try net now meth rq a st) as [[e' st']|[v st']]; cbn.
    + set (st'' := if a <? m then log (Delay (2 ^ a * 1000)) st' else st').
      assert (Hgw : gw st'' = gw st).
      { subst st''. destruct (a <? m); cbn; exact Heff. }
      specialize (IH (a + 1) e' st'' ltac:(lia)). cbv zeta in IH.
      rewrite Hgw in IH. exact IH.
    + destruct Heff as [resp ->].
      destruct (cache_response_frame now meth rq resp (gw st))
        as (Hc & Hm & Hb & Hk).
      unfold updateMetrics. cbn. rewrite Hm.
      repeat split; auto.
Qed.

End HandlerFacts.

Section HandlerAccounting.

Context `{URLApi} `{Base64}.

Lemma lookup_cached_non_GET tget meth rq g :
  String.eqb meth "GET" = false -> lookup_cached tget meth rq g = (VNull, g).
Proof.
  intros Hm. unfold lookup_cached. rewrite Hm. now destruct (gw_cache g).
Qed.

Lemma lookup_cached_baseUrl tget meth rq g :
  baseUrl (snd (lookup_cached tget meth rq g)) = baseUrl g.
Proof.
  unfold lookup_cached. destruct (gw_cache g) as [cm|]; [|reflexivity].
  destruct (String.eqb meth "GET"); [|reflexivity].
  now destruct (CacheManager_get tget (cacheKey rq) cm).
Qed.

(** X18.  On a client whose limiter (if any) admits, and whatever the
    network does, a handler keeps the client's configuration and base URL.
    A request that cannot be built, or that a
    request interceptor rejects, is thrown back at once: it is not counted,
    not submitted to the rate limiter and never attempted.  Every other
    request is counted exactly once: the request counter grows by one when
    the handler returns a value and the error counter by one when it
    throws, and the other counter stays. *)
Theorem handler_counts_every_request
    (net : Network) (tget tset : Z) (meth path : string)
    (payload : list (string * string)) (o : Options)
    (g : APIGateway) (pm : ProxyManager) :
  limiter_admits g ->
  let out := createHandler net tget tset meth path payload o g pm in
  config (gw (snd out)) = config g
  /\ baseUrl (gw (snd out)) = baseUrl g
  /\ match buildRequest g meth path payload o with
     | Throw e => out = (Throw e, mkRun g pm [])
     | Normal rq0 =>
         match runRequestInterceptors (request (interceptors (config g)))
                 pm rq0 with
         | Throw e => out = (Throw e, mkRun g pm [])
         | Normal rq =>
             match fst out with
             | Normal _ =>
                 requests (metrics (gw (snd out))) = requests (metrics g) + 1
                 /\ errors (metrics (gw (snd out))) = errors (metrics g)
             | Throw _ =>
                 requests (metrics (gw (snd out))) = requests (metrics g)
                 /\ errors (metrics (gw (snd out))) = errors (metrics g) + 1
             end
         end
     end.
Proof.
  intros _. cbv zeta. unfold createHandler.
  destruct (buildRequest g meth path payload o) as [rq0|e];
    [|repeat split; reflexivity].
  destruct (runRequestInterceptors _ pm rq0) as [rq|e];
    [|repeat split; reflexivity].
  pose proof (lookup_cached_frame tget meth rq g) as [Hcfg Hmet].
  pose proof (lookup_cached_baseUrl tget meth rq g) as Hbase.
  destruct (lookup_cached tget meth rq g) as [cached g1]. cbn [snd] in *.
  destruct (truthy cached).
  - cbn. rewrite Hmet. split; [exact Hcfg|]. split; [exact Hbase|now split].
  - pose proof (retryLoop_accounting net tset meth rq (retries (config g1))
                  (Z.to_nat (retries (config g1) + 1 - 0)) 0 ThrownUndefined
                  (mkRun g1 pm (admission g)) eq_refl) as (H1 & H2 & _ & H4).
    cbv zeta in *. cbn [gw] in *. rewrite Hmet in H4.
    split; [congruence|]. split; [congruence|exact H4].
Qed.

(** X19.  A request whose method is not GET leaves the cache as it was:
    whatever the outcome of the handler (the request cannot be built, an
    interceptor rejects it, an attempt succeeds, or the retries are
    exhausted), the client's cache afterwards is the cache before. *)
Theorem handler_non_GET_leaves_cache
    (net : Network) (tget tset : Z) (meth path : string)
    (payload : list (string * string)) (o : Options)
    (g : APIGateway) (pm : ProxyManager) :
  String.eqb meth "GET" = false ->
  gw_cache (gw (snd (createHandler net tget tset meth path payload o g pm)))
  = gw_cache g.
Proof.
  intros Hm. unfold createHandler.
  destruct (buildRequest g meth path payload o) as [rq0|e]; [|reflexivity].
  destruct (runRequestInterceptors _ pm rq0) as [rq|e]; [|reflexivity].
  rewrite (lookup_cached_non_GET tget meth rq g Hm). cbn [truthy].
  pose proof (retryLoop_accounting net tset meth rq (retries (config g))
                (Z.to_nat (retries (config g) + 1 - 0)) 0 ThrownUndefined
                (mkRun g pm (admission g)) eq_refl) as (_ & _ & H3 & _).
  cbv zeta in H3. now apply H3.
Qed.

End HandlerAccounting.

Lemma handler_counts_every_request_witness :
  limiter_admits caching_client
  /\ let out := @createHandler reference_URL reference_Base64 always_failing
                  0 9 "GET" "/users" [("page", "1")] no_options
                  caching_client (ProxyManager_new 0) in
     requests (metrics (gw (snd out))) = 0
     /\ errors (metrics (gw (snd out))) = 1.
Proof.
  split; [vm_compute; congruence|].
  pose proof (@handler_counts_every_request reference_URL reference_Base64
                always_failing 0 9 "GET" "/users" [("page", "1")] no_options
                caching_client (ProxyManager_new 0)
                ltac:(vm_compute; congruence)) as (_ & _ & H).
  exact H.
Defined.

Lemma handler_non_GET_leaves_cache_witness :
  gw_cache (gw (snd (@createHandler reference_URL reference_Base64
                       answers_at_once 0 0 "POST" "/users" [("name", "John")]
                       no_options caching_client (ProxyManager_new 0))))
  = gw_cache caching_client.
Proof.
  exact (@handler_non_GET_leaves_cache reference_URL reference_Base64
           answers_at_once 0 0 "POST" "/users" [("name", "John")]
           no_options caching_client (ProxyManager_new 0) eq_refl).
Defined.

Section Recovery.

Variables (net : Network) (now : Z) (meth : string) (rq : Request) (m k : Z).
Variable failure : Z -> exn.

(** The attempts before attempt [k] fail. *)
Hypothesis fails_before : forall i, 0 <= i < k -> net i rq = Throw (failure i).
Hypothesis k_within : 0 <= k <= m.

Lemma retryLoop_failing_prefix (n : nat) :
  forall a e st,
    0 <= a <= k ->
    Z.to_nat (k - a) = n ->
    exists e',
      retryLoop net now meth rq m a e st
      = retryLoop net now meth rq m k e'
          (mkRun (gw st) (ctl st)
             (trace st
              ++ flat_map (fun i => [Execute i rq; Delay (2 ^ i * 1000)])
                          (seqZ a (k - a)))%list).
Proof.
  induction n as [|n IH]; intros a e st Ha Hn.
  - assert (a = k) as -> by lia. exists e.
    rewrite Z.sub_diag. cbn [seqZ flat_map]. rewrite app_nil_r.
    now destruct st.
  - rewrite retryLoop_equation_1.
    destruct (Z_le_gt_dec a m); [|lia]. cbn.
    rewrite (attempt_try_throws net now meth rq a st (failure a))
      by (apply fails_before; lia).
    cbn. destruct (Z.ltb_spec a m); [|lia].
    destruct (IH (a + 1) (failure a)
                 (log (Delay (2 ^ a * 1000)) (log (Execute a rq) st))
                 ltac:(lia) ltac:(lia)) as [e' He'].
    exists e'. rewrite He'. cbn [log gw ctl trace].
    rewrite (seqZ_cons a (k - a)) by lia.
    replace (Z.pred (k - a)) with (k - (a + 1)) by lia.
    replace (Z.succ a) with (a + 1) by lia.
    cbn [flat_map]. rewrite <- !app_assoc. reflexivity.
Qed.

Lemma retryLoop_returns_at e st resp resp' pm' :
  net k rq = Normal resp ->
  runResponseInterceptors (response (interceptors (config (gw st)))) (ctl st) resp
  = (Normal resp', pm') ->
  retryLoop net now meth rq m k e st
  = (Normal (data resp'),
     mkRun (updateMetrics resp' (cache_response now meth rq resp' (gw st)))
           pm' (trace st ++ [Execute k rq])%list).
Proof.
  intros Hn Hi. rewrite retryLoop_equation_1.
  destruct (Z_le_gt_dec k m); [|lia]. cbn.
  now rewrite (attempt_try_returns net now meth rq k st resp resp' pm' Hn Hi).
Qed.

End Recovery.

Section HandlerRecovery.

Context `{URLApi} `{Base64}.

(** The handler when attempts 0 to [k - 1] fail and attempt [k] returns. *)
Lemma createHandler_returns_after_failures
    (net : Network) (tget tset : Z) (meth path : string)
    (payload : list (string * string)) (o : Options)
    (g : APIGateway) (pm pm' : ProxyManager)
    (rq0 rq : Request) (failure : Z -> exn) (k : Z) (resp resp' : Response) :
  0 <= k <= retries (config g) ->
  buildRequest g meth path payload o = Normal rq0 ->
  runRequestInterceptors (request (interceptors (config g))) pm rq0 = Normal rq ->
  truthy (fst (lookup_cached tget meth rq g)) = false ->
  (forall i, 0 <= i < k -> net i rq = Throw (failure i)) ->
  net k rq = Normal resp ->
  runResponseInterceptors (response (interceptors (config g))) pm resp
  = (Normal resp', pm') ->
  createHandler net tget tset meth path payload o g pm
  = (Normal (data resp'),
     mkRun (updateMetrics resp'
              (cache_response tset meth rq resp'
                 (snd (lookup_cached tget meth rq g))))
           pm'
           ((admission g
             ++ flat_map (fun i => [Execute i rq; Delay (2 ^ i * 1000)])
                         (seqZ 0 k))
            ++ [Execute k rq])%list).
Proof.
  intros Hk Hbuild Hint Hmiss Hfail Hok Hresp.
  pose proof (lookup_cached_frame tget meth rq g) as [Hcfg Hmet].
  unfold createHandler. rewrite Hbuild, Hint.
  destruct (lookup_cached tget meth rq g) as [cached g1] eqn:Hl.
  cbn [fst snd] in *. rewrite Hmiss, Hcfg.
  destruct (retryLoop_failing_prefix net tset meth rq (retries (config g)) k
              failure Hfail Hk (Z.to_nat (k - 0)) 0 ThrownUndefined
              (mkRun g1 pm (admission g)) ltac:(lia) eq_refl) as [e' ->].
  rewrite Z.sub_0_r. cbn [gw ctl trace].
  set (st := mkRun g1 pm _).
  exact (retryLoop_returns_at net tset meth rq (retries (config g)) k Hk
           e' st resp resp' pm' Hok
           ltac:(cbn [gw ctl st]; now rewrite Hcfg)).
Qed.

(** X20.  Retries recover: on a client whose limiter (if any) admits, when
    the attempts 0 to [k - 1] fail and attempt [k], within the configured
    retries, gets a response that the response interceptors accept, the
    handler returns the data of that response.
    It has waited [2^i * 1000] ms after each of the [k] failed attempts,
    made [k + 1] attempts and no more, counted one request and no error,
    and stored the response in the cache exactly if the method is GET, the
    client has a cache and the response is ok. *)
Theorem handler_recovers_after_failures
    (net : Network) (tget tset : Z) (meth path : string)
    (payload : list (string * string)) (o : Options)
    (g : APIGateway) (pm pm' : ProxyManager)
    (rq0 rq : Request) (failure : Z -> exn) (k : Z) (resp resp' : Response) :
  limiter_admits g ->
  0 <= k <= retries (config g) ->
  buildRequest g meth path payload o = Normal rq0 ->
  runRequestInterceptors (request (interceptors (config g))) pm rq0 = Normal rq ->
  truthy (fst (lookup_cached tget meth rq g)) = false ->
  (forall i, 0 <= i < k -> net i rq = Throw (failure i)) ->
  net k rq = Normal resp ->
  runResponseInterceptors (response (interceptors (config g))) pm resp
  = (Normal resp', pm') ->
  let out := createHandler net tget tset meth path payload o g pm in
  let g1 := snd (lookup_cached tget meth rq g) in
  fst out = Normal (data resp')
  /\ gw (snd out) = updateMetrics resp' (cache_response tset meth rq resp' g1)
  /\ ctl (snd out) = pm'
  /\ attempts (trace (snd out)) = seqZ 0 (k + 1)
  /\ delays (trace (snd out)) = (fun i => 2 ^ i * 1000) <$> seqZ 0 k
  /\ requests (metrics (gw (snd out))) = requests (metrics g) + 1
  /\ errors (metrics (gw (snd out))) = errors (metrics g).
Proof.
  intros _ Hk Hbuild Hint Hmiss Hfail Hok Hresp. cbv zeta.
  pose proof (lookup_cached_frame tget meth rq g) as [Hcfg Hmet].
  rewrite (createHandler_returns_after_failures net tget tset meth path payload
             o g pm pm' rq0 rq failure k resp resp'
             Hk Hbuild Hint Hmiss Hfail Hok Hresp).
  cbn [fst snd gw ctl trace].
  rewrite !attempts_app, !delays_app, attempts_admission, delays_admission,
    attempts_rounds, delays_rounds.
  destruct (cache_response_frame tset meth rq resp'
              (snd (lookup_cached tget meth rq g))) as (_ & Hm' & _).
  unfold updateMetrics at 3 4. cbn. rewrite Hm', Hmet, app_nil_r.
  rewrite (seqZ_app 0 k 1) by lia.
  repeat split; reflexivity.
Qed.

Lemma buildRequest_same_client g g' meth path payload o :
  baseUrl g' = baseUrl g ->
  config g' = config g ->
  buildRequest g' meth path payload o = buildRequest g meth path payload o.
Proof. intros Hb Hc. unfold buildRequest. now rewrite Hb, Hc. Qed.

(** X21.  A GET answered by the network is answered from the cache the
    next time: after a first GET through a caching client, whose limiter
    (if any) admits, missed the cache and got an ok response with a truthy
    body at its first attempt, a second GET for
    the same path, data and options, issued no later than [ttl] after the
    first was stored, returns the same body without any attempt on the
    network, whatever the network would do; both requests are counted. *)
Theorem handler_repeats_from_cache
    (net net2 : Network) (tget tset tget2 tset2 : Z) (path : string)
    (payload : list (string * string)) (o : Options)
    (g : APIGateway) (pm pm' : ProxyManager) (cm : CacheManager)
    (rq0 rq : Request) (resp resp' : Response) :
  limiter_admits g ->
  gw_cache g = Some cm ->
  0 <= retries (config g) ->
  buildRequest g "GET" path payload o = Normal rq0 ->
  runRequestInterceptors (request (interceptors (config g))) pm rq0 = Normal rq ->
  truthy (fst (lookup_cached tget "GET" rq g)) = false ->
  net 0 rq = Normal resp ->
  runResponseInterceptors (response (interceptors (config g))) pm resp
  = (Normal resp', pm') ->
  ok resp' = true ->
  truthy (data resp') = true ->
  tget2 - tset <= ttl cm ->
  let first := createHandler net tget tset "GET" path payload o g pm in
  let second := createHandler net2 tget2 tset2 "GET" path payload o
                  (gw (snd first)) (ctl (snd first)) in
  fst first = Normal (data resp')
  /\ fst second = Normal (data resp')
  /\ attempts (trace (snd second)) = []
  /\ requests (metrics (gw (snd second))) = requests (metrics g) + 2
  /\ errors (metrics (gw (snd second))) = errors (metrics g).
Proof.
  intros _ Hc Hr Hbuild Hint Hmiss Hok Hresp Hokr Htruthy Hlive. cbv zeta.
  rewrite (createHandler_returns_after_failures net tget tset "GET" path payload
             o g pm pm' rq0 rq (fun _ => ThrownUndefined) 0 resp resp'
             ltac:(lia) Hbuild Hint Hmiss ltac:(intros; lia) Hok Hresp).
  cbn [fst snd gw ctl].
  pose proof (lookup_cached_frame tget "GET" rq g) as [Hcfg Hmet].
  pose proof (lookup_cached_baseUrl tget "GET" rq g) as Hbase.
  set (g1 := snd (lookup_cached tget "GET" rq g)) in *.
  assert (Hcache1 : exists cm1, gw_cache g1 = Some cm1 /\ ttl cm1 = ttl cm).
  { subst g1. unfold lookup_cached. rewrite Hc. cbn [String.eqb Ascii.eqb Bool.eqb].
    unfold CacheManager_get.
    destruct (OMap.get (cacheKey rq) (cache cm)) as [e|]; [|eauto].
    destruct (tget - entry_timestamp e >? ttl cm); cbn; eauto. }
  destruct Hcache1 as (cm1 & Hcm1 & Httl).
  set (g2 := updateMetrics resp' (cache_response tset "GET" rq resp' g1)).
  assert (Hg2 : gw_cache g2
                = Some (CacheManager_set tset (cacheKey rq) (data resp') cm1)).
  { subst g2. unfold updateMetrics, cache_response. rewrite Hcm1, Hokr.
    reflexivity. }
  destruct (cache_response_frame tset "GET" rq resp' g1) as (Hc2 & Hm2 & Hb2 & _).
  assert (Hcfg2 : config g2 = config g) by (subst g2; cbn; congruence).
  assert (Hbase2 : baseUrl g2 = baseUrl g) by (subst g2; cbn; congruence).
  assert (Hreq2 : requests (metrics g2) = requests (metrics g) + 1
                  /\ errors (metrics g2) = errors (metrics g)).
  { subst g2. unfold updateMetrics. cbn. rewrite Hm2, Hmet. now split. }
  clearbody g2.
  split; [reflexivity|].
  unfold createHandler.
  rewrite (buildRequest_same_client g g2 "GET" path payload o Hbase2 Hcfg2),
    Hbuild, Hcfg2.
  rewrite (runRequestInterceptors_same_routing _ pm pm' rq0), Hint.
  2:{ pose proof (runResponseInterceptors_same_routing
                    (response (interceptors (config g))) pm resp) as Hs.
      now rewrite Hresp in Hs. }
  assert (Hlook : lookup_cached tget2 "GET" rq g2
                  = (data resp',
                     set_gw_cache
                       (Some (CacheManager_set tset (cacheKey rq) (data resp') cm1))
                       g2)).
  { unfold lookup_cached. rewrite Hg2. cbn [String.eqb Ascii.eqb Bool.eqb].
    rewrite (CacheManager_get_live tget2 (cacheKey rq) _
               (mkCacheEntry (data resp') tset));
      [reflexivity|apply OMap_get_set_eq|cbn; lia]. }
  rewrite Hlook, Htruthy. cbn [fst snd trace gw].
  split; [reflexivity|]. split; [apply attempts_admission|].
  unfold requests_incr. cbn. destruct Hreq2 as [-> ->]. split; lia.
Qed.

End HandlerRecovery.

Lemma handler_recovers_after_failures_witness :
  let out := @createHandler reference_URL reference_Base64 answers_second_time
               0 9 "GET" "/users" [("page", "1")] no_options
               caching_client (ProxyManager_new 0) in
  fst out = Normal (VString "body")
  /\ attempts (trace (snd out)) = [0; 1]
  /\ delays (trace (snd out)) = [1000].
Proof.
  pose proof (@handler_recovers_after_failures reference_URL reference_Base64
                answers_second_time 0 9 "GET" "/users" [("page", "1")]
                no_options caching_client (ProxyManager_new 0) _ _ _
                attempt_error 1 _ _
                ltac:(vm_compute; congruence)
                ltac:(vm_compute; split; congruence) eq_refl eq_refl eq_refl
                ltac:(intros i Hi; assert (i = 0) as -> by lia; reflexivity)
                eq_refl eq_refl)
    as (H1 & _ & _ & H4 & H5 & _).
  cbv zeta. split; [exact H1|]. split; [exact H4|exact H5].
Defined.

Lemma handler_repeats_from_cache_witness :
  let first := @createHandler reference_URL reference_Base64 answers_at_once
                 0 9 "GET" "/users" [("page", "1")] no_options
                 caching_client (ProxyManager_new 0) in
  let second := @createHandler reference_URL reference_Base64 always_failing
                  500 509 "GET" "/users" [("page", "1")] no_options
                  (gw (snd first)) (ctl (snd first)) in
  fst second = Normal (VString "body")
  /\ attempts (trace (snd second)) = [].
Proof.
  pose proof (@handler_repeats_from_cache reference_URL reference_Base64
                answers_at_once always_failing 0 9 500 509 "/users"
                [("page", "1")] no_options caching_client (ProxyManager_new 0)
                _ _ _ _ _ _
                ltac:(vm_compute; congruence)
                eq_refl ltac:(vm_compute; congruence) eq_refl eq_refl eq_refl
                eq_refl eq_refl eq_refl eq_refl ltac:(vm_compute; congruence))
    as (_ & H2 & H3 & _).
  cbv zeta. split; [exact H2|exact H3].
Defined.

(* ===================================================================== *)
(** * Properties of path normalisation                                    *)
(* ===================================================================== *)

Lemma strip_trailing_slash_snoc (s : string) :
  strip_trailing_slash (s ++ "/") = s.
Proof.
  induction s as [|c s IH]; [reflexivity|].
  change (String c s ++ "/") with (String c (s ++ "/")).
  destruct s as [|d s]; [reflexivity|].
  change (String d s ++ "/") with (String d (s ++ "/")) in *.
  cbn [strip_trailing_slash] in *. now rewrite IH.
Qed.

Lemma strip_trailing_slash_head (c : ascii) (s : string) :
  s <> "" ->
  exists s', strip_trailing_slash (String c s) = String c s'.
Proof.
  destruct s as [|d s]; [congruence|]. intros _.
  exists (strip_trailing_slash (String d s)). reflexivity.
Qed.

Lemma startsWith_slash_cons (s : string) :
  startsWith s "/" = true -> exists s', s = String "/" s'.
Proof.
  destruct s as [|c s]; cbn [startsWith]; [discriminate|].
  destruct (Ascii.eqb_spec "/" c) as [<-|]; cbn [andb]; [eauto|discriminate].
Qed.

Lemma normalizePath_begins_with_slash_aux (path : string) :
  startsWith (normalizePath path) "/" = true.
Proof.
  unfold normalizePath.
  set (p := if negb (startsWith path "/") then "/" ++ path else path).
  assert (Hp : exists s, p = String "/" s).
  { subst p. destruct (startsWith path "/") eqn:E; cbn [negb].
    - now apply startsWith_slash_cons.
    - now exists path. }
  destruct Hp as [s ->].
  destruct s as [|d s]; [reflexivity|].
  destruct (strip_trailing_slash_head "/" (String d s)) as [s' ->]; [congruence|].
  reflexivity.
Qed.

Lemma normalizePath_snoc_slash (p : string) :
  normalizePath (p ++ "/") = if startsWith p "/" then p else "/" ++ p.
Proof.
  unfold normalizePath.
  destruct p as [|c p].
  - reflexivity.
  - change (String c p ++ "/") with (String c (p ++ "/")).
    assert (Hs : startsWith (String c (p ++ "/")) "/" = startsWith (String c p) "/")
      by (cbn; now rewrite !andb_true_r).
    rewrite Hs. destruct (startsWith (String c p) "/") eqn:E; cbn [negb].
    + change (String c (p ++ "/")) with (String c p ++ "/").
      now rewrite strip_trailing_slash_snoc.
    + change ("/" ++ String c (p ++ "/")) with (("/" ++ String c p) ++ "/").
      now rewrite strip_trailing_slash_snoc.
Qed.

Lemma strip_trailing_slash_no_slash (s : string) :
  (forall q, s <> q ++ "/") -> strip_trailing_slash s = s.
Proof.
  induction s as [|c s IH]; intros Hs; [reflexivity|].
  destruct s as [|d s].
  - cbn [strip_trailing_slash].
    destruct (Ascii.eqb_spec c "/") as [->|]; [|reflexivity].
    now destruct (Hs "").
  - change (strip_trailing_slash (String c (String d s)))
      with (String c (strip_trailing_slash (String d s))).
    rewrite IH; [reflexivity|].
    intros q Hq. apply (Hs (String c q)).
    change (String c q ++ "/") with (String c (q ++ "/")). now rewrite Hq.
Qed.

Lemma normalizePath_no_trailing_slash (p : string) :
  (forall q, p <> q ++ "/") ->
  normalizePath p = if startsWith p "/" then p else "/" ++ p.
Proof.
  intros Hp. unfold normalizePath.
  destruct (startsWith p "/") eqn:E; cbn [negb].
  - rewrite (strip_trailing_slash_no_slash p Hp).
    destruct (startsWith_slash_cons p E) as [s ->]. reflexivity.
  - destruct p as [|c p]; [reflexivity|].
    change ("/" ++ String c p) with (String "/" (String c p)).
    rewrite strip_trailing_slash_no_slash; [reflexivity|].
    intros [|d q] Hq.
    + discriminate Hq.
    + change (String d q ++ "/") with (String d (q ++ "/")) in Hq.
      injection Hq as _ Hq. exact (Hp q Hq).
Qed.

(** X22.  [normalizePath] supplies a missing leading slash and drops one
    trailing slash, and does nothing else.  For a path [p] that does not
    end with a slash the result is [p] when [p] begins with a slash and
    ['/' + p] otherwise, and the result for [p + '/'] is the same: so
    ["users"], ["/users"], ["users/"] and ["/users/"] all give
    ["/users"], and [""] and ["/"] give ["/"].  In every case the result
    begins with a slash and is not empty. *)
Theorem normalizePath_slashes (p : string) :
  startsWith (normalizePath p) "/" = true
  /\ normalizePath p <> ""
  /\ normalizePath (p ++ "/") = (if startsWith p "/" then p else "/" ++ p)
  /\ ((forall q, p <> q ++ "/") ->
      normalizePath p = (if startsWith p "/" then p else "/" ++ p)).
Proof.
  pose proof (normalizePath_begins_with_slash_aux p) as H.
  split; [exact H|]. split; [intros E; now rewrite E in H|].
  split; [apply normalizePath_snoc_slash|apply normalizePath_no_trailing_slash].
Qed.

Lemma normalizePath_slashes_witness :
  normalizePath "users" = "/users"
  /\ normalizePath "/users" = "/users"
  /\ normalizePath "users/" = "/users"
  /\ normalizePath "/users/" = "/users"
  /\ normalizePath "api/v1/users" = "/api/v1/users".
Proof.
  assert (Hno : forall t q : string,
             t <> "" -> strip_trailing_slash t = t -> t <> q ++ "/").
  { intros t q Ht Hs ->. rewrite strip_trailing_slash_snoc in Hs.
    revert Hs. clear. induction q as [|c q IH]; [discriminate|].
    change (String c q ++ "/") with (String c (q ++ "/")).
    intros Hq. injection Hq as Hq. exact (IH Hq). }
  split; [|split; [|split; [|split]]].
  - exact (proj2 (proj2 (proj2 (normalizePath_slashes "users")))
             (fun q => Hno "users" q ltac:(discriminate) eq_refl)).
  - exact (proj2 (proj2 (proj2 (normalizePath_slashes "/users")))
             (fun q => Hno "/users" q ltac:(discriminate) eq_refl)).
  - exact (proj1 (proj2 (proj2 (normalizePath_slashes "users")))).
  - exact (proj1 (proj2 (proj2 (normalizePath_slashes "/users")))).
  - exact (proj2 (proj2 (proj2 (normalizePath_slashes "api/v1/users")))
             (fun q => Hno "api/v1/users" q ltac:(discriminate) eq_refl)).
Defined.

(* ===================================================================== *)
(** * Properties of the rate limiter                                      *)
(* ===================================================================== *)

Lemma RateLimiter_new_maxRequests (c : RateLimitConfig) :
  (forall v, rl_maxRequests c = Some v -> 0 <= v) ->
  1 <= maxRequests (RateLimiter_new c).
Proof.
  intros Hc. unfold RateLimiter_new, num_or. cbn [maxRequests].
  destruct (rl_maxRequests c) as [v|]; [|lia].
  specialize (Hc v eq_refl). destruct (Z.eqb_spec v 0); lia.
Qed.

Lemma limiter_step_idle (i : LimiterInput) (lim : RateLimiter) :
  1 <= maxRequests lim ->
  limiter_step i (mkLimiter lim [] false false)
  = (mkLimiter lim [] false false, admitted_at_once i).
Proof.
  intros Hm. destruct i as [caller|]; [|reflexivity].
  unfold limiter_step, acquire, process, process_loop, splice0.
  cbn [limits queue processing sleeping app].
  destruct (Z.to_nat (maxRequests lim)) as [|n] eqn:E; [lia|].
  destruct n; reflexivity.
Qed.

Lemma limiter_run_idle (inputs : list LimiterInput) (lim : RateLimiter) :
  1 <= maxRequests lim ->
  limiter_run inputs (mkLimiter lim [] false false)
  = (mkLimiter lim [] false false, admitted_at_once <$> inputs).
Proof.
  intros Hm. induction inputs as [|i inputs IH]; [reflexivity|].
  cbn [limiter_run]. now rewrite (limiter_step_idle i lim Hm), IH.
Qed.

(** X23.  A limiter never makes anyone wait: for a limiter built from a
    configuration whose [maxRequests] is not negative, every [acquire] is
    resolved during its own call, no timer is ever set, and the limiter is
    idle with an empty queue after every step, however many callers come
    and however fast.  ([process] runs to its end inside [acquire], so the
    queue never holds more than the one caller.) *)
Theorem acquire_never_waits (c : RateLimitConfig) (inputs : list LimiterInput) :
  (forall v, rl_maxRequests c = Some v -> 0 <= v) ->
  limiter_run inputs (Limiter_new c)
  = (Limiter_new c, admitted_at_once <$> inputs).
Proof.
  intros Hc. unfold Limiter_new.
  apply limiter_run_idle, RateLimiter_new_maxRequests, Hc.
Qed.

Lemma acquire_never_waits_witness :
  limiter_run five_callers (Limiter_new (mkRateLimitConfig (Some 2) (Some 1000)))
  = (Limiter_new (mkRateLimitConfig (Some 2) (Some 1000)),
     [[Resolved 1]; [Resolved 2]; [Resolved 3]; []; [Resolved 4]; [Resolved 5]]).
Proof.
  apply (acquire_never_waits (mkRateLimitConfig (Some 2) (Some 1000))
           five_callers).
  intros v Hv. injection Hv as <-. lia.
Defined.

Lemma process_loop_blocked (l : Limiter) :
  maxRequests (limits l) <= 0 ->
  queue l <> [] ->
  process_loop l
  = (mkLimiter (limits l) (queue l) true true,
     [SetTimeout (windowMs (limits l))]).
Proof.
  intros Hm Hq. unfold process_loop, splice0.
  replace (Z.to_nat (maxRequests (limits l))) with 0%nat by lia.
  destruct (queue l) as [|x q] eqn:E; [congruence|]. reflexivity.
Qed.

Lemma limiter_step_blocked (i : LimiterInput) (l : Limiter) :
  maxRequests (limits l) <= 0 ->
  (queue l = [] -> processing l = false /\ sleeping l = false) ->
  let '(l', out) := limiter_step i l in
  limits l' = limits l
  /\ queue l' = (queue l ++ callers [i])%list
  /\ forallb (fun e => negb (is_Resolved e)) out = true
  /\ (queue l' = [] -> processing l' = false /\ sleeping l' = false).
Proof.
  intros Hm Hidle. unfold callers.
  destruct i as [caller|]; cbn [limiter_step omap].
  - unfold acquire, process. cbn [processing limits queue sleeping].
    destruct (processing l) eqn:Hp.
    + cbn. split; [reflexivity|]. split; [reflexivity|]. split; [reflexivity|].
      intros E. now destruct (queue l).
    + rewrite process_loop_blocked; cbn [limits queue];
        [|exact Hm|now destruct (queue l)].
      cbn. split; [reflexivity|]. split; [reflexivity|]. split; [reflexivity|].
      intros E. now destruct (queue l).
  - unfold timer_fires. rewrite app_nil_r.
    destruct (sleeping l) eqn:Hs.
    + destruct (queue l) as [|x q] eqn:Hq.
      * destruct Hidle as [_ ?]; congruence.
      * rewrite process_loop_blocked; cbn [limits queue];
          [|exact Hm|congruence].
        rewrite ?Hq. cbn. split; [reflexivity|]. split; [reflexivity|].
        split; [reflexivity|]. discriminate.
    + cbn. split; [reflexivity|]. split; [reflexivity|]. split; [reflexivity|].
      rewrite Hs. exact Hidle.
Qed.

Lemma limiter_run_blocked (inputs : list LimiterInput) (l : Limiter) :
  maxRequests (limits l) <= 0 ->
  (queue l = [] -> processing l = false /\ sleeping l = false) ->
  queue (fst (limiter_run inputs l)) = (queue l ++ callers inputs)%list
  /\ forallb (fun e => negb (is_Resolved e))
             (concat (snd (limiter_run inputs l))) = true.
Proof.
  revert l. induction inputs as [|i inputs IH]; intros l Hm Hidle.
  - cbn. now rewrite app_nil_r.
  - cbn [limiter_run].
    pose proof (limiter_step_blocked i l Hm Hidle) as Hstep.
    destruct (limiter_step i l) as [l1 out].
    destruct Hstep as (Hl & Hq & Hout & Hidle1).
    destruct (IH l1 ltac:(now rewrite Hl) Hidle1) as [IH1 IH2].
    destruct (limiter_run inputs l1) as [l2 outs]. cbn [fst snd] in *.
    split.
    + rewrite IH1, Hq, <- app_assoc. f_equal.
      destruct i; reflexivity.
    + cbn [concat]. rewrite forallb_app, Hout, IH2. reflexivity.
Qed.

(** X24.  A negative [maxRequests] blocks every caller for ever: the
    constructor keeps a negative limit as it is, [splice] then removes
    nothing from the queue, and [process] only sets its timer again.
    Whatever callers come and whenever the timer fires, no caller is ever
    resolved, and all of them are still in the queue. *)
Theorem negative_maxRequests_blocks (c : RateLimitConfig) (v : Z)
    (inputs : list LimiterInput) :
  rl_maxRequests c = Some v ->
  v < 0 ->
  let '(l, outs) := limiter_run inputs (Limiter_new c) in
  queue l = callers inputs
  /\ forall caller, Resolved caller ∉ concat outs.
Proof.
  intros Hc Hv.
  destruct (limiter_run_blocked inputs (Limiter_new c)) as [Hq Hout].
  - unfold Limiter_new, RateLimiter_new, num_or. cbn [limits maxRequests].
    rewrite Hc. destruct (Z.eqb_spec v 0); lia.
  - now intros _.
  - destruct (limiter_run inputs (Limiter_new c)) as [l outs].
    cbn [fst snd] in *. split; [exact Hq|].
    intros caller Hin.
    rewrite forallb_forall in Hout.
    apply list_elem_of_In, Hout in Hin. discriminate.
Qed.

Lemma negative_maxRequests_blocks_witness :
  let '(l, outs) :=
    limiter_run five_callers (Limiter_new (mkRateLimitConfig (Some (-1)) None)) in
  queue l = [1; 2; 3; 4; 5]%nat
  /\ forall caller, Resolved caller ∉ concat outs.
Proof.
  exact (negative_maxRequests_blocks (mkRateLimitConfig (Some (-1)) None) (-1)
           five_callers eq_refl ltac:(lia)).
Defined.

(* ===================================================================== *)
(** * Properties of the endpoint directory                                *)
(* ===================================================================== *)

Lemma append_ne_self (s t : string) : t <> "" -> s <> s ++ t.
Proof.
  intros Ht. induction s as [|c s IH].
  - change ("" ++ t) with t. congruence.
  - change (String c s ++ t) with (String c (s ++ t)). congruence.
Qed.

Lemma strip_trailing_slash_keeps (s : string) (c : ascii) :
  c <> "/"%char ->
  strip_trailing_slash (s ++ String c "") = s ++ String c "".
Proof.
  intros Hc. induction s as [|d s IH].
  - change ("" ++ String c "") with (String c "").
    cbn [strip_trailing_slash].
    destruct (Ascii.eqb_spec c "/"); [congruence|reflexivity].
  - change (String d s ++ String c "") with (String d (s ++ String c "")).
    destruct s as [|e s].
    + change ("" ++ String c "") with (String c "") in *.
      cbn [strip_trailing_slash] in *. now rewrite IH.
    + change (String e s ++ String c "")
        with (String e (s ++ String c "")) in *.
      cbn [strip_trailing_slash] in *. now rewrite IH.
Qed.

Lemma append_assoc_string (a b c : string) : (a ++ b) ++ c = a ++ (b ++ c).
Proof.
  induction a as [|x a IH]; [reflexivity|].
  change (String x a ++ b) with (String x (a ++ b)).
  change (String x (a ++ b) ++ c) with (String x ((a ++ b) ++ c)).
  change (String x a ++ (b ++ c)) with (String x (a ++ (b ++ c))).
  now rewrite IH.
Qed.

Lemma normalizePath_item (s : string) :
  normalizePath (String "/" s ++ "/:id") = String "/" s ++ "/:id".
Proof.
  unfold normalizePath.
  change (String "/" s ++ "/:id") with (String "/" (s ++ "/:id")).
  cbn [startsWith negb andb Ascii.eqb Bool.eqb].
  change (String "/" (s ++ "/:id")) with (String "/" s ++ "/:id").
  change "/:id" with ("/:i" ++ String "d" "").
  rewrite <- append_assoc_string.
  rewrite strip_trailing_slash_keeps by discriminate.
  change ((String "/" s ++ "/:i") ++ String "d" "")
    with (String "/" ((s ++ "/:i") ++ String "d" "")).
  reflexivity.
Qed.

Lemma normalizePath_cons_slash (path : string) :
  exists s, normalizePath path = String "/" s.
Proof.
  pose proof (normalizePath_begins_with_slash_aux path) as H.
  now apply startsWith_slash_cons.
Qed.

(** X25.  Of the five endpoints that [createRESTEndpoints] defines, the
    directory of the client keeps two, because it is keyed by path and a
    later definition replaces an earlier one: the resource path is left
    with the method POST alone (the GET definition is gone) and the item
    path with DELETE alone (GET, PUT and PATCH are gone).  Every other
    entry of the directory is as before. *)
Theorem createRESTEndpoints_directory (clock : nat -> Z) (resource : string)
    (g : APIGateway) :
  let rp := normalizePath resource in
  let g' := createRESTEndpoints clock resource g in
  OMap.get rp (endpoints g')
  = Some (mkEndpoint (normalizePath rp) ["POST"] (clock 2%nat))
  /\ OMap.get (rp ++ "/:id") (endpoints g')
     = Some (mkEndpoint (rp ++ "/:id") ["DELETE"] (clock 4%nat))
  /\ (forall k, k <> rp -> k <> rp ++ "/:id" ->
      OMap.get k (endpoints g') = OMap.get k (endpoints g)).
Proof.
  cbv zeta. unfold createRESTEndpoints, createEndpoint, set_endpoints.
  cbn [snd endpoints methodArray].
  destruct (normalizePath_cons_slash resource) as [s Hs]. rewrite Hs.
  rewrite normalizePath_item.
  set (rp := String "/" s).
  assert (Hne : rp <> rp ++ "/:id") by (apply append_ne_self; discriminate).
  split; [|split].
  - rewrite !OMap_get_set_ne by congruence. apply OMap_get_set_eq.
  - apply OMap_get_set_eq.
  - intros k H1 H2. now rewrite !OMap_get_set_ne by congruence.
Qed.

(* ===================================================================== *)
(** * Properties of the connection to the local service                   *)
(* ===================================================================== *)

Lemma checkConnection_chain_step (answers : Z -> ServiceAnswer) (k : Z)
    (c : LocalProxyConnector) :
  checkConnection_chain answers k c
  = let '(_, c', retry) := checkConnection (answers k) c in
    if retry then
      let '(c'', ks) := checkConnection_chain answers (k + 1) c' in
      (c'', k :: ks)
    else (c', [k]).
Proof.
  rewrite checkConnection_chain_equation_1.
  unfold checkConnection_chain_unfold_clause_1, inspect.
  destruct (checkConnection (answers k) c) as [[r c'] []]; reflexivity.
Qed.

Lemma checkConnection_chain_down (answers : Z -> ServiceAnswer) (n : nat) :
  forall (k : Z) (c : LocalProxyConnector),
  (forall i, k <= i -> answers i = NoAnswer) ->
  Z.to_nat (maxRetries c - connectionRetries c - 1) = n ->
  checkConnection_chain answers k c
  = (mkConnector (localProxyHost c) (localProxyPort c) (managementPort c)
       false (lp_activeGateways c)
       (connectionRetries c + Z.max 1 (maxRetries c - connectionRetries c))
       (maxRetries c),
     seqZ k (Z.max 1 (maxRetries c - connectionRetries c))).
Proof.
  induction n as [|n IH]; intros k c Hdown Hn;
    rewrite checkConnection_chain_step, (Hdown k) by lia;
    cbn [checkConnection connectionRetries maxRetries].
  - destruct (Z.ltb_spec (connectionRetries c + 1) (maxRetries c)); [lia|].
    replace (Z.max 1 (maxRetries c - connectionRetries c)) with 1 by lia.
    reflexivity.
  - destruct (Z.ltb_spec (connectionRetries c + 1) (maxRetries c)); [|lia].
    rewrite IH; cbn [connectionRetries maxRetries localProxyHost
                       localProxyPort managementPort lp_activeGateways];
      [|intros i Hi; apply Hdown; lia|lia].
    replace (Z.max 1 (maxRetries c - (connectionRetries c + 1)))
      with (maxRetries c - connectionRetries c - 1) by lia.
    replace (Z.max 1 (maxRetries c - connectionRetries c))
      with (maxRetries c - connectionRetries c) by lia.
    rewrite (seqZ_cons k (maxRetries c - connectionRetries c)) by lia.
    replace (Z.succ k) with (k + 1) by lia.
    replace (Z.pred (maxRetries c - connectionRetries c))
      with (maxRetries c - connectionRetries c - 1) by lia.
    replace (connectionRetries c + 1 + (maxRetries c - connectionRetries c - 1))
      with (connectionRetries c + (maxRetries c - connectionRetries c)) by lia.
    reflexivity.
Qed.

(** X26.  The connector gives up: while the service does not answer, a
    call of [checkConnection] is followed by scheduled retries until
    [connectionRetries] has reached [maxRetries], and by none after that.
    From a counter [r] the checks made are [max 1 (maxRetries - r)]: five
    for a new connector, and one for every later call.  The connector ends
    disconnected with its list of gateways as it was. *)
Theorem checkConnection_gives_up (answers : Z -> ServiceAnswer) (k : Z)
    (c : LocalProxyConnector) :
  (forall i, k <= i -> answers i = NoAnswer) ->
  let n := Z.max 1 (maxRetries c - connectionRetries c) in
  checkConnection_chain answers k c
  = (mkConnector (localProxyHost c) (localProxyPort c) (managementPort c)
       false (lp_activeGateways c) (connectionRetries c + n) (maxRetries c),
     seqZ k n).
Proof.
  intros Hdown. cbv zeta.
  exact (checkConnection_chain_down answers _ k c Hdown eq_refl).
Qed.

Lemma checkConnection_gives_up_witness :
  checkConnection_chain service_down 0 LocalProxyConnector_new
  = (mkConnector "127.0.0.1" 8888 8889 false [] 5 5, [0; 1; 2; 3; 4]).
Proof.
  exact (checkConnection_gives_up service_down 0 LocalProxyConnector_new
           (fun i _ => eq_refl)).
Defined.

Lemma checkConnection_chain_up (answers : Z -> ServiceAnswer)
    (gateways : option (list jsval)) (m : nat) :
  forall (k n : Z) (c : LocalProxyConnector),
  Z.to_nat n = m ->
  0 <= n ->
  (n = 0 \/ connectionRetries c + n < maxRetries c) ->
  (forall i, k <= i < k + n -> answers i = NoAnswer) ->
  answers (k + n) = AnswerOk gateways ->
  checkConnection_chain answers k c
  = (mkConnector (localProxyHost c) (localProxyPort c) (managementPort c)
       true (default [] gateways) 0 (maxRetries c),
     seqZ k (n + 1)).
Proof.
  induction m as [|m IH]; intros k n c Hm Hn Hlt Hdown Hup;
    rewrite checkConnection_chain_step.
  - assert (n = 0) as -> by lia. rewrite Z.add_0_r in Hup. rewrite Hup.
    reflexivity.
  - rewrite (Hdown k) by lia.
    cbn [checkConnection connectionRetries maxRetries].
    destruct (Z.ltb_spec (connectionRetries c + 1) (maxRetries c)); [|lia].
    rewrite (IH (k + 1) (n - 1));
      cbn [connectionRetries maxRetries localProxyHost localProxyPort
             managementPort lp_activeGateways];
      [|lia|lia|lia|intros i Hi; apply Hdown; lia
       |now replace (k + 1 + (n - 1)) with (k + n) by lia].
    rewrite (seqZ_cons k (n + 1)) by lia.
    replace (Z.succ k) with (k + 1) by lia.
    replace (Z.pred (n + 1)) with (n - 1 + 1) by lia.
    reflexivity.
Qed.

(** X27.  The connector recovers: when the service does not answer the
    first [n] checks of a chain of retries and answers the next one with
    an [ok] status, and the counter allows that many retries, the chain
    makes [n + 1] checks and stops; the connector is connected, holds the
    gateways of the answer (none when the answer has none), and its
    counter is back at 0, so that a later outage is retried in full. *)
Theorem checkConnection_recovers (answers : Z -> ServiceAnswer)
    (gateways : option (list jsval)) (k n : Z) (c : LocalProxyConnector) :
  0 <= n ->
  (n = 0 \/ connectionRetries c + n < maxRetries c) ->
  (forall i, k <= i < k + n -> answers i = NoAnswer) ->
  answers (k + n) = AnswerOk gateways ->
  checkConnection_chain answers k c
  = (mkConnector (localProxyHost c) (localProxyPort c) (managementPort c)
       true (default [] gateways) 0 (maxRetries c),
     seqZ k (n + 1)).
Proof.
  intros Hn Hlt Hdown Hup.
  exact (checkConnection_chain_up answers gateways _ k n c eq_refl Hn Hlt
           Hdown Hup).
Qed.

Lemma checkConnection_recovers_witness :
  checkConnection_chain (service_up_at 3 [VString "gw-1"]) 0
    LocalProxyConnector_new
  = (mkConnector "127.0.0.1" 8888 8889 true [VString "gw-1"] 0 5,
     [0; 1; 2; 3]).
Proof.
  apply (checkConnection_recovers (service_up_at 3 [VString "gw-1"])
           (Some [VString "gw-1"]) 0 3 LocalProxyConnector_new).
  - lia.
  - right. vm_compute. reflexivity.
  - intros i Hi. unfold service_up_at.
    destruct (Z.ltb_spec i 3); [reflexivity|lia].
  - reflexivity.
Defined.

(** X28.  A status answer that is not [ok] makes [connectToLocalProxy]
    throw: [checkConnection] then resolves to [undefined], whose
    [connected] property is read.  It is the only answer that does; the
    connector is then as it was and no retry is scheduled, while no answer
    at all is reported as not running. *)
Theorem connectToLocalProxy_throws_iff (status listing : ServiceAnswer)
    (c : LocalProxyConnector) :
  let '(r, c', retry) := connectToLocalProxy status listing c in
  (is_Throw r = true <-> status = AnswerNotOk)
  /\ (status = AnswerNotOk -> c' = c /\ retry = false)
  /\ (status = NoAnswer -> r = Normal ReportNotRunning).
Proof.
  destruct status; cbn; (split; [split; [discriminate || reflexivity
                                       |discriminate || reflexivity]|]);
    (split; [discriminate || (intros _; split; reflexivity)
            |discriminate || reflexivity]).
Qed.

(* ===================================================================== *)
(** * Properties of the proxy configuration                               *)
(* ===================================================================== *)

(** X29.  While the local service is in use and connected, Chrome is sent
    to the local proxy whatever the controller holds: targets, current
    index, gateways and rotation have no influence on the configuration,
    which names the connector's host and port. *)
Theorem generateProxyConfig_local_service (localProxy : LocalProxyConnector)
    (pm : ProxyManager) :
  isConnected localProxy = true ->
  generateProxyConfig true localProxy pm
  = Normal (FixedServers "http" (localProxyHost localProxy)
              (localProxyPort localProxy)
              ["localhost"; "127.0.0.1"; "*.local"; "<local>"])
  /\ forall pm', generateProxyConfig true localProxy pm'
                 = generateProxyConfig true localProxy pm.
Proof.
  intros Hc. unfold generateProxyConfig, getProxyConfig. rewrite Hc.
  split; [reflexivity|]. intros pm'. reflexivity.
Qed.

Lemma generateProxyConfig_local_service_witness :
  generateProxyConfig true connected_service three_targets_two_gateways
  = Normal (FixedServers "http" "127.0.0.1" 8888
              ["localhost"; "127.0.0.1"; "*.local"; "<local>"]).
Proof.
  exact (proj1 (generateProxyConfig_local_service connected_service
                  three_targets_two_gateways eq_refl)).
Defined.

Lemma array_get_Some {A : Type} (arr : list A) (i : jsnum) (x : A) :
  array_get arr i = Some x ->
  exists z, i = JNum z /\ 0 <= z /\ arr !! Z.to_nat z = Some x.
Proof.
  destruct i as [z|]; cbn; [|discriminate].
  destruct (Z.ltb_spec z 0); [discriminate|]. eauto.
Qed.

Lemma array_get_rem {A : Type} (arr : list A) (z : Z) :
  0 <= z -> arr <> [] ->
  exists x, array_get arr (js_rem (JNum z) (array_length arr)) = Some x
            /\ x ∈ arr.
Proof.
  intros Hz Hne. unfold js_rem, array_length.
  assert (0 < Z.of_nat (length arr)) by (destruct arr; [congruence|cbn; lia]).
  destruct (Z.eqb_spec (Z.of_nat (length arr)) 0); [lia|].
  pose proof (Z.rem_bound_pos z (Z.of_nat (length arr)) Hz ltac:(lia)) as Hb.
  cbn [array_get]. destruct (Z.ltb_spec (Z.rem z (Z.of_nat (length arr))) 0); [lia|].
  destruct (lookup_lt_is_Some_2 arr (Z.to_nat (Z.rem z (Z.of_nat (length arr))))
              ltac:(lia)) as [x Hx].
  exists x. split; [exact Hx|]. eapply list_elem_of_lookup_2, Hx.
Qed.

(** X30.  What Chrome is given is what [getCurrentProxy] reports: when the
    local service is not used or not connected and there are targets, then
    either the current index names a target, and the configuration is the
    fixed server of that very target when no gateway is configured, and
    otherwise the PAC script of the gateway that [getCurrentProxy] reports,
    which is one of the configured gateways; or the index names no target
    (it is NaN or out of range), and [generateProxyConfig] throws. *)
Theorem generateProxyConfig_current_target (useLocalProxy : bool)
    (localProxy : LocalProxyConnector) (pm : ProxyManager) :
  useLocalProxy && isConnected localProxy = false ->
  proxyEndpoints pm <> [] ->
  match array_get (proxyEndpoints pm) (currentProxyIndex pm) with
  | Some p =>
      exists cp,
        getCurrentProxy pm = Some cp
        /\ cp_proxy cp = Some p
        /\ match cp_gateway cp with
           | None =>
               apiGateways pm = []
               /\ generateProxyConfig useLocalProxy localProxy pm
                  = Normal (FixedServers (type p) (host p) (port p)
                              ["localhost"; "127.0.0.1"; "*.local"])
           | Some (Some g) =>
               (g ∈ apiGateways pm)
               /\ generateProxyConfig useLocalProxy localProxy pm
                  = Normal (PacScript (generatePACScript g))
           | Some None => False
           end
  | None =>
      exists msg,
        generateProxyConfig useLocalProxy localProxy pm = Throw (TypeError msg)
  end.
Proof.
  intros Hlocal Hne. unfold generateProxyConfig, getCurrentProxy.
  rewrite Hlocal.
  destruct (proxyEndpoints pm) as [|t ts] eqn:Hts; [congruence|].
  cbn [length Nat.eqb].
  destruct (array_get (t :: ts) (currentProxyIndex pm)) as [p|] eqn:Hp;
    [|eauto].
  destruct (array_get_Some _ _ _ Hp) as (z & Hz & Hz0 & _).
  rewrite Hz in *.
  destruct (apiGateways pm) as [|g gs] eqn:Hgs.
  - cbn [length Nat.ltb Nat.leb]. eexists. split; [reflexivity|].
    cbn [cp_proxy cp_gateway]. split; [reflexivity|]. split; reflexivity.
  - change (0 <? length (g :: gs))%nat with true. cbv iota.
    destruct (array_get_rem (g :: gs) z Hz0 ltac:(discriminate))
      as (x & Hx1 & Hx).
    rewrite Hx1. eexists. split; [reflexivity|]. cbn [cp_proxy cp_gateway].
    split; [reflexivity|]. split; [exact Hx|reflexivity].
Qed.

Lemma generateProxyConfig_current_target_witness :
  generateProxyConfig false LocalProxyConnector_new three_targets_two_gateways
  = Normal (PacScript "PROXY g1.example.com:443")
  /\ generateProxyConfig true LocalProxyConnector_new three_targets
     = Normal (FixedServers "http" "A" 8080
                 ["localhost"; "127.0.0.1"; "*.local"]).
Proof.
  split.
  - pose proof (generateProxyConfig_current_target false LocalProxyConnector_new
                  three_targets_two_gateways eq_refl ltac:(discriminate)) as H.
    vm_compute in H. destruct H as (cp & Hcp & _ & H).
    injection Hcp as <-. cbn in H. destruct H as [_ H]. vm_compute. exact H.
  - pose proof (generateProxyConfig_current_target true LocalProxyConnector_new
                  three_targets eq_refl ltac:(discriminate)) as H.
    vm_compute in H. destruct H as (cp & Hcp & _ & H).
    injection Hcp as <-. cbn in H. destruct H as [_ H]. vm_compute. exact H.
Defined.
